(** * The grid-trading daemon runner (run_grid_trading_daemon.py)

    A shallow embedding of [DaemonGridRunner]: the configuration
    translator, the market-type resolver, the credential and connection
    bootstrapper, the statistics loop, the signal handler, the startup
    sequence and the cleanup sequence.

    Conventions of the embedding.
    - Python text is a [string]: the bytes of its UTF-8 encoding, on
      which equality, concatenation and the substring test [in] are those
      of the text. The case mappings [str.upper], [str.lower] and
      [str.capitalize] follow the Unicode tables of the interpreter; they
      are taken from the [Runtime], of which only their values on ASCII
      text are assumed.
    - A document read by [yaml.safe_load] is a [value]; a mapping is a
      [gmap] from keys to values (every lookup of the program uses a
      string key).
    - A call that may raise returns a [result]; the exceptions are the
      ones the Python runtime raises at that point.
    - The collaborators (exchange adapter, coordinator, reserve monitor,
      logger, event loop) are outside this file of the program: each of
      their calls is recorded in a trace and its outcome (it returns, it
      raises, or it never returns) is read from a [world]. *)

From Stdlib Require Import ZArith String Ascii List Bool Lia PrimFloat.
From stdpp Require Import gmap strings list fin_maps pretty.

Set Warnings "-register-all".

(** ** Python text *)

Module PyStr.

Definition is_lower (c : ascii) : bool :=
  (Ascii.leb "a" c && Ascii.leb c "z")%char.

Definition is_upper (c : ascii) : bool :=
  (Ascii.leb "A" c && Ascii.leb c "Z")%char.

Definition upper_char (c : ascii) : ascii :=
  if is_lower c then ascii_of_N (N_of_ascii c - 32) else c.

Definition lower_char (c : ascii) : ascii :=
  if is_upper c then ascii_of_N (N_of_ascii c + 32) else c.

(** Is every character of [s] an ASCII character. *)
Fixpoint is_ascii (s : string) : bool :=
  match s with
  | EmptyString => true
  | String c t => (N_of_ascii c <? 128)%N && is_ascii t
  end.

(** [s.upper()] on ASCII text *)
Fixpoint upper (s : string) : string :=
  match s with
  | EmptyString => EmptyString
  | String c t => String (upper_char c) (upper t)
  end.

(** [s.lower()] on ASCII text *)
Fixpoint lower (s : string) : string :=
  match s with
  | EmptyString => EmptyString
  | String c t => String (lower_char c) (lower t)
  end.

(** [s.capitalize()] on ASCII text *)
Definition capitalize (s : string) : string :=
  match s with
  | EmptyString => EmptyString
  | String c t => String (upper_char c) (lower t)
  end.

(** [sub in s] *)
Fixpoint contains (sub s : string) : bool :=
  String.prefix sub s ||
  match s with
  | EmptyString => false
  | String _ t => contains sub t
  end.

(** [s in l] for a list of strings *)
Definition mem (s : string) (l : list string) : bool :=
  existsb (String.eqb s) l.

End PyStr.

(** ** Exceptions and results *)

Inductive exn :=
| KeyError (k : string)
| ValueError
| TypeError
| AttributeError
| InvalidOperation          (* decimal.InvalidOperation *)
| OSError                   (* open() *)
| YAMLError                 (* yaml.safe_load *)
| CollaboratorError (who : string)  (* an Exception raised by a collaborator *)
| CancelledError            (* asyncio.CancelledError: a BaseException *)
| KeyboardInterrupt         (* a BaseException *)
| SystemExit (code : Z).    (* sys.exit(code): a BaseException *)

(** [isinstance(e, Exception)]: what [except Exception] catches. *)
Definition is_Exception (e : exn) : bool :=
  match e with
  | CancelledError | KeyboardInterrupt | SystemExit _ => false
  | _ => true
  end.

Inductive result (A : Type) :=
| Ok (a : A)
| Raise (e : exn).
Arguments Ok {A} a.
Arguments Raise {A} e.

#[global] Instance result_ret : MRet result := fun A a => Ok a.

#[global] Instance result_bind : MBind result := fun A B k r =>
  match r with
  | Ok a => k a
  | Raise e => Raise e
  end.

(** ** Python values read from YAML *)

Inductive value :=
| VNone
| VBool (b : bool)
| VInt (z : Z)
| VFloat (f : float)
| VStr (s : string)
| VList (l : list value)
| VDict (d : gmap string value).

(** [bool(v)] *)
Definition truthy (v : value) : bool :=
  match v with
  | VNone => false
  | VBool b => b
  | VInt z => negb (z =? 0)%Z
  | VFloat f => negb (PrimFloat.eqb f 0%float)
  | VStr s => negb (String.eqb s "")
  | VList l => match l with [] => false | _ => true end
  | VDict d => negb (bool_decide (d = ∅))
  end.

(** [a or b] *)
Definition py_or (a b : value) : value := if truthy a then a else b.

(** [v[k]] for a string key [k] *)
Definition getitem (v : value) (k : string) : result value :=
  match v with
  | VDict d => match d !! k with Some x => Ok x | None => Raise (KeyError k) end
  | _ => Raise TypeError
  end.

(** [v.get(k, dflt)] *)
Definition get (v : value) (k : string) (dflt : value) : result value :=
  match v with
  | VDict d => Ok (default dflt (d !! k))
  | _ => Raise AttributeError
  end.

(** A method of [str] called on [v], as in [v.upper()] or [v.lower()]. *)
Definition as_str (v : value) : result string :=
  match v with
  | VStr s => Ok s
  | _ => Raise AttributeError
  end.

(** [os.getenv(name)] seen as a Python value. *)
Definition getenv (environ : string -> option string) (name : string) : value :=
  match environ name with
  | Some s => VStr s
  | None => VNone
  end.

(** ** The Python runtime *)

(** A [decimal.Decimal]: sign, coefficient and exponent, or a special
    value. *)
Inductive decimal :=
| DFinite (negative : bool) (coefficient : N) (exponent : Z)
| DInfinity (negative : bool)
| DNaN (negative signalling : bool) (payload : N).

(** The builtins of the Python runtime the runner calls. They are not
    code of the program: the development is stated for any runtime. The
    case mappings are those of the interpreter's Unicode tables; what is
    assumed of them is that they fold the letters of ASCII text as
    [PyStr.upper] and [PyStr.lower] do. *)
Class Runtime := {
  py_str : value -> string;               (* str(v) *)
  py_int : value -> result Z;             (* int(v) *)
  py_Decimal : string -> result decimal;  (* Decimal(s) *)
  py_upper : string -> string;            (* s.upper() *)
  py_lower : string -> string;            (* s.lower() *)
  py_capitalize : string -> string;       (* s.capitalize() *)
  py_upper_ascii : forall s, PyStr.is_ascii s = true -> py_upper s = PyStr.upper s;
  py_lower_ascii : forall s, PyStr.is_ascii s = true -> py_lower s = PyStr.lower s
}.

(** ** Market type *)

(** [ExchangeType] of core.adapters.exchanges.models; the runner uses its
    members SPOT and PERPETUAL. *)
Inductive ExchangeType := SPOT | PERPETUAL.

Definition ExchangeType_eqb (a b : ExchangeType) : bool :=
  match a, b with
  | SPOT, SPOT | PERPETUAL, PERPETUAL => true
  | _, _ => false
  end.

Section resolver.
Context `{Runtime}.

Definition detect_market_type (symbol exchange_name : string) : ExchangeType :=
  let symbol_upper := py_upper symbol in
  let exchange_lower := py_lower exchange_name in
  if String.eqb exchange_lower "hyperliquid" then
    if PyStr.contains ":USDC" symbol_upper || PyStr.contains ":PERP" symbol_upper
       || PyStr.contains ":SPOT" symbol_upper then
      if PyStr.contains ":SPOT" symbol_upper then SPOT else PERPETUAL
    else SPOT
  else if String.eqb exchange_lower "backpack" then
    if PyStr.contains "_PERP" symbol_upper || PyStr.contains "PERP" symbol_upper then
      PERPETUAL
    else if PyStr.contains "_SPOT" symbol_upper || PyStr.contains "SPOT" symbol_upper then
      SPOT
    else PERPETUAL
  else if String.eqb exchange_lower "lighter" then PERPETUAL
  else PERPETUAL.

End resolver.

(** ** Grid configuration *)

(** Modelled from the spec: [GridType] is declared in
    core/services/grid/models, which is not among the sources at hand. Its
    members are the six grid-type tags of the specification; the runner
    itself names FOLLOW_LONG and FOLLOW_SHORT and the values "short",
    "martingale_short" and "follow_short". *)
Inductive GridType :=
| LONG | SHORT | MARTINGALE_LONG | MARTINGALE_SHORT | FOLLOW_LONG | FOLLOW_SHORT.

(** [grid_type.value] *)
Definition GridType_value (g : GridType) : string :=
  match g with
  | LONG => "long"
  | SHORT => "short"
  | MARTINGALE_LONG => "martingale_long"
  | MARTINGALE_SHORT => "martingale_short"
  | FOLLOW_LONG => "follow_long"
  | FOLLOW_SHORT => "follow_short"
  end.

Definition GridType_members : list GridType :=
  [LONG; SHORT; MARTINGALE_LONG; MARTINGALE_SHORT; FOLLOW_LONG; FOLLOW_SHORT].

(** [GridType(v)]: the member whose value is [v], ValueError when there is
    none. *)
Definition GridType_of (v : value) : result GridType :=
  match v with
  | VStr s =>
      match find (fun g => String.eqb (GridType_value g) s) GridType_members with
      | Some g => Ok g
      | None => Raise ValueError
      end
  | _ => Raise ValueError
  end.

(** [grid_type in [GridType.FOLLOW_LONG, GridType.FOLLOW_SHORT]] *)
Definition is_follow (g : GridType) : bool :=
  match g with
  | FOLLOW_LONG | FOLLOW_SHORT => true
  | _ => false
  end.

(** A keyword argument handed to [GridConfig]. *)
Inductive param :=
| PRaw (v : value)          (* a value of the document, or a default *)
| PGridType (g : GridType)
| PDecimal (d : decimal).

(** [GridConfig] is declared in core/services/grid/models; the embedding
    keeps the keyword arguments it is constructed from, which are also
    what the runner later reads back as attributes. *)
Record GridConfig := { params : gmap string param }.

(** [d[k]] on a mapping *)
Definition item (d : gmap string value) (k : string) : result value :=
  getitem (VDict d) k.

(** How an optional field is carried into the parameters. *)
Inductive conv := Copy | ToDecimal | ToInt | ToStr.

(** The optional fields, in the order the translator tests them. *)
Definition optional_fields : list (string * conv) :=
  [ ("martingale_increment", ToDecimal);
    ("scalping_enabled", Copy);
    ("scalping_trigger_percent", Copy);
    ("scalping_take_profit_grids", Copy);
    ("smart_scalping_enabled", Copy);
    ("allowed_deep_drops", Copy);
    ("min_drop_threshold_percent", Copy);
    ("capital_protection_enabled", Copy);
    ("capital_protection_trigger_percent", Copy);
    ("take_profit_enabled", Copy);
    ("take_profit_percentage", ToDecimal);
    ("price_lock_enabled", Copy);
    ("price_lock_threshold", ToDecimal);
    ("price_lock_start_at_threshold", Copy);
    ("reverse_order_grid_distance", ToInt);
    ("stop_loss_protection_enabled", Copy);
    ("stop_loss_trigger_percent", ToDecimal);
    ("stop_loss_escape_timeout", ToInt);
    ("stop_loss_apr_threshold", ToDecimal);
    ("exit_cleanup_enabled", Copy);
    ("margin_mode", ToStr);
    ("leverage", ToInt);
    ("spot_reserve", Copy);
    ("position_tolerance", Copy);
    ("health_check_snapshot_count", ToInt) ].

Section translator.
Context `{Runtime}.

(** [Decimal(str(v))] *)
Definition to_decimal (v : value) : result param :=
  d ← py_Decimal (py_str v); mret (PDecimal d).

(** [int(v)] *)
Definition to_int (v : value) : result param :=
  z ← py_int v; mret (PRaw (VInt z)).

Definition convert (c : conv) (v : value) : result param :=
  match c with
  | Copy => Ok (PRaw v)
  | ToDecimal => to_decimal v
  | ToInt => to_int v
  | ToStr => Ok (PRaw (VStr (py_str v)))
  end.

(** The run of [if k in grid_config: params[k] = conv(grid_config[k])]
    statements. *)
Fixpoint copy_optional (fields : list (string * conv))
    (grid_config : gmap string value) (ps : gmap string param)
    : result (gmap string param) :=
  match fields with
  | [] => Ok ps
  | (k, c) :: rest =>
      match grid_config !! k with
      | Some v => p ← convert c v; copy_optional rest grid_config (<[k := p]> ps)
      | None => copy_optional rest grid_config ps
      end
  end.

(** The body of [create_grid_config] once [grid_config] is known to be a
    mapping. *)
Definition translate (grid_config : gmap string value) : result GridConfig :=
  gt ← item grid_config "grid_type";
  grid_type ← GridType_of gt;
  (* basic parameters *)
  exchange ← item grid_config "exchange";
  symbol ← item grid_config "symbol";
  gi ← item grid_config "grid_interval";
  grid_interval ← to_decimal gi;
  oa ← item grid_config "order_amount";
  order_amount ← to_decimal oa;
  max_position ←
    (if truthy (default VNone (grid_config !! "max_position"))
     then to_decimal (default VNone (grid_config !! "max_position"))
     else Ok (PRaw VNone));
  fee_rate ← to_decimal (default (VStr "0.0001") (grid_config !! "fee_rate"));
  quantity_precision ← to_int (default (VInt 3) (grid_config !! "quantity_precision"));
  price_decimals ← to_int (default (VInt 2) (grid_config !! "price_decimals"));
  let ps : gmap string param :=
    <["price_decimals" := price_decimals]>
    (<["quantity_precision" := quantity_precision]>
    (<["fee_rate" := fee_rate]>
    (<["rest_position_query_interval" :=
         PRaw (default (VInt 1) (grid_config !! "rest_position_query_interval"))]>
    (<["order_health_check_interval" :=
         PRaw (default (VInt 600) (grid_config !! "order_health_check_interval"))]>
    (<["order_health_check_enabled" :=
         PRaw (default (VBool true) (grid_config !! "order_health_check_enabled"))]>
    (<["enable_notifications" :=
         PRaw (default (VBool false) (grid_config !! "enable_notifications"))]>
    (<["max_position" := max_position]>
    (<["order_amount" := order_amount]>
    (<["grid_interval" := grid_interval]>
    (<["grid_type" := PGridType grid_type]>
    (<["symbol" := PRaw symbol]>
    (<["exchange" := PRaw exchange]> ∅)))))))))))) in
  (* follow grids take a grid count, the others a price range *)
  ps ←
    (if is_follow grid_type then
       follow_grid_count ← item grid_config "follow_grid_count";
       Ok (<["price_offset_grids" :=
               PRaw (default (VInt 0) (grid_config !! "price_offset_grids"))]>
           (<["follow_distance" :=
               PRaw (default (VInt 1) (grid_config !! "follow_distance"))]>
           (<["follow_timeout" :=
               PRaw (default (VInt 300) (grid_config !! "follow_timeout"))]>
           (<["follow_grid_count" := PRaw follow_grid_count]> ps))))
     else
       pr ← item grid_config "price_range";
       lo ← getitem pr "lower_price";
       lower_price ← to_decimal lo;
       pr' ← item grid_config "price_range";
       hi ← getitem pr' "upper_price";
       upper_price ← to_decimal hi;
       Ok (<["upper_price" := upper_price]> (<["lower_price" := lower_price]> ps)));
  ps ← copy_optional optional_fields grid_config ps;
  Ok {| params := ps |}.

Definition create_grid_config (config_data : value) : result GridConfig :=
  grid_config ← getitem config_data "grid_system";
  match grid_config with
  | VDict d => translate d
  | _ => Raise TypeError      (* grid_config['grid_type'] *)
  end.

End translator.

(** ** Credentials and the exchange configuration *)

(** What a path of the file system holds when the runner opens it:
    nothing, a file that [open] or [yaml.safe_load] fails on, or a
    document. *)
Inductive file :=
| Absent
| Unreadable (e : exn)
| Document (v : value).

(** [ExchangeConfig] of core.adapters.exchanges, by the keyword arguments
    the runner passes. [wallet_address] is [None] where the keyword is not
    passed. *)
Record ExchangeConfig := {
  exchange_id : string;
  name : string;
  exchange_type : ExchangeType;
  api_key : value;
  api_secret : value;
  wallet_address : option value;
  testnet : value;
  enable_websocket : bool;
  enable_auto_reconnect : bool
}.

(** The three credential variables of [create_exchange_adapter]. *)
Record credentials := {
  cred_api_key : value;
  cred_api_secret : value;
  cred_wallet_address : value
}.

(** [a or b], where evaluating [b] may raise. *)
Definition or_else (a : value) (b : result value) : result value :=
  if truthy a then Ok a else b.

Definition exchange_config_path (exchange_name : string) : string :=
  "config/exchanges/" ++ exchange_name ++ "_config.yaml".

Section bootstrap.
Context `{Runtime}.

(** The three [os.getenv] calls. *)
Definition env_credentials (environ : string -> option string)
    (exchange_name : string) : credentials :=
  {| cred_api_key := getenv environ (py_upper exchange_name ++ "_API_KEY");
     cred_api_secret := getenv environ (py_upper exchange_name ++ "_API_SECRET");
     cred_wallet_address :=
       getenv environ (py_upper exchange_name ++ "_WALLET_ADDRESS") |}.

(** The body of the [try] that completes the credentials from the
    per-exchange file: the variables when the block ends, and the
    exception that ended it, if any. *)
Definition complete_from_file (files : string -> file) (exchange_name : string)
    (c : credentials) : credentials * option exn :=
  match files (exchange_config_path exchange_name) with
  | Absent => (c, None)
  | Unreadable e => (c, Some e)
  | Document exchange_config_data =>
      match
        (section ← get exchange_config_data exchange_name (VDict ∅);
         get section "authentication" (VDict ∅))
      with
      | Raise e => (c, Some e)
      | Ok auth_config =>
          if String.eqb exchange_name "hyperliquid" then
            match or_else (cred_api_key c) (get auth_config "private_key" (VStr "")) with
            | Raise e => (c, Some e)
            | Ok k =>
                let c := {| cred_api_key := k; cred_api_secret := cred_api_secret c;
                            cred_wallet_address := cred_wallet_address c |} in
                match or_else (cred_api_secret c)
                        (get auth_config "private_key" (VStr "")) with
                | Raise e => (c, Some e)
                | Ok s =>
                    let c := {| cred_api_key := k; cred_api_secret := s;
                                cred_wallet_address := cred_wallet_address c |} in
                    match or_else (cred_wallet_address c)
                            (get auth_config "wallet_address" (VStr "")) with
                    | Raise e => (c, Some e)
                    | Ok w =>
                        ({| cred_api_key := k; cred_api_secret := s;
                            cred_wallet_address := w |}, None)
                    end
                end
            end
          else if String.eqb exchange_name "lighter" then
            match
              (api_config ← get exchange_config_data "api_config" (VDict ∅);
               get api_config "auth" (VDict ∅))
            with
            | Raise e => (c, Some e)
            | Ok auth_config =>
                match or_else (cred_api_key c)
                        (get auth_config "api_key_private_key" (VStr "")) with
                | Raise e => (c, Some e)
                | Ok k =>
                    let c := {| cred_api_key := k; cred_api_secret := cred_api_secret c;
                                cred_wallet_address := cred_wallet_address c |} in
                    match or_else (cred_api_secret c)
                            (get auth_config "api_key_private_key" (VStr "")) with
                    | Raise e => (c, Some e)
                    | Ok s =>
                        ({| cred_api_key := k; cred_api_secret := s;
                            cred_wallet_address := cred_wallet_address c |}, None)
                    end
                end
            end
          else
            match or_else (cred_api_key c) (get auth_config "api_key" (VStr "")) with
            | Raise e => (c, Some e)
            | Ok k =>
                let c := {| cred_api_key := k; cred_api_secret := cred_api_secret c;
                            cred_wallet_address := cred_wallet_address c |} in
                match
                  (a ← or_else (cred_api_secret c)
                         (get auth_config "private_key" (VStr ""));
                   or_else a (get auth_config "api_secret" (VStr "")))
                with
                | Raise e => (c, Some e)
                | Ok s =>
                    let c := {| cred_api_key := k; cred_api_secret := s;
                                cred_wallet_address := cred_wallet_address c |} in
                    match or_else (cred_wallet_address c)
                            (get auth_config "wallet_address" (VStr "")) with
                    | Raise e => (c, Some e)
                    | Ok w =>
                        ({| cred_api_key := k; cred_api_secret := s;
                            cred_wallet_address := w |}, None)
                    end
                end
            end
      end
  end.

(** Reading the API keys: the environment first, then the file when the
    key or the secret is still missing. The second component is the
    exception the [except Exception] clause caught and logged, if any; an
    exception it does not catch is raised. *)
Definition resolve_credentials (environ : string -> option string)
    (files : string -> file) (exchange_name : string)
    : result (credentials * option exn) :=
  let c := env_credentials environ exchange_name in
  if negb (truthy (cred_api_key c)) || negb (truthy (cred_api_secret c)) then
    match complete_from_file files exchange_name c with
    | (c', None) => Ok (c', None)
    | (c', Some e) => if is_Exception e then Ok (c', Some e) else Raise e
    end
  else Ok (c, None).

Definition lighter_exchange_config (market_type : ExchangeType) (testnet : value)
    : ExchangeConfig :=
  {| exchange_id := "lighter";
     name := "Lighter";
     exchange_type := market_type;
     api_key := VStr "";
     api_secret := VStr "";
     wallet_address := None;
     testnet := testnet;
     enable_websocket := true;
     enable_auto_reconnect := true |}.

(** Creating the exchange configuration. As above, the second component
    is the exception caught and logged on the way, if any. *)
Definition make_exchange_config (files : string -> file) (exchange_name : string)
    (market_type : ExchangeType) (c : credentials)
    : result (ExchangeConfig * option exn) :=
  if String.eqb exchange_name "lighter" then
    let attempt : result ExchangeConfig :=
      match files "config/exchanges/lighter_config.yaml" with
      | Absent => Ok (lighter_exchange_config market_type (VBool false))
      | Unreadable e => Raise e
      | Document lighter_config_data =>
          api_config ← get lighter_config_data "api_config" (VDict ∅);
          testnet ← get api_config "testnet" (VBool false);
          Ok (lighter_exchange_config market_type testnet)
      end in
    match attempt with
    | Ok cfg => Ok (cfg, None)
    | Raise e =>
        if is_Exception e
        then Ok (lighter_exchange_config market_type (VBool false), Some e)
        else Raise e
    end
  else
    Ok ({| exchange_id := exchange_name;
           name := py_capitalize exchange_name;
           exchange_type := market_type;
           api_key := py_or (cred_api_key c) (VStr "");
           api_secret := py_or (cred_api_secret c) (VStr "");
           wallet_address := Some (cred_wallet_address c);
           testnet := VBool false;
           enable_websocket := true;
           enable_auto_reconnect := true |}, None).

(** Everything [create_exchange_adapter] does before it calls the adapter
    factory: the configuration it hands over and the exceptions it caught
    and logged as warnings. *)
Definition prepare_exchange_config (environ : string -> option string)
    (files : string -> file) (config_data : value)
    : result (string * ExchangeConfig * list exn) :=
  grid_config ← getitem config_data "grid_system";
  exchange ← getitem grid_config "exchange";
  exchange ← as_str exchange;
  let exchange_name := py_lower exchange in
  symbol ← getitem grid_config "symbol";
  symbol ← as_str symbol;
  let market_type := detect_market_type symbol exchange_name in
  '(c, warned1) ← resolve_credentials environ files exchange_name;
  '(exchange_config, warned2) ← make_exchange_config files exchange_name market_type c;
  Ok (exchange_name, exchange_config, option_list warned1 ++ option_list warned2).

End bootstrap.

(** ** The runner: state, trace and effects *)

(** The attributes of a [DaemonGridRunner] the lifecycle depends on. *)
Record runner := {
  _running : bool;
  _shutdown_event : bool;                  (* asyncio.Event: is it set *)
  coordinator : option GridConfig;         (* the coordinator, by its config *)
  exchange_adapter : option ExchangeConfig;  (* the adapter, by its config *)
  reserve_monitor : bool                   (* is there a reserve monitor *)
}.

(** [DaemonGridRunner.__init__] *)
Definition init : runner :=
  {| _running := false; _shutdown_event := false; coordinator := None;
     exchange_adapter := None; reserve_monitor := false |}.

Inductive level := INFO | WARNING | ERROR.

(** What the runner does to its collaborators. Of the informational log
    lines the trace keeps two, the one of the signal handler and the one
    that opens the cleanup; warnings and errors are all kept. *)
Inductive call :=
| Log (lvl : level) (what : string)
| CreateAdapter (exchange_id : string) (config : ExchangeConfig)
| Connect
| Disconnect
| Build (class : string)
| CheckReserve
| CoordinatorStart
| CleanupOnExit
| CoordinatorStop
| MonitorStart
| MonitorStop
| StatsTaskCreate
| StatsTaskCancel
| StatsTaskAwait.

(** How a piece of the runner ends: normally, by an exception, or never
    (it waits for an event that is not set, or for a call that does not
    return). *)
Inductive reply (A : Type) :=
| Done (a : A)
| Raised (e : exn)
| Blocked.
Arguments Done {A} a.
Arguments Raised {A} e.
Arguments Blocked {A}.

Definition act (A : Type) : Type := runner -> reply A * runner * list call.

#[global] Instance act_ret : MRet act := fun A a st => (Done a, st, []).

#[global] Instance act_bind : MBind act := fun A B k m st =>
  match m st with
  | (Done a, st', t) => let '(r, st'', t') := k a st' in (r, st'', t ++ t')
  | (Raised e, st', t) => (Raised e, st', t)
  | (Blocked, st', t) => (Blocked, st', t)
  end.

Definition emit (c : call) : act unit := fun st => (Done tt, st, [c]).

Definition raise {A} (e : exn) : act A := fun st => (Raised e, st, []).

Definition block {A} : act A := fun st => (Blocked, st, []).

Definition lift {A} (r : result A) : act A :=
  match r with
  | Ok a => mret a
  | Raise e => raise e
  end.

Definition read : act runner := fun st => (Done st, st, []).

Definition modify (f : runner -> runner) : act unit := fun st => (Done tt, f st, []).

(** How a call on a collaborator ends: it returns a value, it raises, or
    it never returns. *)
Inductive outcome (A : Type) :=
| Returns (a : A)
| Raises (e : exn)
| Hangs.
Arguments Returns {A} a.
Arguments Raises {A} e.
Arguments Hangs {A}.

(** A call on a collaborator: it is recorded, then it ends as its outcome
    says. *)
Definition perform {A} (c : call) (o : outcome A) : act A :=
  emit c;;
  match o with
  | Returns a => mret a
  | Raises e => raise e
  | Hangs => block
  end.

(** [try: m  except Exception as e: handler(e)] *)
Definition try_except {A} (m : act A) (handler : exn -> act A) : act A := fun st =>
  match m st with
  | (Raised e, st', t) =>
      if is_Exception e
      then let '(r, st'', t') := handler e st' in (r, st'', t ++ t')
      else (Raised e, st', t)
  | other => other
  end.

(** [try: m  except asyncio.CancelledError: pass] *)
Definition swallow_cancelled (m : act unit) : act unit := fun st =>
  match m st with
  | (Raised CancelledError, st', t) => (Done tt, st', t)
  | other => other
  end.

(** [try: m  finally: fin] *)
Definition try_finally {A} (m : act A) (fin : act unit) : act A := fun st =>
  match m st with
  | (Blocked, st', t) => (Blocked, st', t)
  | (r, st', t) =>
      match fin st' with
      | (Done _, st'', t') => (r, st'', t ++ t')
      | (Raised e, st'', t') => (Raised e, st'', t ++ t')
      | (Blocked, st'', t') => (Blocked, st'', t ++ t')
      end
  end.

Definition set_running (b : bool) (st : runner) : runner :=
  {| _running := b; _shutdown_event := _shutdown_event st;
     coordinator := coordinator st; exchange_adapter := exchange_adapter st;
     reserve_monitor := reserve_monitor st |}.

Definition set_shutdown_event (st : runner) : runner :=
  {| _running := _running st; _shutdown_event := true;
     coordinator := coordinator st; exchange_adapter := exchange_adapter st;
     reserve_monitor := reserve_monitor st |}.

Definition set_coordinator (c : GridConfig) (st : runner) : runner :=
  {| _running := _running st; _shutdown_event := _shutdown_event st;
     coordinator := Some c; exchange_adapter := exchange_adapter st;
     reserve_monitor := reserve_monitor st |}.

Definition set_exchange_adapter (a : ExchangeConfig) (st : runner) : runner :=
  {| _running := _running st; _shutdown_event := _shutdown_event st;
     coordinator := coordinator st; exchange_adapter := Some a;
     reserve_monitor := reserve_monitor st |}.

Definition set_reserve_monitor (st : runner) : runner :=
  {| _running := _running st; _shutdown_event := _shutdown_event st;
     coordinator := coordinator st; exchange_adapter := exchange_adapter st;
     reserve_monitor := true |}.

(** The outcomes of everything outside the runner during one run. *)
Record world := {
  config_file : result value;          (* open(config_path) and yaml.safe_load *)
  environ : string -> option string;   (* os.getenv *)
  files : string -> file;              (* the per-exchange configuration files *)
  create_adapter_outcome : outcome unit;
  connect_outcome : outcome unit;
  build_outcome : string -> outcome unit;  (* the constructor of a class *)
  check_reserve_outcome : outcome bool;  (* check_spot_reserve_on_startup *)
  early_disconnect_outcome : outcome unit; (* disconnect() after a failed check *)
  coordinator_start_outcome : outcome unit;
  monitor_start_outcome : outcome unit;
  signals_early : list Z;     (* signals delivered during the startup *)
  signals_waiting : list Z;   (* signals delivered while run() waits *)
  signals_late : list Z;      (* signals delivered once run() has resumed *)
  stats_await_outcome : outcome unit;  (* awaiting the cancelled task *)
  cleanup_on_exit_outcome : outcome unit;
  coordinator_stop_outcome : outcome unit;
  monitor_stop_outcome : outcome unit;
  disconnect_outcome : outcome unit    (* disconnect() in cleanup() *)
}.

(** ** Signal handler *)

(** [asyncio.Event.set()] makes the event set, whatever it was. *)
Definition handle_signal (signum : Z) : act unit :=
  emit (Log INFO "signal");;
  modify set_shutdown_event.

(** The deliveries of a list of signals, in order. *)
Fixpoint deliver (signums : list Z) : act unit :=
  match signums with
  | [] => mret tt
  | signum :: rest => handle_signal signum;; deliver rest
  end.

(** [await self._shutdown_event.wait()] *)
Definition wait_shutdown_event : act unit :=
  st ← read;
  if _shutdown_event st then mret tt else block.

(** ** Cleanup *)

Definition cleanup (w : world) : act unit :=
  emit (Log INFO "cleanup");;
  modify (set_running false);;
  try_except
    (st ← read;
     (if bool_decide (is_Some (coordinator st)) then
        try_except
          (perform CleanupOnExit (cleanup_on_exit_outcome w))
          (fun e => emit (Log ERROR "cleanup_on_exit failed"));;
        perform CoordinatorStop (coordinator_stop_outcome w)
      else mret tt);;
     (if reserve_monitor st then perform MonitorStop (monitor_stop_outcome w)
      else mret tt);;
     (if bool_decide (is_Some (exchange_adapter st))
      then perform Disconnect (disconnect_outcome w)
      else mret tt))
    (fun e => emit (Log ERROR "cleanup failed")).

(** ** Startup and run *)

(** An attribute of the grid configuration that holds a plain value. *)
Definition attribute (cfg : GridConfig) (k : string) : result value :=
  match params cfg !! k with
  | Some (PRaw v) => Ok v
  | _ => Raise AttributeError
  end.

(** [grid_config.grid_type] *)
Definition grid_type_of (cfg : GridConfig) : result GridType :=
  match params cfg !! "grid_type" with
  | Some (PGridType g) => Ok g
  | _ => Raise AttributeError
  end.

(** [getattr(grid_config, 'spot_reserve', None)]: the keyword argument
    when the translator passed one. *)
Definition spot_reserve_of (cfg : GridConfig) : value :=
  match params cfg !! "spot_reserve" with
  | Some (PRaw v) => v
  | _ => VNone
  end.

Definition short_grid_values : list string :=
  ["short"; "martingale_short"; "follow_short"].

(** [spot_reserve_config and spot_reserve_config.get('enabled', False)],
    as a condition. *)
Definition reserve_enabled (spot_reserve_config : value) : result bool :=
  if truthy spot_reserve_config then
    v ← get spot_reserve_config "enabled" (VBool false); Ok (truthy v)
  else Ok false.

Section daemon.
Context `{Runtime}.

(** The short-on-spot check of [run]: [is_spot] as the runner computes
    it. *)
Definition is_spot_symbol (exchange_name : string) (symbol : value) : result bool :=
  if String.eqb exchange_name "hyperliquid" then
    s ← as_str symbol; Ok (PyStr.contains ":SPOT" (py_upper s))
  else if String.eqb exchange_name "backpack" then
    s ← as_str symbol;
    Ok (PyStr.contains "_SPOT" (py_upper s) || PyStr.contains "SPOT" (py_upper s))
  else Ok false.

(** [load_config]: a failure is logged and raised again. *)
Definition load_config (w : world) : act value :=
  try_except (lift (config_file w))
    (fun e => emit (Log ERROR "load config failed");; raise e).

Definition create_exchange_adapter (w : world) (config_data : value)
    : act ExchangeConfig :=
  '(exchange_name, exchange_config, warned) ←
     lift (prepare_exchange_config (environ w) (files w) config_data);
  mapM (fun _ : exn => emit (Log WARNING "exchange config file")) warned;;
  perform (CreateAdapter exchange_name exchange_config) (create_adapter_outcome w);;
  perform Connect (connect_outcome w);;
  mret exchange_config.

(** The [try] block of [run]. *)
Definition startup (w : world) : act unit :=
  deliver (signals_early w);;
  (* 1. configuration *)
  config_data ← load_config w;
  grid_config ← lift (create_grid_config config_data);
  symbol ← lift (attribute grid_config "symbol");
  exchange ← lift (e ← attribute grid_config "exchange"; as_str e);
  let exchange_name := py_lower exchange in
  is_spot ← lift (is_spot_symbol exchange_name symbol);
  grid_type ← lift (grid_type_of grid_config);
  (if is_spot && PyStr.mem (GridType_value grid_type) short_grid_values then
     emit (Log ERROR "short grid on spot market");;
     raise (SystemExit 1)
   else mret tt);;
  (* 2. exchange adapter *)
  adapter ← create_exchange_adapter w config_data;
  modify (set_exchange_adapter adapter);;
  (* 3. core components *)
  perform (Build "GridStrategyImpl") (build_outcome w "GridStrategyImpl");;
  perform (Build "GridEngineImpl") (build_outcome w "GridEngineImpl");;
  perform (Build "GridState") (build_outcome w "GridState");;
  perform (Build "PositionTrackerImpl") (build_outcome w "PositionTrackerImpl");;
  reserve ←
    (if ExchangeType_eqb (exchange_type adapter) SPOT then
       enabled ← lift (reserve_enabled (spot_reserve_of grid_config));
       if enabled : bool then
         perform (Build "SpotReserveManager") (build_outcome w "SpotReserveManager");;
         perform (Build "ReserveMonitor") (build_outcome w "ReserveMonitor");;
         modify set_reserve_monitor;;
         mret true
       else mret false
     else mret false);
  (* 4. coordinator *)
  perform (Build "GridCoordinator") (build_outcome w "GridCoordinator");;
  modify (set_coordinator grid_config);;
  (* the check before the start *)
  (if reserve : bool then
     ok ← perform CheckReserve (check_reserve_outcome w);
     if ok : bool then mret tt
     else
       emit (Log ERROR "startup check failed");;
       perform Disconnect (early_disconnect_outcome w);;
       raise (SystemExit 1)
   else mret tt);;
  (* 5. start *)
  perform CoordinatorStart (coordinator_start_outcome w);;
  (if reserve : bool then perform MonitorStart (monitor_start_outcome w) else mret tt);;
  (* 6. statistics task *)
  modify (set_running true);;
  emit StatsTaskCreate;;
  (* wait for the shutdown event *)
  deliver (signals_waiting w);;
  wait_shutdown_event;;
  deliver (signals_late w);;
  emit StatsTaskCancel;;
  swallow_cancelled (perform StatsTaskAwait (stats_await_outcome w)).

Definition run (w : world) : act unit :=
  try_finally
    (try_except (startup w)
       (fun e => emit (Log ERROR "system error");; raise e))
    (cleanup w).

End daemon.

(** The trace and the end of a whole run of a fresh runner. *)
Definition trace_of {A} (r : reply A * runner * list call) : list call := r.2.

Definition reply_of {A} (r : reply A * runner * list call) : reply A := r.1.1.

Definition state_of {A} (r : reply A * runner * list call) : runner := r.1.2.

(** ** Statistics loop *)

Inductive stats_event :=
| Sleep              (* await asyncio.sleep(self.stats_interval) *)
| GetStatistics      (* self.coordinator.get_statistics() *)
| Report             (* the lines of the report *)
| LogFailure (e : exn).

(** What surrounds one pass through the body of the loop. The flags are
    attributes of the runner, which the other tasks set. *)
Record cycle := {
  sleep_outcome : option exn;
  coordinator_set : bool;       (* self.coordinator, after the sleep *)
  statistics_outcome : option exn;  (* get_statistics() *)
  report_outcome : option exn;  (* reading the grid state and formatting *)
  running_next : bool           (* self._running at the next test *)
}.

Inductive stats_end :=
| Returned                  (* the loop condition was false *)
| Propagated (e : exn)      (* an exception left the task *)
| Suspended.                (* the task waits in its sleep *)

(** [except Exception as e: self.logger.error(...)] around the events so
    far. *)
Definition guarded (evs : list stats_event) (e : exn)
    : list stats_event * option exn :=
  if is_Exception e then (evs ++ [LogFailure e], None) else (evs, Some e).

(** One pass through the [try] of the loop: its events and the exception
    that [except Exception] did not catch, if any. *)
Definition cycle_body (c : cycle) : list stats_event * option exn :=
  match sleep_outcome c with
  | Some e => guarded [Sleep] e
  | None =>
      if negb (coordinator_set c) then ([Sleep], None)
      else
        match statistics_outcome c with
        | Some e => guarded [Sleep; GetStatistics] e
        | None =>
            match report_outcome c with
            | Some e => guarded [Sleep; GetStatistics] e
            | None => ([Sleep; GetStatistics; Report], None)
            end
        end
  end.

Fixpoint print_statistics (running : bool) (cycles : list cycle)
    : list stats_event * stats_end :=
  if running then
    match cycles with
    | [] => ([], Suspended)
    | c :: rest =>
        match cycle_body c with
        | (evs, Some e) => (evs, Propagated e)
        | (evs, None) =>
            let '(evs', r) := print_statistics (running_next c) rest in
            (evs ++ evs', r)
        end
    end
  else ([], Returned).

(** ** A runtime for plain scalars

    [str], [int] and [Decimal] on None, booleans, integers and strings,
    used to run the embedding on concrete documents. On these values
    [py_str] and [py_int] are Python's, up to the blanks and underscores
    Python tolerates in a numeral. Every literal [Decimal] accepts here,
    Python accepts with the same value; Python also accepts exponents,
    infinities and NaNs, which are rejected here. Floats and containers
    are not covered: they print as the empty text and have no integer. *)

Module Scalars.

Definition digit (c : ascii) : option N :=
  if (Ascii.leb "0" c && Ascii.leb c "9")%char
  then Some (N_of_ascii c - 48)%N else None.

(** The number a run of digits denotes, after [acc]. *)
Fixpoint digits (s : string) (acc : N) : option N :=
  match s with
  | EmptyString => Some acc
  | String c t => d ← digit c; digits t (10 * acc + d)%N
  end.

(** A leading sign and the rest. *)
Definition signed (s : string) : bool * string :=
  match s with
  | String "-" t => (true, t)
  | String "+" t => (false, t)
  | _ => (false, s)
  end.

(** The text before the first point, and the text after it if there is
    a point. *)
Fixpoint split_point (s : string) : string * option string :=
  match s with
  | EmptyString => (EmptyString, None)
  | String "." t => (EmptyString, Some t)
  | String c t => let '(a, b) := split_point t in (String c a, b)
  end.

Definition parse_decimal (s : string) : result decimal :=
  let '(neg, body) := signed s in
  let '(int_part, frac) := split_point body in
  let frac_part := default EmptyString frac in
  if Nat.eqb (String.length int_part + String.length frac_part) 0
  then Raise InvalidOperation
  else
    match digits (int_part ++ frac_part) 0 with
    | Some n => Ok (DFinite neg n (- Z.of_nat (String.length frac_part)))
    | None => Raise InvalidOperation
    end.

Definition parse_int (s : string) : result Z :=
  let '(neg, body) := signed s in
  match body with
  | EmptyString => Raise ValueError
  | _ =>
      match digits body 0 with
      | Some n => Ok (if neg then - Z.of_N n else Z.of_N n)%Z
      | None => Raise ValueError
      end
  end.

Definition str (v : value) : string :=
  match v with
  | VNone => "None"
  | VBool true => "True"
  | VBool false => "False"
  | VInt z => pretty z
  | VStr s => s
  | VFloat _ | VList _ | VDict _ => ""
  end.

Definition int (v : value) : result Z :=
  match v with
  | VInt z => Ok z
  | VBool b => Ok (if b then 1 else 0)%Z
  | VStr s => parse_int s
  | VFloat _ => Raise ValueError
  | VNone | VList _ | VDict _ => Raise TypeError
  end.

(** The case mappings are the ASCII ones: Python's on ASCII text. *)
Definition runtime : Runtime :=
  {| py_str := str; py_int := int; py_Decimal := parse_decimal;
     py_upper := PyStr.upper; py_lower := PyStr.lower;
     py_capitalize := PyStr.capitalize;
     py_upper_ascii := fun _ _ => eq_refl;
     py_lower_ascii := fun _ _ => eq_refl |}.

End Scalars.

(** ** Sample documents, worlds and states *)

Module Samples.

Definition price_range : value :=
  VDict (<["lower_price" := VInt 100]> (<["upper_price" := VInt 200]> ∅)).

(** A grid on [exchange] and [symbol] with a price range. *)
Definition grid_system (exchange symbol grid_type : string) : gmap string value :=
  <["exchange" := VStr exchange]>
  (<["symbol" := VStr symbol]>
  (<["grid_type" := VStr grid_type]>
  (<["grid_interval" := VInt 10]>
  (<["order_amount" := VInt 1]>
  (<["price_range" := price_range]> ∅))))).

(** A follow grid: a grid count and no price range. *)
Definition follow_grid_system (exchange symbol grid_type : string)
    : gmap string value :=
  <["follow_grid_count" := VInt 20]>
  (delete "price_range" (grid_system exchange symbol grid_type)).


Definition document (grid : gmap string value) : value :=
  VDict (<["grid_system" := VDict grid]> ∅).

(** A spot grid with the reserve management enabled. *)
Definition spot_reserve_grid : gmap string value :=
  <["spot_reserve" := VDict (<["enabled" := VBool true]> ∅)]>
  (grid_system "hyperliquid" "BTC/USDC:SPOT" "long").

(** The world in which [config_data] is the configuration, the reserve
    check answers [check], [coordinator.stop()] ends as [stop] says and
    the signals [signums] arrive while the runner waits. Nothing else
    fails, the environment is empty and no per-exchange file exists. *)
Definition world_of (config_data : value) (check : bool) (stop : outcome unit)
    (signums : list Z) : world :=
  {| config_file := Ok config_data;
     environ := fun _ => None;
     files := fun _ => Absent;
     create_adapter_outcome := Returns tt;
     connect_outcome := Returns tt;
     build_outcome := fun _ => Returns tt;
     check_reserve_outcome := Returns check;
     early_disconnect_outcome := Returns tt;
     coordinator_start_outcome := Returns tt;
     monitor_start_outcome := Returns tt;
     signals_early := [];
     signals_waiting := signums;
     signals_late := [];
     stats_await_outcome := Raises CancelledError;
     cleanup_on_exit_outcome := Returns tt;
     coordinator_stop_outcome := stop;
     monitor_stop_outcome := Returns tt;
     disconnect_outcome := Returns tt |}.

(** One SIGTERM, and nothing fails. *)
Definition calm : world :=
  world_of (document (grid_system "lighter" "BTC" "long")) true (Returns tt) [15%Z].

(** A runner whose coordinator, reserve monitor and exchange adapter all
    exist. *)
Definition started : runner :=
  {| _running := true; _shutdown_event := true;
     coordinator := Some {| params := ∅ |};
     exchange_adapter := Some (lighter_exchange_config PERPETUAL (VBool false));
     reserve_monitor := true |}.

(** The key and the secret are in the environment, the wallet address is
    only in the file. *)
Definition hyperliquid_environ (name : string) : option string :=
  if String.eqb name "HYPERLIQUID_API_KEY" then Some "key"
  else if String.eqb name "HYPERLIQUID_API_SECRET" then Some "secret"
  else None.

Definition hyperliquid_authentication : gmap string value :=
  <["private_key" := VStr "file-key"]> (<["wallet_address" := VStr "0xabc"]> ∅).

Definition hyperliquid_files (path : string) : file :=
  if String.eqb path "config/exchanges/hyperliquid_config.yaml" then
    Document (VDict (<["hyperliquid" :=
      VDict (<["authentication" := VDict hyperliquid_authentication]> ∅)]> ∅))
  else Absent.

(** A lighter file with credentials and the testnet flag. *)
Definition lighter_files (path : string) : file :=
  if String.eqb path "config/exchanges/lighter_config.yaml" then
    Document (VDict (<["api_config" :=
      VDict (<["testnet" := VBool true]>
            (<["auth" := VDict (<["api_key_private_key" := VStr "0xsecret"]> ∅)]> ∅))]> ∅))
  else Absent.

Definition lighter_environ (name : string) : option string :=
  if String.eqb name "LIGHTER_API_KEY" then Some "env-key" else None.

(** A cycle of the statistics loop in which [get_statistics] fails. *)
Definition failing_cycle : cycle :=
  {| sleep_outcome := None; coordinator_set := true;
     statistics_outcome := Some (CollaboratorError "get_statistics");
     report_outcome := None; running_next := true |}.

Definition good_cycle (running_next : bool) : cycle :=
  {| sleep_outcome := None; coordinator_set := true;
     statistics_outcome := None; report_outcome := None;
     running_next := running_next |}.

Definition early_cycle : cycle :=
  {| sleep_outcome := None; coordinator_set := false;
     statistics_outcome := None; report_outcome := None;
     running_next := true |}.

End Samples.

(** ** The properties the specification words *)

Section required.
Context `{Runtime}.


(** What the translator does for the required fields, for the parameters
    [cfg] made from the mapping [grid_config]: a follow grid carries the
    entry the document has under "follow_grid_count", as it is; any other
    grid carries both ends of the price range, as the decimals their texts
    denote. *)
Definition carried_fields (grid_config : gmap string value) (g : GridType)
    (cfg : GridConfig) : Prop :=
  if is_follow g then
    exists n,
      grid_config !! "follow_grid_count" = Some n /\
      params cfg !! "follow_grid_count" = Some (PRaw n)
  else
    exists price_range lo hi dlo dhi,
      grid_config !! "price_range" = Some price_range /\
      getitem price_range "lower_price" = Ok lo /\
      getitem price_range "upper_price" = Ok hi /\
      py_Decimal (py_str lo) = Ok dlo /\
      py_Decimal (py_str hi) = Ok dhi /\
      params cfg !! "lower_price" = Some (PDecimal dlo) /\
      params cfg !! "upper_price" = Some (PDecimal dhi).



End required.

(** The precedence the specification words for one credential field: the
    environment variable when set, else the value of the file's
    authentication block when present, else empty. *)
Definition per_field_precedence (from_env : option string)
    (from_file : option value) : value :=
  match from_env, from_file with
  | Some s, _ => VStr s
  | None, Some v => v
  | None, None => VStr ""
  end.

(** The line that opens a cleanup sequence. *)
Definition is_cleanup_start (c : call) : bool :=
  match c with
  | Log INFO what => String.eqb what "cleanup"
  | _ => false
  end.

Definition is_disconnect (c : call) : bool :=
  match c with
  | Disconnect => true
  | _ => false
  end.

Definition is_connect (c : call) : bool :=
  match c with
  | Connect => true
  | _ => false
  end.

(** How many calls of a trace satisfy [p]. *)
Definition count (p : call -> bool) (t : list call) : nat :=
  length (filter (fun c => p c = true) t).

(** Every call of [m], from every state, satisfies [P]. *)
Definition emits_only {A} (P : call -> Prop) (m : act A) : Prop :=
  forall st, Forall P (trace_of (m st)).

(** Does a result hold a value. *)
Definition succeeds {A} (r : result A) : bool :=
  match r with
  | Ok _ => true
  | Raise _ => false
  end.

(** *** The precedence of the credentials, as the runner applies it *)

Inductive field := API_KEY | API_SECRET | WALLET_ADDRESS.

(** The keys of the authentication block that complete a field, in the
    order they are tried, for each venue. *)
Definition file_keys (exchange_name : string) (f : field) : list string :=
  if String.eqb exchange_name "hyperliquid" then
    match f with
    | API_KEY | API_SECRET => ["private_key"]
    | WALLET_ADDRESS => ["wallet_address"]
    end
  else if String.eqb exchange_name "lighter" then
    match f with
    | API_KEY | API_SECRET => ["api_key_private_key"]
    | WALLET_ADDRESS => []
    end
  else
    match f with
    | API_KEY => ["api_key"]
    | API_SECRET => ["private_key"; "api_secret"]
    | WALLET_ADDRESS => ["wallet_address"]
    end.

(** The value a block gives under [keys]: the first one that is truthy,
    the empty text standing for a key the block lacks; nothing when no
    key is tried. *)
Definition from_file (auth : gmap string value) (keys : list string) : option value :=
  match keys with
  | [] => None
  | k :: rest =>
      Some (fold_left (fun acc k' => py_or acc (default (VStr "") (auth !! k')))
              rest (default (VStr "") (auth !! k)))
  end.

(** The authentication block of the per-exchange file, when the file
    exists, loads, and holds mappings where the runner looks for them. *)
Definition authentication_block (files : string -> file) (exchange_name : string)
    : option (gmap string value) :=
  match files (exchange_config_path exchange_name) with
  | Document doc =>
      match
        (section ← get doc exchange_name (VDict ∅);
         auth ← get section "authentication" (VDict ∅);
         if String.eqb exchange_name "hyperliquid" then Ok auth
         else if String.eqb exchange_name "lighter" then
           api_config ← get doc "api_config" (VDict ∅);
           get api_config "auth" (VDict ∅)
         else Ok auth)
      with
      | Ok (VDict auth) => Some auth
      | _ => None
      end
  | _ => None
  end.

(** One field: the environment's value when it is set and not empty,
    else the file's value when there is one, else what the environment
    gave (nothing, or the empty text). *)
Definition complete (from_env : value) (from_file : option value) : value :=
  if truthy from_env then from_env else default from_env from_file.

Section amended.
Context `{Runtime}.

(** The credentials by the amended rule: the file is read only when the
    key or the secret is missing from the environment, and then completes
    every field the environment lacks. *)
Definition amended_credentials (environ : string -> option string)
    (files : string -> file) (exchange_name : string) : credentials :=
  let env := env_credentials environ exchange_name in
  if truthy (cred_api_key env) && truthy (cred_api_secret env) then env
  else
    match authentication_block files exchange_name with
    | None => env
    | Some auth =>
        {| cred_api_key :=
             complete (cred_api_key env) (from_file auth (file_keys exchange_name API_KEY));
           cred_api_secret :=
             complete (cred_api_secret env)
               (from_file auth (file_keys exchange_name API_SECRET));
           cred_wallet_address :=
             complete (cred_wallet_address env)
               (from_file auth (file_keys exchange_name WALLET_ADDRESS)) |}
    end.

End amended.

(** A call that creates the adapter of "lighter" hands over no key and
    no secret. *)
Definition lighter_without_credentials (c : call) : Prop :=
  match c with
  | CreateAdapter exchange_id cfg =>
      exchange_id = "lighter" -> api_key cfg = VStr "" /\ api_secret cfg = VStr ""
  | _ => True
  end.

(** A call other than the line that opens a cleanup. *)
Definition not_cleanup_start (c : call) : Prop := is_cleanup_start c = false.

(** ** The process: [main] and the module's entry point *)

Section process.
Context `{Runtime}.

(** [main]: without the configuration file the process exits with
    status 1 before a runner exists; otherwise a fresh runner runs. The
    signal handlers that [main] registers are the deliveries of the
    [world]. *)
Definition main (config_exists : bool) (w : world) : act unit :=
  if config_exists then run w else raise (SystemExit 1).

End process.

(** The exit status the entry point gives a finished [main]: 0 after a
    return and after a KeyboardInterrupt (which the entry point only
    reports), the code of a SystemExit, and 1 after any other exception
    (an [Exception] is reported and turned into [sys.exit(1)]; anything
    else is uncaught). A blocked runner has not exited. *)
Definition exit_status (r : reply unit) : option Z :=
  match r with
  | Done _ => Some 0%Z
  | Raised KeyboardInterrupt => Some 0%Z
  | Raised (SystemExit code) => Some code
  | Raised _ => Some 1%Z
  | Blocked => None
  end.

(** ** Predicates on calls and states *)

Definition is_log (c : call) : Prop :=
  match c with
  | Log _ _ => True
  | _ => False
  end.

(** The calls the runner may make before it builds its components. *)
Definition connection_call (c : call) : Prop :=
  match c with
  | Log _ _ | CreateAdapter _ _ | Connect => True
  | _ => False
  end.

(** A call that is not part of the reserve management. *)
Definition not_reserve_call (c : call) : Prop :=
  match c with
  | CheckReserve | MonitorStart | MonitorStop => False
  | Build class => class <> "SpotReserveManager" /\ class <> "ReserveMonitor"
  | _ => True
  end.

(** A call the cleanup makes. *)
Definition teardown_call (c : call) : Prop :=
  match c with
  | Log _ _ | CleanupOnExit | CoordinatorStop | MonitorStop | Disconnect => True
  | _ => False
  end.

(** A call that stops nothing and does not open the cleanup. *)
Definition not_stopping_call (c : call) : Prop :=
  match c with
  | CleanupOnExit | CoordinatorStop | MonitorStop => False
  | c => is_cleanup_start c = false
  end.

(** A runner that holds no coordinator, no adapter and no monitor. *)
Definition nothing_built (st : runner) : Prop :=
  coordinator st = None /\ exchange_adapter st = None /\ reserve_monitor st = false.

(** [m], started in a state that satisfies [I], ends in one that does,
    makes only calls that satisfy [P], and returns only values that
    satisfy [R]. *)
Definition keeps {A} (I : runner -> Prop) (P : call -> Prop) (R : A -> Prop)
    (m : act A) : Prop :=
  forall st, I st ->
    I (state_of (m st)) /\ Forall P (trace_of (m st)) /\
    forall a, reply_of (m st) = Done a -> R a.

(** A runner without a reserve monitor. *)
Definition no_monitor (st : runner) : Prop := reserve_monitor st = false.

(** A runner whose shutdown event is not set. *)
Definition not_signalled (st : runner) : Prop := _shutdown_event st = false.

(** Any call at all. *)
Definition any_call (c : call) : Prop := True.

(** The collaborators of a run on a perpetual market all succeed, and
    the cancelled statistics task ends by its cancellation. *)
Definition collaborators_succeed (w : world) : Prop :=
  create_adapter_outcome w = Returns tt /\
  connect_outcome w = Returns tt /\
  (forall class, build_outcome w class = Returns tt) /\
  coordinator_start_outcome w = Returns tt /\
  stats_await_outcome w = Raises CancelledError /\
  cleanup_on_exit_outcome w = Returns tt /\
  coordinator_stop_outcome w = Returns tt /\
  disconnect_outcome w = Returns tt.

(** No call on a collaborator hangs: each one returns or raises. *)
Definition never_hangs (w : world) : Prop :=
  create_adapter_outcome w <> Hangs /\
  connect_outcome w <> Hangs /\
  (forall class, build_outcome w class <> Hangs) /\
  check_reserve_outcome w <> Hangs /\
  early_disconnect_outcome w <> Hangs /\
  coordinator_start_outcome w <> Hangs /\
  monitor_start_outcome w <> Hangs /\
  stats_await_outcome w <> Hangs /\
  cleanup_on_exit_outcome w <> Hangs /\
  coordinator_stop_outcome w <> Hangs /\
  monitor_stop_outcome w <> Hangs /\
  disconnect_outcome w <> Hangs.

(** [m], started in a state that satisfies [I], comes to an end (it
    returns or raises), and when it returns its state satisfies [J]. *)
Definition ends {A} (I J : runner -> Prop) (m : act A) : Prop :=
  forall st, I st ->
    reply_of (m st) <> Blocked /\
    forall a, reply_of (m st) = Done a -> J (state_of (m st)).

(** A runner whose shutdown event is set. *)
Definition signalled (st : runner) : Prop := _shutdown_event st = true.

(** Any runner. *)
Definition any_runner (st : runner) : Prop := True.

(** * Properties *)

(** ** Market-type resolver *)

Section resolver_claims.
Context `{Runtime}.

Lemma detect_market_type_lighter symbol exchange_name :
  py_lower exchange_name = "lighter" ->
  detect_market_type symbol exchange_name = PERPETUAL.
Proof. intros E. unfold detect_market_type. rewrite E. reflexivity. Qed.

Lemma detect_market_type_other symbol exchange_name :
  py_lower exchange_name <> "hyperliquid" ->
  py_lower exchange_name <> "backpack" ->
  detect_market_type symbol exchange_name = PERPETUAL.
Proof.
  intros Hh Hb. unfold detect_market_type.
  destruct (String.eqb_spec (py_lower exchange_name) "hyperliquid"); [done|].
  destruct (String.eqb_spec (py_lower exchange_name) "backpack"); [done|].
  by destruct (String.eqb _ "lighter").
Qed.

Lemma detect_market_type_hyperliquid_untagged symbol exchange_name :
  py_lower exchange_name = "hyperliquid" ->
  PyStr.contains ":USDC" (py_upper symbol) = false ->
  PyStr.contains ":PERP" (py_upper symbol) = false ->
  PyStr.contains ":SPOT" (py_upper symbol) = false ->
  detect_market_type symbol exchange_name = SPOT.
Proof.
  intros E H1 H2 H3. unfold detect_market_type. rewrite E, H1, H2, H3. reflexivity.
Qed.

(** On ASCII text every runtime folds as the ASCII mappings do, so the
    resolver is the one of [PyStr.upper] and [PyStr.lower]. *)
Lemma detect_market_type_ascii symbol exchange_name :
  PyStr.is_ascii symbol = true ->
  PyStr.is_ascii exchange_name = true ->
  detect_market_type symbol exchange_name =
    @detect_market_type Scalars.runtime symbol exchange_name.
Proof.
  intros Hs He. unfold detect_market_type.
  rewrite (py_upper_ascii symbol Hs), (py_lower_ascii exchange_name He).
  reflexivity.
Qed.

(** C3: the resolver is a total function of the symbol and the exchange
    name (it returns SPOT or PERPETUAL on every input, and equal inputs
    give equal results); it gives PERPETUAL on ("BTC:USDC", "hyperliquid"),
    SPOT on ("BTC:SPOT", "hyperliquid"), PERPETUAL on ("SOL_PERP",
    "backpack") and PERPETUAL on every symbol of "lighter"; a hyperliquid
    symbol whose upper-case form has none of the tags resolves to SPOT,
    and a venue whose lower-case name is none of the three known ones
    resolves to PERPETUAL. The case mappings are those of the runtime,
    whatever they do outside ASCII. *)
Theorem detect_market_type_table :
  (forall symbol exchange_name,
     detect_market_type symbol exchange_name = SPOT \/
     detect_market_type symbol exchange_name = PERPETUAL) /\
  (forall s1 e1 s2 e2, s1 = s2 -> e1 = e2 ->
     detect_market_type s1 e1 = detect_market_type s2 e2) /\
  detect_market_type "BTC:USDC" "hyperliquid" = PERPETUAL /\
  detect_market_type "BTC:SPOT" "hyperliquid" = SPOT /\
  detect_market_type "SOL_PERP" "backpack" = PERPETUAL /\
  (forall symbol, detect_market_type symbol "lighter" = PERPETUAL) /\
  (forall symbol exchange_name,
     py_lower exchange_name = "hyperliquid" ->
     PyStr.contains ":USDC" (py_upper symbol) = false ->
     PyStr.contains ":PERP" (py_upper symbol) = false ->
     PyStr.contains ":SPOT" (py_upper symbol) = false ->
     detect_market_type symbol exchange_name = SPOT) /\
  (forall symbol,
     PyStr.contains ":USDC" (py_upper symbol) = false ->
     PyStr.contains ":PERP" (py_upper symbol) = false ->
     PyStr.contains ":SPOT" (py_upper symbol) = false ->
     detect_market_type symbol "hyperliquid" = SPOT) /\
  (forall symbol exchange_name,
     py_lower exchange_name <> "hyperliquid" ->
     py_lower exchange_name <> "backpack" ->
     py_lower exchange_name <> "lighter" ->
     detect_market_type symbol exchange_name = PERPETUAL).
Proof.
  split; [|split; [|repeat split]].
  - intros s e. destruct (detect_market_type s e); auto.
  - by intros s1 e1 s2 e2 -> ->.
  - by rewrite detect_market_type_ascii.
  - by rewrite detect_market_type_ascii.
  - by rewrite detect_market_type_ascii.
  - intros s. apply detect_market_type_lighter. by rewrite py_lower_ascii.
  - intros s e. by apply detect_market_type_hyperliquid_untagged.
  - intros s. apply detect_market_type_hyperliquid_untagged.
    by rewrite py_lower_ascii.
  - intros s e Hh Hb _. by apply detect_market_type_other.
Qed.

End resolver_claims.

Lemma detect_market_type_table_witness :
  @detect_market_type Scalars.runtime "ETH/USDC" "Hyperliquid" = SPOT /\
  @detect_market_type Scalars.runtime "ETH-USD" "Binance" = PERPETUAL.
Proof.
  pose proof (@detect_market_type_table Scalars.runtime)
    as (_ & _ & _ & _ & _ & _ & Hh & _ & Ho).
  split.
  - apply Hh; reflexivity.
  - apply Ho; discriminate.
Defined.

(** ** Results *)

Lemma bind_Ok {A B} (r : result A) (k : A -> result B) (b : B) :
  r ≫= k = Ok b <-> exists a, r = Ok a /\ k a = Ok b.
Proof.
  destruct r as [a|e]; simpl; split.
  - intros E. by exists a.
  - by intros (a' & [= <-] & E).
  - discriminate.
  - by intros (a' & [=] & _).
Qed.

Lemma bind_ext {A B} (r : result A) (k1 k2 : A -> result B) :
  (forall a, k1 a = k2 a) -> r ≫= k1 = r ≫= k2.
Proof. intros E. destruct r; simpl; [apply E|done]. Qed.

Tactic Notation "inv_bind" hyp(H) "as" ident(a) ident(E) :=
  apply bind_Ok in H; destruct H as (a & E & H).

Tactic Notation "inv_bind" hyp(H) :=
  let a := fresh "a" in
  let E := fresh "E" in
  apply bind_Ok in H; destruct H as (a & E & H).

(** ** Configuration translator *)

Lemma GridType_of_Ok v g : GridType_of v = Ok g -> v = VStr (GridType_value g).
Proof.
  destruct v as [| | | |s| |]; try discriminate.
  unfold GridType_of.
  destruct (List.find _ GridType_members) as [g'|] eqn:F; [|discriminate].
  intros [= ->]. apply find_some in F as [_ F].
  apply String.eqb_eq in F. by rewrite F.
Qed.


Section translator_facts.
Context `{Runtime}.

Lemma to_decimal_Ok v p :
  to_decimal v = Ok p -> exists d, py_Decimal (py_str v) = Ok d /\ p = PDecimal d.
Proof.
  unfold to_decimal. intros E. inv_bind E. injection E as <-. eauto.
Qed.

(** The optional fields leave every other parameter as it was. *)
Lemma copy_optional_lookup fields (grid_config : gmap string value)
    (ps ps' : gmap string param) (k : string) :
  k ∉ fields.*1 ->
  copy_optional fields grid_config ps = Ok ps' ->
  ps' !! k = ps !! k.
Proof.
  revert ps. induction fields as [|[k' c] rest IH]; intros ps Hk E; simpl in *.
  - by injection E as <-.
  - apply not_elem_of_cons in Hk as [Hne Hk].
    destruct (grid_config !! k') as [v|].
    + inv_bind E. rewrite (IH _ Hk E). by rewrite lookup_insert_ne.
    + by apply IH.
Qed.

(** The optional fields read the document at their own keys only. *)
Lemma copy_optional_ext fields (d1 d2 : gmap string value) (ps : gmap string param) :
  (forall k, k ∈ fields.*1 -> d1 !! k = d2 !! k) ->
  copy_optional fields d1 ps = copy_optional fields d2 ps.
Proof.
  revert ps. induction fields as [|[k c] rest IH]; intros ps Hext; simpl; [done|].
  rewrite <- (Hext k) by (simpl; left).
  destruct (d1 !! k) as [v|].
  - destruct (convert c v) as [p|e]; simpl; [|done].
    apply IH. intros k' Hk'. apply Hext. simpl. by right.
  - apply IH. intros k' Hk'. apply Hext. simpl. by right.
Qed.

Lemma required_key_not_optional k :
  k ∈ ["grid_type"; "max_position"; "follow_grid_count"; "lower_price"; "upper_price"] ->
  k ∉ optional_fields.*1.
Proof.
  intros Hk Ho. apply list_elem_of_In in Hk. apply list_elem_of_In in Ho.
  simpl in Hk, Ho.
  repeat (destruct Hk as [<-|Hk]; [repeat (destruct Ho as [Ho|Ho]; [discriminate Ho|]); done|]).
  done.
Qed.

End translator_facts.

Section translator_claims.
Context `{Runtime}.

(** What a successful [translate] has gone through. *)
Lemma translate_Ok (grid_config : gmap string value) (cfg : GridConfig) :
  translate grid_config = Ok cfg ->
  exists g max_position ps,
    grid_config !! "grid_type" = Some (VStr (GridType_value g)) /\
    (if truthy (default VNone (grid_config !! "max_position"))
     then to_decimal (default VNone (grid_config !! "max_position"))
     else Ok (PRaw VNone)) = Ok max_position /\
    ps !! "grid_type" = Some (PGridType g) /\
    ps !! "max_position" = Some max_position /\
    (forall k, k ∈ ["grid_type"; "max_position"; "follow_grid_count";
                    "lower_price"; "upper_price"] ->
       params cfg !! k = ps !! k) /\
    carried_fields grid_config g {| params := ps |}.
Proof.
  unfold translate. intros E.
  inv_bind E as gt Egt.
  inv_bind E as g Eg.
  apply GridType_of_Ok in Eg as ->.
  unfold item, getitem in Egt.
  destruct (grid_config !! "grid_type") as [gt|] eqn:Hgt; [|discriminate].
  injection Egt as ->.
  inv_bind E as exchange Eexchange.
  inv_bind E as symbol Esymbol.
  inv_bind E as gi Egi.
  inv_bind E as grid_interval Egrid_interval.
  inv_bind E as oa Eoa.
  inv_bind E as order_amount Eorder_amount.
  inv_bind E as max_position Emp.
  inv_bind E as fee_rate Efee_rate.
  inv_bind E as quantity_precision Eqp.
  inv_bind E as price_decimals Epd.
  inv_bind E as ps Ebranch.
  inv_bind E as ps' Eopt.
  injection E as <-. simpl.
  assert (Hkeep : forall k, k ∈ ["grid_type"; "max_position"; "follow_grid_count";
                    "lower_price"; "upper_price"] -> ps' !! k = ps !! k).
  { intros k Hk. eapply copy_optional_lookup; [|done].
    by apply required_key_not_optional. }
  exists g, max_position, ps. split; [done|]. split; [done|].
  unfold carried_fields.
  destruct (is_follow g).
  - inv_bind Ebranch as n En. injection Ebranch as <-.
    unfold item, getitem in En.
    destruct (grid_config !! "follow_grid_count") as [n'|] eqn:Hn; [|discriminate].
    injection En as ->.
    split; [by rewrite !lookup_insert_ne by done; rewrite lookup_insert_eq|].
    split; [by rewrite !lookup_insert_ne by done; rewrite lookup_insert_eq|].
    split; [done|]. simpl.
    exists n. split; [done|].
    by rewrite !lookup_insert_ne by done; rewrite lookup_insert_eq.
  - inv_bind Ebranch as pr Epr.
    inv_bind Ebranch as lo Elo.
    inv_bind Ebranch as lower_price Elower.
    apply to_decimal_Ok in Elower as (dlo & Hdlo & ->).
    inv_bind Ebranch as pr' Epr'.
    inv_bind Ebranch as hi Ehi.
    inv_bind Ebranch as upper_price Eupper.
    apply to_decimal_Ok in Eupper as (dhi & Hdhi & ->).
    injection Ebranch as <-.
    rewrite Epr in Epr'. injection Epr' as <-.
    unfold item, getitem in Epr.
    destruct (grid_config !! "price_range") as [pr0|] eqn:Hpr; [|discriminate].
    injection Epr as ->.
    split; [by rewrite !lookup_insert_ne by done; rewrite lookup_insert_eq|].
    split; [by rewrite !lookup_insert_ne by done; rewrite lookup_insert_eq|].
    split; [done|]. simpl.
    exists pr, lo, hi, dlo, dhi. repeat split; done.
Qed.

(** What a successful [create_grid_config] has gone through. *)
Lemma create_grid_config_Ok (config_data : value) (cfg : GridConfig) :
  create_grid_config config_data = Ok cfg ->
  exists grid_config g,
    getitem config_data "grid_system" = Ok (VDict grid_config) /\
    grid_config !! "grid_type" = Some (VStr (GridType_value g)) /\
    g ∈ GridType_members /\
    params cfg !! "grid_type" = Some (PGridType g) /\
    carried_fields grid_config g cfg.
Proof.
  intros E. unfold create_grid_config in E. inv_bind E.
  destruct a as [| | | | | |grid_config]; try discriminate.
  apply translate_Ok in E as (g & mp & ps & Hg & _ & Hgt & _ & Hkeep & Hreq).
  exists grid_config, g. split; [done|]. split; [done|].
  split; [destruct g; set_solver|].
  split; [rewrite Hkeep by set_solver; done|].
  unfold carried_fields in *. simpl in Hreq.
  destruct (is_follow g).
  - destruct Hreq as (n & Hn & Hp). exists n.
    by rewrite Hkeep by set_solver.
  - destruct Hreq as (pr & lo & hi & dlo & dhi & ? & ? & ? & ? & ? & Hlo & Hhi).
    exists pr, lo, hi, dlo, dhi.
    by rewrite !Hkeep by set_solver.
Qed.

(** *** Why the translator refuses a document *)












(** A follow grid without its grid count is refused. *)
Corollary create_grid_config_follow_count_missing config_data grid_config g :
  getitem config_data "grid_system" = Ok (VDict grid_config) ->
  grid_config !! "grid_type" = Some (VStr (GridType_value g)) ->
  is_follow g = true ->
  grid_config !! "follow_grid_count" = None ->
  exists e, create_grid_config config_data = Raise e.
Proof.
  intros Hgs Hg Hf Hn.
  destruct (create_grid_config config_data) as [cfg|e] eqn:E; [|by exists e].
  apply create_grid_config_Ok in E as (gc & g' & Hgs' & Hg' & _ & _ & Hreq).
  rewrite Hgs in Hgs'. injection Hgs' as <-.
  rewrite Hg in Hg'. injection Hg' as Hv.
  assert (g = g') as <- by (destruct g, g'; done).
  unfold carried_fields in Hreq. rewrite Hf in Hreq.
  destruct Hreq as (n & Hn' & _). congruence.
Qed.

(** A grid with a price range is refused without the range or either of
    its ends. *)
Corollary create_grid_config_price_range_missing config_data grid_config g :
  getitem config_data "grid_system" = Ok (VDict grid_config) ->
  grid_config !! "grid_type" = Some (VStr (GridType_value g)) ->
  is_follow g = false ->
  (forall price_range, grid_config !! "price_range" = Some price_range ->
     getitem price_range "lower_price" = Raise (KeyError "lower_price") \/
     getitem price_range "upper_price" = Raise (KeyError "upper_price")) ->
  exists e, create_grid_config config_data = Raise e.
Proof.
  intros Hgs Hg Hf Hmiss.
  destruct (create_grid_config config_data) as [cfg|e] eqn:E; [|by exists e].
  apply create_grid_config_Ok in E as (gc & g' & Hgs' & Hg' & _ & _ & Hreq).
  rewrite Hgs in Hgs'. injection Hgs' as <-.
  rewrite Hg in Hg'. injection Hg' as Hv.
  assert (g = g') as <- by (destruct g, g'; done).
  unfold carried_fields in Hreq. rewrite Hf in Hreq.
  destruct Hreq as (pr & lo & hi & dlo & dhi & Hpr & Hlo & Hhi & _).
  destruct (Hmiss pr Hpr); congruence.
Qed.

End translator_claims.


Section max_position.
Context `{Runtime}.

(** Apart from its test of "max_position", the translator reads the
    document at other keys only. *)
Lemma translate_max_position_ext (d1 d2 : gmap string value) :
  (forall k, k <> "max_position" -> d1 !! k = d2 !! k) ->
  truthy (default VNone (d1 !! "max_position")) = false ->
  truthy (default VNone (d2 !! "max_position")) = false ->
  translate d1 = translate d2.
Proof.
  intros Hext H1 H2. unfold translate, item, getitem.
  rewrite H1, H2. cbv iota.
  repeat match goal with
         | |- context [d1 !! ?k] => rewrite (Hext k) by done
         end.
  repeat (apply bind_ext; intros ?).
  rewrite (copy_optional_ext _ d1 d2); [done|].
  intros k Hk. apply Hext. intros ->.
  revert Hk. apply required_key_not_optional. set_solver.
Qed.

(** C10: a falsy max_position in the document (0, an empty text, null)
    becomes None in the parameters, so that a document with an explicit
    zero limit and the same document without a limit translate alike;
    a truthy max_position becomes the decimal its text denotes. *)
Theorem max_position_falsy_is_None :
  (forall config_data grid_config cfg,
     getitem config_data "grid_system" = Ok (VDict grid_config) ->
     create_grid_config config_data = Ok cfg ->
     if truthy (default VNone (grid_config !! "max_position"))
     then exists d,
            py_Decimal (py_str (default VNone (grid_config !! "max_position"))) = Ok d /\
            params cfg !! "max_position" = Some (PDecimal d)
     else params cfg !! "max_position" = Some (PRaw VNone)) /\
  (forall d1 d2 grid_config v,
     truthy v = false ->
     getitem d1 "grid_system" = Ok (VDict (<["max_position" := v]> grid_config)) ->
     getitem d2 "grid_system" = Ok (VDict (delete "max_position" grid_config)) ->
     create_grid_config d1 = create_grid_config d2).
Proof.
  split.
  - intros config_data grid_config cfg Hgs E.
    unfold create_grid_config in E. rewrite Hgs in E. simpl in E.
    apply translate_Ok in E as (g & mp & ps & _ & Hmp & _ & Hps & Hkeep & _).
    rewrite Hkeep by set_solver. rewrite Hps.
    destruct (truthy _).
    + apply to_decimal_Ok in Hmp as (d & Hd & ->). by exists d.
    + by injection Hmp as <-.
  - intros d1 d2 grid_config v Hv H1 H2.
    unfold create_grid_config. rewrite H1, H2. simpl.
    apply translate_max_position_ext.
    + intros k Hk. by rewrite lookup_insert_ne, lookup_delete_ne.
    + by rewrite lookup_insert_eq.
    + by rewrite lookup_delete_eq.
Qed.

End max_position.

(** A document with a zero limit, run by the runtime for scalars. *)
Lemma max_position_falsy_is_None_witness :
  match @create_grid_config Scalars.runtime
          (Samples.document
             (<["max_position" := VInt 0]> (Samples.grid_system "lighter" "BTC" "long")))
  with
  | Ok cfg => params cfg !! "max_position" = Some (PRaw VNone)
  | Raise _ => False
  end.
Proof.
  destruct (@create_grid_config Scalars.runtime _) as [cfg|e] eqn:E.
  - exact (proj1 (@max_position_falsy_is_None Scalars.runtime)
             (Samples.document
                (<["max_position" := VInt 0]> (Samples.grid_system "lighter" "BTC" "long")))
             (<["max_position" := VInt 0]> (Samples.grid_system "lighter" "BTC" "long"))
             cfg eq_refl E).
  - vm_compute in E. discriminate E.
Defined.

Example max_position_truthy :
  (cfg ← @create_grid_config Scalars.runtime
          (Samples.document
             (<["max_position" := VInt 5]> (Samples.grid_system "lighter" "BTC" "long")));
   Ok (params cfg !! "max_position"))
  = Ok (Some (PDecimal (DFinite false 5 0))).
Proof. vm_compute. reflexivity. Qed.

Example create_grid_config_six_tags :
  forallb (fun tag =>
             succeeds (@create_grid_config Scalars.runtime
                         (Samples.document
                            (<["follow_grid_count" := VInt 20]>
                               (Samples.grid_system "backpack" "SOL_PERP" tag)))))
    (GridType_value <$> GridType_members) = true.
Proof. vm_compute. reflexivity. Qed.

Example create_grid_config_unknown_tag :
  @create_grid_config Scalars.runtime
    (Samples.document (Samples.grid_system "backpack" "SOL_PERP" "neutral"))
  = Raise ValueError.
Proof. vm_compute. reflexivity. Qed.

Example create_grid_config_follow_without_count :
  @create_grid_config Scalars.runtime
    (Samples.document
       (delete "follow_grid_count"
          (Samples.follow_grid_system "backpack" "SOL_PERP" "follow_long")))
  = Raise (KeyError "follow_grid_count").
Proof. vm_compute. reflexivity. Qed.

Example create_grid_config_range_missing :
  @create_grid_config Scalars.runtime
    (Samples.document (Samples.follow_grid_system "backpack" "SOL_PERP" "long"))
  = Raise (KeyError "price_range").
Proof. vm_compute. reflexivity. Qed.

(** ** Credentials *)

Local Ltac fin :=
  let E := fresh "E" in
  intros E; injection E; intros; subst; simpl; try done.

Section credentials_claims.
Context `{Runtime}.

(** The credentials the runner resolves are the ones of the amended
    rule. *)
Lemma complete_from_file_amended environ files exchange_name c ended :
  let env := env_credentials environ exchange_name in
  truthy (cred_api_key env) && truthy (cred_api_secret env) = false ->
  complete_from_file files exchange_name env = (c, ended) ->
  c = amended_credentials environ files exchange_name.
Proof.
  intros env Hgate. unfold amended_credentials. fold env. rewrite Hgate.
  unfold complete_from_file, authentication_block.
  destruct env as [k s w]. simpl in Hgate |- *.
  destruct (files _) as [|e|doc]; [by fin|by fin|].
  destruct (get doc exchange_name (VDict ∅)) as [section|e]; simpl;
    [|by fin].
  destruct (get section "authentication" (VDict ∅)) as [auth|e]; simpl;
    [|by fin].
  unfold file_keys, complete, or_else.
  destruct (String.eqb exchange_name "hyperliquid").
  { destruct auth; simpl; destruct (truthy k), (truthy s), (truthy w);
      simpl in *; try discriminate; by fin. }
  destruct (String.eqb exchange_name "lighter").
  { destruct (get doc "api_config" (VDict ∅)) as [api_config|e]; simpl;
      [|by fin].
    destruct (get api_config "auth" (VDict ∅)) as [auth'|e]; simpl;
      [|by fin].
    destruct auth'; simpl; destruct (truthy k), (truthy s), (truthy w);
      simpl in *; try discriminate; by fin. }
  destruct auth as [| | | | | |a]; simpl;
    destruct (truthy k) eqn:Hk, (truthy s) eqn:Hs, (truthy w) eqn:Hw;
    simpl in *; rewrite ?Hs; simpl; try discriminate; try by fin.
  all: unfold py_or; destruct (truthy (default (VStr "") (a !! "private_key")));
    simpl; by fin.
Qed.

(** C5, amended: the key and the secret are resolved field by field, the
    environment variable first when it is set and not empty, else the
    value of the per-exchange file, else nothing; the file is read only
    when the key or the secret is missing from the environment, so the
    wallet address is completed from the file on those runs only. *)
Theorem credentials_env_then_file environ files exchange_name c warned :
  resolve_credentials environ files exchange_name = Ok (c, warned) ->
  c = amended_credentials environ files exchange_name.
Proof.
  unfold resolve_credentials.
  destruct (negb _ || negb _) eqn:Hgate.
  - destruct (complete_from_file _ _ _) as [c' [e|]] eqn:E.
    + destruct (is_Exception e); [|discriminate]. intros E'; injection E' as <- _.
      eapply complete_from_file_amended; [|done].
      by destruct (truthy _), (truthy _).
    + intros E'; injection E' as <- _.
      eapply complete_from_file_amended; [|done].
      by destruct (truthy _), (truthy _).
  - intros E'; injection E' as <- _. unfold amended_credentials.
    by destruct (truthy _), (truthy _).
Qed.

End credentials_claims.

Lemma credentials_env_then_file_witness :
  let c := {| cred_api_key := VStr "env-key"; cred_api_secret := VStr "0xsecret";
              cred_wallet_address := VNone |} in
  @resolve_credentials Scalars.runtime Samples.lighter_environ Samples.lighter_files
    "lighter" = Ok (c, None) /\
  c = @amended_credentials Scalars.runtime Samples.lighter_environ
        Samples.lighter_files "lighter".
Proof.
  cbv zeta. split; [vm_compute; reflexivity|].
  apply (@credentials_env_then_file Scalars.runtime Samples.lighter_environ
           Samples.lighter_files "lighter" _ None).
  vm_compute. reflexivity.
Defined.

(** C5 as stated fails: with the key and the secret in the environment
    and the wallet address only in the file, the wallet address is not
    taken from the file. *)
Lemma credentials_wallet_not_from_file :
  exists c,
    @resolve_credentials Scalars.runtime Samples.hyperliquid_environ
      Samples.hyperliquid_files "hyperliquid" = Ok (c, None) /\
    Samples.hyperliquid_environ "HYPERLIQUID_WALLET_ADDRESS" = None /\
    authentication_block Samples.hyperliquid_files "hyperliquid"
      = Some Samples.hyperliquid_authentication /\
    Samples.hyperliquid_authentication !! "wallet_address" = Some (VStr "0xabc") /\
    cred_wallet_address c = VNone /\
    cred_wallet_address c <>
      per_field_precedence
        (Samples.hyperliquid_environ "HYPERLIQUID_WALLET_ADDRESS")
        (Samples.hyperliquid_authentication !! "wallet_address").
Proof.
  eexists. split; [vm_compute; reflexivity|].
  repeat split; try done.
Qed.

(** ** Traces *)

Section emits.
Context {P : call -> Prop}.

Lemma emits_only_ret {A} (a : A) : emits_only P (mret a).
Proof. intros st. constructor. Qed.

Lemma emits_only_raise {A} (e : exn) : emits_only P (@raise A e).
Proof. intros st. constructor. Qed.

Lemma emits_only_block {A} : emits_only P (@block A).
Proof. intros st. constructor. Qed.

Lemma emits_only_read : emits_only P read.
Proof. intros st. constructor. Qed.

Lemma emits_only_modify f : emits_only P (modify f).
Proof. intros st. constructor. Qed.

Lemma emits_only_lift {A} (r : result A) : emits_only P (lift r).
Proof. destruct r; [apply emits_only_ret|apply emits_only_raise]. Qed.

Lemma emits_only_emit c : P c -> emits_only P (emit c).
Proof. intros Hc st. by repeat constructor. Qed.

Lemma emits_only_bind {A B} (m : act A) (k : A -> act B) :
  emits_only P m -> (forall a, emits_only P (k a)) -> emits_only P (m ≫= k).
Proof.
  intros Hm Hk st. specialize (Hm st). unfold mbind, act_bind, trace_of in *.
  destruct (m st) as [[[a|e|] st'] t]; simpl in *; try done.
  specialize (Hk a st'). unfold trace_of in Hk.
  destruct (k a st') as [[r st''] t']; simpl in *.
  by apply Forall_app.
Qed.

(** The continuation of a lifted result runs on the value it holds. *)
Lemma emits_only_lift_bind {A B} (r : result A) (k : A -> act B) :
  (forall a, r = Ok a -> emits_only P (k a)) -> emits_only P (lift r ≫= k).
Proof.
  intros Hk. destruct r as [a|e].
  - intros st. specialize (Hk a eq_refl st).
    unfold lift, mbind, act_bind, mret, act_ret, trace_of in *.
    by destruct (k a st) as [[r' st'] t'].
  - intros st. constructor.
Qed.

Lemma emits_only_perform {A} c (o : outcome A) : P c -> emits_only P (perform c o).
Proof.
  intros Hc. apply emits_only_bind; [by apply emits_only_emit|]. intros _.
  destruct o; [apply emits_only_ret|apply emits_only_raise|apply emits_only_block].
Qed.

Lemma emits_only_try_except {A} (m : act A) (handler : exn -> act A) :
  emits_only P m -> (forall e, emits_only P (handler e)) ->
  emits_only P (try_except m handler).
Proof.
  intros Hm Hh st. specialize (Hm st). unfold try_except, trace_of in *.
  destruct (m st) as [[[a|e|] st'] t]; simpl in *; try done.
  destruct (is_Exception e); [|done].
  specialize (Hh e st'). unfold trace_of in Hh.
  destruct (handler e st') as [[r st''] t']; simpl in *.
  by apply Forall_app.
Qed.

Lemma emits_only_swallow_cancelled (m : act unit) :
  emits_only P m -> emits_only P (swallow_cancelled m).
Proof.
  intros Hm st. specialize (Hm st). unfold swallow_cancelled, trace_of in *.
  by destruct (m st) as [[[a|[]|] st'] t].
Qed.

Lemma emits_only_try_finally {A} (m : act A) (fin : act unit) :
  emits_only P m -> emits_only P fin -> emits_only P (try_finally m fin).
Proof.
  intros Hm Hf st. specialize (Hm st). unfold try_finally, trace_of in *.
  destruct (m st) as [[[a|e|] st'] t]; simpl in *; try done.
  all: specialize (Hf st'); unfold trace_of in Hf.
  all: destruct (fin st') as [[[[]|e'|] st''] t']; simpl in *.
  all: by apply Forall_app.
Qed.

Lemma emits_only_deliver signums :
  P (Log INFO "signal") -> emits_only P (deliver signums).
Proof.
  intros Hs. induction signums as [|n rest IH]; simpl.
  - apply emits_only_ret.
  - apply emits_only_bind; [|done].
    apply emits_only_bind; [by apply emits_only_emit|].
    intros _. apply emits_only_modify.
Qed.

Lemma emits_only_mapM {A B} (f : A -> act B) (l : list A) :
  (forall a, emits_only P (f a)) -> emits_only P (mapM f l).
Proof.
  intros Hf. induction l as [|a l IH]; simpl.
  - apply emits_only_ret.
  - apply emits_only_bind; [done|]. intros b.
    apply emits_only_bind; [done|]. intros bs. apply emits_only_ret.
Qed.

End emits.

(** Steps through a piece of the runner, leaving the side conditions on
    the calls it makes. *)
Ltac emits :=
  repeat first
    [ match goal with H : forall _, emits_only _ _ |- _ => apply H end
    | apply emits_only_ret | apply emits_only_raise | apply emits_only_block
    | apply emits_only_read | apply emits_only_modify | apply emits_only_lift
    | apply emits_only_deliver
    | apply emits_only_perform | apply emits_only_emit
    | apply emits_only_swallow_cancelled
    | apply emits_only_mapM; intros ?
    | apply emits_only_try_except; [|intros ?]
    | apply emits_only_try_finally
    | apply emits_only_bind; [|intros ?]
    | match goal with
      | |- emits_only _ (if ?b then _ else _) => destruct b
      | |- emits_only _ (match ?x with _ => _ end) => destruct x
      | |- emits_only _ (let '(_, _) := ?x in _) => destruct x
      end ].


(** ** The configuration of the lighter adapter *)

Section lighter_facts.
Context `{Runtime}.

Lemma make_exchange_config_lighter files market_type c cfg warned :
  make_exchange_config files "lighter" market_type c = Ok (cfg, warned) ->
  api_key cfg = VStr "" /\ api_secret cfg = VStr "".
Proof.
  unfold make_exchange_config. simpl.
  destruct (files _) as [|e|doc].
  - by intros [= <- _].
  - destruct (is_Exception e); [|discriminate]. by intros [= <- _].
  - destruct (get doc "api_config" (VDict ∅)) as [api_config|e]; simpl.
    + destruct (get api_config "testnet" (VBool false)) as [t|e]; simpl.
      * by intros [= <- _].
      * destruct (is_Exception e); [|discriminate]. by intros [= <- _].
    + destruct (is_Exception e); [|discriminate]. by intros [= <- _].
Qed.

Lemma prepare_exchange_config_lighter environ files config_data cfg warned :
  prepare_exchange_config environ files config_data = Ok ("lighter", cfg, warned) ->
  api_key cfg = VStr "" /\ api_secret cfg = VStr "".
Proof.
  unfold prepare_exchange_config. intros E.
  inv_bind E as grid_config Egc.
  inv_bind E as exchange Eex.
  inv_bind E as exchange' Eex'.
  inv_bind E as symbol Esym.
  inv_bind E as symbol' Esym'.
  inv_bind E as cw Ecw. destruct cw as [c warned1].
  inv_bind E as xw Exw. destruct xw as [exchange_config warned2].
  injection E as Hname <- _. rewrite Hname in Exw.
  by eapply make_exchange_config_lighter.
Qed.

End lighter_facts.

(** C9: whatever the environment and the credentials file hold, the
    configuration handed to the adapter factory for "lighter" carries an
    empty api_key and an empty api_secret, in [create_exchange_adapter]
    and so in every run. *)
Theorem lighter_config_has_no_credentials `{Runtime} (w : world) :
  (forall config_data,
     emits_only lighter_without_credentials (create_exchange_adapter w config_data)) /\
  emits_only lighter_without_credentials (run w).
Proof.
  assert (Hc : forall config_data,
     emits_only lighter_without_credentials (create_exchange_adapter w config_data)).
  { intros config_data. unfold create_exchange_adapter.
    apply emits_only_lift_bind. intros [[exchange_name cfg] warned] E.
    emits; try exact I.
    intros ->. by eapply prepare_exchange_config_lighter. }
  split; [done|].
  unfold run, startup, load_config, cleanup, wait_shutdown_event.
  emits; exact I.
Qed.

Example lighter_config_sample :
  @make_exchange_config Scalars.runtime Samples.lighter_files "lighter" PERPETUAL
    (@amended_credentials Scalars.runtime Samples.lighter_environ
       Samples.lighter_files "lighter")
  = Ok (lighter_exchange_config PERPETUAL (VBool true), None).
Proof. vm_compute. reflexivity. Qed.

(** ** Signals and the cleanup they trigger *)

Lemma handle_signal_spec signum st :
  handle_signal signum st = (Done tt, set_shutdown_event st, [Log INFO "signal"]).
Proof. reflexivity. Qed.

Lemma set_shutdown_event_idempotent st :
  set_shutdown_event (set_shutdown_event st) = set_shutdown_event st.
Proof. reflexivity. Qed.

Lemma deliver_spec signums st :
  deliver signums st =
    (Done tt,
     match signums with [] => st | _ => set_shutdown_event st end,
     replicate (length signums) (Log INFO "signal")).
Proof.
  revert st. induction signums as [|n rest IH]; intros st; [done|].
  simpl. unfold mbind at 1. unfold act_bind.
  change ((handle_signal n) st) with
    (Done tt, set_shutdown_event st, [Log INFO "signal"]).
  simpl. rewrite IH. by destruct rest.
Qed.

Lemma count_app p t1 t2 : count p (t1 ++ t2) = count p t1 + count p t2.
Proof. unfold count. by rewrite filter_app, length_app. Qed.

Lemma count_none p t : Forall (fun c => p c = false) t -> count p t = 0.
Proof.
  unfold count. induction 1 as [|c t Hc _ IH]; [done|].
  rewrite filter_cons_False; [done|]. by rewrite Hc.
Qed.

(** ** Coming to an end *)

Section ends.

Lemma ends_weaken {A} (I I' J J' : runner -> Prop) (m : act A) :
  (forall st, I' st -> I st) -> (forall st, J st -> J' st) ->
  ends I J m -> ends I' J' m.
Proof.
  intros HI HJ Hm st Hst. destruct (Hm st (HI st Hst)) as [Hb Hd].
  split; [done|]. intros a Ha. apply HJ. by eapply Hd.
Qed.

Lemma ends_ret {A} (I : runner -> Prop) (a : A) : ends I I (mret a).
Proof. intros st Hst. split; [done|]. by intros a' _. Qed.

Lemma ends_raise {A} (I J : runner -> Prop) (e : exn) : ends I J (@raise A e).
Proof. intros st Hst. split; done. Qed.

Lemma ends_read (I : runner -> Prop) : ends I I read.
Proof. intros st Hst. split; [done|]. by intros a' _. Qed.

Lemma ends_modify (I : runner -> Prop) f :
  (forall st, I st -> I (f st)) -> ends I I (modify f).
Proof. intros Hf st Hst. split; [done|]. intros a' _. by apply Hf. Qed.

Lemma ends_lift {A} (I : runner -> Prop) (r : result A) : ends I I (lift r).
Proof. destruct r; [apply ends_ret|apply ends_raise]. Qed.

Lemma ends_emit (I : runner -> Prop) c : ends I I (emit c).
Proof. intros st Hst. split; [done|]. by intros a' _. Qed.

Lemma ends_bind {A B} (I J K : runner -> Prop) (m : act A) (k : A -> act B) :
  ends I J m -> (forall a, ends J K (k a)) -> ends I K (m ≫= k).
Proof.
  intros Hm Hk st Hst. destruct (Hm st Hst) as [Hb Hd].
  unfold mbind, act_bind, state_of, reply_of in *.
  destruct (m st) as [[[a|e|] st'] t]; simpl in *; try done.
  destruct (Hk a st' (Hd a eq_refl)) as [Hb' Hd'].
  unfold state_of, reply_of in *.
  by destruct (k a st') as [[r st''] t'].
Qed.

Lemma ends_perform {A} (I : runner -> Prop) c (o : outcome A) :
  o <> Hangs -> ends I I (perform c o).
Proof.
  intros Ho. eapply ends_bind; [apply ends_emit|]. intros _.
  destruct o; [apply ends_ret|apply ends_raise|done].
Qed.

Lemma ends_try_except {A} (I J : runner -> Prop) (m : act A) (handler : exn -> act A) :
  ends I J m -> (forall e, ends any_runner J (handler e)) ->
  ends I J (try_except m handler).
Proof.
  intros Hm Hh st Hst. destruct (Hm st Hst) as [Hb Hd].
  unfold try_except, state_of, reply_of in *.
  destruct (m st) as [[[a|e|] st'] t]; simpl in *; try done.
  destruct (is_Exception e); [|done].
  destruct (Hh e st') as [Hb' Hd']; [done|]. unfold state_of, reply_of in *.
  by destruct (handler e st') as [[r st''] t'].
Qed.

Lemma ends_swallow_cancelled (I J : runner -> Prop) (m : act unit) :
  ends I J m -> ends I any_runner (swallow_cancelled m).
Proof.
  intros Hm st Hst. destruct (Hm st Hst) as [Hb Hd].
  unfold swallow_cancelled, state_of, reply_of in *.
  by destruct (m st) as [[[a|[]|] st'] t].
Qed.

Lemma ends_try_finally {A} (I J : runner -> Prop) (m : act A) (fin : act unit) :
  ends I J m -> ends any_runner any_runner fin ->
  ends I any_runner (try_finally m fin).
Proof.
  intros Hm Hf st Hst. destruct (Hm st Hst) as [Hb Hd].
  unfold try_finally, state_of, reply_of in *.
  destruct (m st) as [[[a|e|] st'] t]; simpl in *; try done.
  all: destruct (Hf st') as [Hb' _]; [done|]; unfold reply_of in *.
  all: by destruct (fin st') as [[[[]|e'|] st''] t'].
Qed.

(** The deliveries keep an invariant that setting the event keeps, and
    set the event when there is one. *)
Lemma ends_deliver (I : runner -> Prop) signums :
  (forall st, I st -> I (set_shutdown_event st)) ->
  ends I (fun st => I st /\ (signums <> [] -> signalled st)) (deliver signums).
Proof.
  intros HI st Hst. rewrite deliver_spec. split; [done|]. intros _ _.
  unfold state_of. simpl. destruct signums; [done|]. split; [by apply HI|done].
Qed.

Lemma ends_mapM {A B} (I : runner -> Prop) (f : A -> act B) (l : list A) :
  (forall a, ends I I (f a)) -> ends I I (mapM f l).
Proof.
  intros Hf. induction l as [|a l IH]; simpl.
  - apply ends_ret.
  - eapply ends_bind; [apply Hf|]. intros b.
    eapply ends_bind; [apply IH|]. intros bs. apply ends_ret.
Qed.

(** The wait returns at once on a runner whose event is set. *)
Lemma ends_wait_shutdown_event : ends signalled signalled wait_shutdown_event.
Proof.
  intros st Hst. unfold wait_shutdown_event, signalled in *.
  unfold mbind, act_bind, read, reply_of, state_of. simpl. by rewrite Hst.
Qed.

End ends.

(** One step through a piece of the runner that keeps one invariant. *)
Ltac ends_step :=
  first
    [ apply ends_raise | apply ends_ret | apply ends_read | apply ends_lift
    | apply ends_emit
    | apply ends_perform
    | apply ends_mapM; intros ?
    | eapply ends_bind; [|intros ?]
    | match goal with
      | |- ends _ _ (if ?b then _ else _) => destruct b
      | |- ends _ _ (match ?x with _ => _ end) => destruct x
      | |- ends _ _ (let '(_, _) := ?x in _) => destruct x
      end ].

(** ** The cleanup opens once *)

Lemma outcome_hangs {A} (o : outcome A) : o = Hangs \/ o <> Hangs.
Proof. destruct o; [by right|by right|by left]. Qed.

Lemma trace_emit_bind {B} c (k : unit -> act B) st :
  trace_of ((emit c ≫= k) st) = [c] ++ trace_of (k tt st).
Proof.
  unfold mbind, act_bind, emit, trace_of. by destruct (k tt st) as [[r st'] t'].
Qed.

(** A cleanup opens once. *)
Lemma cleanup_once w st : count is_cleanup_start (trace_of (cleanup w st)) = 1.
Proof.
  unfold cleanup. rewrite trace_emit_bind, count_app.
  rewrite (count_none _ (trace_of _)); [done|].
  match goal with
  | |- Forall _ (trace_of (?m st)) =>
      assert (emits_only not_cleanup_start m) as Hk by (emits; reflexivity)
  end.
  apply Hk.
Qed.

(** A cleanup whose awaited calls all return or raise comes to an
    end. *)
Lemma cleanup_ends w :
  cleanup_on_exit_outcome w <> Hangs ->
  coordinator_stop_outcome w <> Hangs ->
  monitor_stop_outcome w <> Hangs ->
  disconnect_outcome w <> Hangs ->
  ends any_runner any_runner (cleanup w).
Proof.
  intros H1 H2 H3 H4. unfold cleanup.
  eapply ends_bind; [apply ends_emit|]. intros _.
  eapply ends_bind; [by apply ends_modify|]. intros _.
  apply ends_try_except; [|intros e; apply ends_emit].
  eapply ends_bind; [apply ends_read|]. intros st.
  eapply ends_bind.
  { destruct (bool_decide _); [|apply ends_ret].
    eapply ends_bind; [|intros _; by apply ends_perform].
    apply ends_try_except; [by apply ends_perform|intros e; apply ends_emit]. }
  intros _. eapply ends_bind.
  { destruct (reserve_monitor st); [by apply ends_perform|apply ends_ret]. }
  intros _. destruct (bool_decide _); [by apply ends_perform|apply ends_ret].
Qed.

(** A cleanup stays blocked only in an awaited call that never
    returns. *)
Lemma cleanup_blocked w st :
  reply_of (cleanup w st) = Blocked ->
  cleanup_on_exit_outcome w = Hangs \/ coordinator_stop_outcome w = Hangs \/
  monitor_stop_outcome w = Hangs \/ disconnect_outcome w = Hangs.
Proof.
  intros Hb.
  destruct (outcome_hangs (cleanup_on_exit_outcome w)) as [|H1]; [by left|].
  destruct (outcome_hangs (coordinator_stop_outcome w)) as [|H2]; [by right; left|].
  destruct (outcome_hangs (monitor_stop_outcome w)) as [|H3];
    [by right; right; left|].
  destruct (outcome_hangs (disconnect_outcome w)) as [|H4];
    [by right; right; right|].
  by destruct (cleanup_ends w H1 H2 H3 H4 st I) as [Hn _].
Qed.

Section signal_facts.
Context `{Runtime}.

Lemma startup_no_cleanup_start w :
  emits_only not_cleanup_start
    (try_except (startup w) (fun e => emit (Log ERROR "system error");; raise e)).
Proof.
  unfold startup, load_config, create_exchange_adapter, wait_shutdown_event.
  emits; reflexivity.
Qed.

(** A run executes at most one cleanup sequence, and exactly one when
    it comes to an end. *)
Lemma run_cleanup_once w st :
  count is_cleanup_start (trace_of (run w st)) <= 1 /\
  (reply_of (run w st) <> Blocked ->
   count is_cleanup_start (trace_of (run w st)) = 1).
Proof.
  unfold run.
  pose proof (startup_no_cleanup_start w st) as Hs.
  unfold try_finally, trace_of, reply_of in *.
  destruct (try_except _ _ st) as [[r st'] t]. simpl in Hs.
  apply count_none in Hs.
  pose proof (cleanup_once w st') as Hc. unfold trace_of in Hc.
  destruct r as [[]|e|]; [| |simpl; split; [lia|done]].
  all: destruct (cleanup w st') as [[[[]|e'|] st''] t']; simpl in *.
  all: rewrite count_app; split; [lia|intros _; lia].
Qed.

(** When a signal is delivered before the runner waits and no call on a
    collaborator hangs, the startup comes to an end. *)
Lemma startup_ends w :
  never_hangs w ->
  signals_early w ++ signals_waiting w <> [] ->
  ends any_runner any_runner (startup w).
Proof.
  intros (Hcreate & Hconnect & Hbuild & Hcheck & Hearly & Hstart & Hmon & Hawait & _)
    Hsig.
  set (Inv := fun st : runner => signals_waiting w <> [] \/ signalled st).
  assert (forall f, (forall st, _shutdown_event (f st) = _shutdown_event st) ->
            forall st, Inv st -> Inv (f st)) as Hkeep.
  { intros f Hf st [Hw|Hs]; [by left|]. right. unfold signalled. by rewrite Hf. }
  unfold startup.
  eapply ends_bind.
  { eapply ends_weaken with (J := fun st => any_runner st /\ _);
      [done| |by apply ends_deliver].
    intros st [_ Hs]. instantiate (1 := Inv). unfold Inv.
    destruct (signals_early w); [by left|right; by apply Hs]. }
  intros _.
  eapply ends_bind; [unfold load_config; apply ends_try_except;
                     [apply ends_lift|intros e; repeat ends_step]|].
  intros config_data.
  do 5 (eapply ends_bind; [apply ends_lift|intros ?]).
  eapply ends_bind; [repeat ends_step|]. intros _.
  eapply ends_bind.
  { unfold create_exchange_adapter.
    eapply ends_bind; [apply ends_lift|]. intros [[exchange_name cfg] warned].
    repeat ends_step; done. }
  intros adapter.
  eapply ends_bind; [apply ends_modify; by apply Hkeep|]. intros _.
  do 4 (eapply ends_bind; [by apply ends_perform|intros _]).
  eapply ends_bind.
  { destruct (ExchangeType_eqb _ _); [|apply ends_ret].
    eapply ends_bind; [apply ends_lift|]. intros [|]; [|apply ends_ret].
    do 2 (eapply ends_bind; [by apply ends_perform|intros _]).
    eapply ends_bind; [apply ends_modify; by apply Hkeep|]. intros _.
    apply ends_ret. }
  intros reserve.
  eapply ends_bind; [by apply ends_perform|]. intros _.
  eapply ends_bind; [apply ends_modify; by apply Hkeep|]. intros _.
  eapply ends_bind.
  { destruct reserve; [|apply ends_ret].
    eapply ends_bind; [by apply ends_perform|]. intros [|]; [apply ends_ret|].
    eapply ends_bind; [apply ends_emit|]. intros _.
    eapply ends_bind; [by apply ends_perform|]. intros _. apply ends_raise. }
  intros _.
  eapply ends_bind; [by apply ends_perform|]. intros _.
  eapply ends_bind.
  { destruct reserve; [by apply ends_perform|apply ends_ret]. }
  intros _.
  eapply ends_bind; [apply ends_modify; by apply Hkeep|]. intros _.
  eapply ends_bind; [apply ends_emit|]. intros _.
  eapply ends_bind.
  { eapply ends_weaken with (J := fun st => Inv st /\ _);
      [done| |apply ends_deliver; intros st _; by right].
    intros st [[Hw|Hs] Hd]; [by apply Hd|exact Hs]. }
  intros _.
  eapply ends_bind; [apply ends_wait_shutdown_event|]. intros _.
  eapply ends_bind.
  { eapply ends_weaken with (J := fun st => signalled st /\ _);
      [done| |apply ends_deliver; by intros st _].
    by intros st [Hs _]. }
  intros _.
  eapply ends_bind; [apply ends_emit|]. intros _.
  eapply ends_swallow_cancelled. by apply ends_perform.
Qed.

(** Such a run comes to an end as well. *)
Lemma run_ends w :
  never_hangs w ->
  signals_early w ++ signals_waiting w <> [] ->
  ends any_runner any_runner (run w).
Proof.
  intros Hw Hsig. unfold run. eapply ends_try_finally.
  - apply ends_try_except; [by apply startup_ends|].
    intros e. eapply ends_bind; [apply ends_emit|]. intros _. apply ends_raise.
  - destruct Hw as (_ & _ & _ & _ & _ & _ & _ & _ & H1 & H2 & H3 & H4).
    by apply cleanup_ends.
Qed.

End signal_facts.

Example two_signals_one_cleanup :
  let w := Samples.world_of
             (Samples.document (Samples.grid_system "lighter" "BTC" "long"))
             true (Returns tt) [15; 2]%Z in
  count is_cleanup_start (trace_of (@run Scalars.runtime w init)) = 1 /\
  reply_of (@run Scalars.runtime w init) = Done tt.
Proof. vm_compute. split; reflexivity. Qed.

Example no_signal_no_cleanup :
  let w := Samples.world_of
             (Samples.document (Samples.grid_system "lighter" "BTC" "long"))
             true (Returns tt) [] in
  count is_cleanup_start (trace_of (@run Scalars.runtime w init)) = 0 /\
  reply_of (@run Scalars.runtime w init) = Blocked.
Proof. vm_compute. split; reflexivity. Qed.

(** ** Statistics loop *)

(** The exception one pass meets first, if it meets one. *)
Lemma cycle_body_failure c e :
  (sleep_outcome c = Some e \/
   sleep_outcome c = None /\ coordinator_set c = true /\
   (statistics_outcome c = Some e \/
    statistics_outcome c = None /\ report_outcome c = Some e)) ->
  is_Exception e = true ->
  exists evs, cycle_body c = (evs ++ [LogFailure e], None).
Proof.
  intros Hfail He. unfold cycle_body, guarded.
  destruct Hfail as [->|(-> & -> & [->|[-> ->]])]; cbn [negb]; rewrite He.
  - by exists [Sleep].
  - by exists [Sleep; GetStatistics].
  - by exists [Sleep; GetStatistics].
Qed.

Lemma cycle_body_without_coordinator c :
  coordinator_set c = false -> GetStatistics ∉ (cycle_body c).1.
Proof.
  intros Hc. unfold cycle_body, guarded. rewrite Hc.
  destruct (sleep_outcome c) as [e|]; simpl; [destruct (is_Exception e)|];
    simpl; intros Hin;
    repeat (apply elem_of_cons in Hin as [Hin|Hin]; [discriminate|]);
    by apply elem_of_nil in Hin.
Qed.

Lemma print_statistics_step c rest evs :
  cycle_body c = (evs, None) ->
  print_statistics true (c :: rest) =
    (evs ++ (print_statistics (running_next c) rest).1,
     (print_statistics (running_next c) rest).2).
Proof.
  intros E. simpl. rewrite E. by destruct (print_statistics _ rest).
Qed.

Lemma print_statistics_reads running cycles :
  GetStatistics ∈ (print_statistics running cycles).1 ->
  exists c, c ∈ cycles /\ coordinator_set c = true.
Proof.
  revert running. induction cycles as [|c rest IH]; intros running.
  - destruct running; simpl; set_solver.
  - destruct running; [|simpl; set_solver].
    simpl. destruct (cycle_body c) as [evs [e|]] eqn:E.
    + simpl. intros Hin. exists c. split; [set_solver|].
      destruct (coordinator_set c) eqn:Hc; [done|].
      apply cycle_body_without_coordinator in Hc. rewrite E in Hc. done.
    + destruct (print_statistics (running_next c) rest) as [evs' r] eqn:E'.
      simpl. intros [Hin|Hin]%elem_of_app.
      * exists c. split; [set_solver|].
        destruct (coordinator_set c) eqn:Hc; [done|].
        apply cycle_body_without_coordinator in Hc. rewrite E in Hc. done.
      * destruct (IH (running_next c)) as (c' & Hc' & Hset).
        { by rewrite E'. }
        exists c'. split; [set_solver|done].
Qed.

(** C7: the statistics loop is resilient. An exception (other than a
    cancellation) met in a cycle, in the sleep, in the read of the
    statistics or in the report, is logged and the loop goes on with the
    next cycle; the statistics are never read in a cycle in which no
    coordinator exists; and once the running flag is cleared no further
    cycle starts. *)
Theorem print_statistics_resilient :
  (forall c rest e,
     (sleep_outcome c = Some e \/
      sleep_outcome c = None /\ coordinator_set c = true /\
      (statistics_outcome c = Some e \/
       statistics_outcome c = None /\ report_outcome c = Some e)) ->
     is_Exception e = true ->
     exists evs,
       print_statistics true (c :: rest) =
         ((evs ++ [LogFailure e]) ++ (print_statistics (running_next c) rest).1,
          (print_statistics (running_next c) rest).2)) /\
  (forall c, coordinator_set c = false -> GetStatistics ∉ (cycle_body c).1) /\
  (forall running cycles,
     GetStatistics ∈ (print_statistics running cycles).1 ->
     exists c, c ∈ cycles /\ coordinator_set c = true) /\
  (forall cycles, print_statistics false cycles = ([], Returned)) /\
  (forall c rest evs,
     cycle_body c = (evs, None) -> running_next c = false ->
     print_statistics true (c :: rest) = (evs, Returned)).
Proof.
  split; [|split; [|split; [|split]]].
  - intros c rest e Hfail He.
    destruct (cycle_body_failure c e Hfail He) as (evs & E).
    exists evs. by apply print_statistics_step.
  - apply cycle_body_without_coordinator.
  - apply print_statistics_reads.
  - by intros [|c rest].
  - intros c rest evs E Hr. rewrite (print_statistics_step _ _ _ E), Hr.
    destruct rest; simpl; by rewrite app_nil_r.
Qed.

(** A failing cycle followed by a good one that ends the loop. *)
Lemma print_statistics_resilient_witness :
  is_Exception (CollaboratorError "get_statistics") = true /\
  exists evs,
    print_statistics true [Samples.failing_cycle; Samples.good_cycle false] =
      ((evs ++ [LogFailure (CollaboratorError "get_statistics")]) ++
         (print_statistics true [Samples.good_cycle false]).1,
       (print_statistics true [Samples.good_cycle false]).2).
Proof.
  split; [reflexivity|].
  apply (proj1 print_statistics_resilient Samples.failing_cycle
           [Samples.good_cycle false] (CollaboratorError "get_statistics")).
  - right. split; [reflexivity|]. split; [reflexivity|]. by left.
  - reflexivity.
Defined.

Example print_statistics_sample :
  print_statistics true [Samples.failing_cycle; Samples.good_cycle false] =
    ([Sleep; GetStatistics; LogFailure (CollaboratorError "get_statistics");
      Sleep; GetStatistics; Report], Returned).
Proof. reflexivity. Qed.

Example print_statistics_cancelled :
  print_statistics true
    [Samples.early_cycle;
     {| sleep_outcome := Some CancelledError; coordinator_set := true;
        statistics_outcome := None; report_outcome := None; running_next := true |};
     Samples.good_cycle true] =
    ([Sleep; Sleep], Propagated CancelledError).
Proof. reflexivity. Qed.

(** ** Cleanup and the paths that end a run *)

(** C1 fails on the code: when [coordinator.stop()] raises, the handler
    around the whole sequence ends the cleanup, and neither the reserve
    monitor is stopped nor the exchange disconnected. *)
Theorem cleanup_stop_failure_skips_teardown :
  let w := Samples.world_of
             (Samples.document (Samples.grid_system "lighter" "BTC" "long"))
             true (Raises (CollaboratorError "coordinator.stop")) [15%Z] in
  (trace_of (cleanup w Samples.started) =
     [Log INFO "cleanup"; CleanupOnExit; CoordinatorStop; Log ERROR "cleanup failed"] /\
   reserve_monitor Samples.started = true /\
   is_Some (exchange_adapter Samples.started) /\
   (MonitorStop ∉ trace_of (cleanup w Samples.started)) /\
   (Disconnect ∉ trace_of (cleanup w Samples.started))).
Proof.
  cbv zeta. split; [reflexivity|]. split; [reflexivity|]. split; [by eexists|].
  change (trace_of (cleanup _ Samples.started)) with
    [Log INFO "cleanup"; CleanupOnExit; CoordinatorStop; Log ERROR "cleanup failed"].
  split; intros Hin; repeat (apply elem_of_cons in Hin as [Hin|Hin]; [discriminate|]);
    by apply elem_of_nil in Hin.
Qed.

(** C2 fails on the code: a hyperliquid symbol without a tag resolves to
    SPOT, yet a short grid on it passes the check of [run], which looks
    for ":SPOT" only: the exchange is connected and the run ends normally
    on the shutdown signal. *)
Theorem run_short_on_untagged_spot_connects :
  let w := Samples.world_of
             (Samples.document (Samples.grid_system "hyperliquid" "BTC" "short"))
             true (Returns tt) [15%Z] in
  (@detect_market_type Scalars.runtime "BTC" "hyperliquid" = SPOT /\
   count is_connect (trace_of (@run Scalars.runtime w init)) = 1 /\
   reply_of (@run Scalars.runtime w init) = Done tt).
Proof. vm_compute. repeat split; reflexivity. Qed.

(** C6 fails on the code: when the reserve check fails the runner
    disconnects the exchange and exits with status 1, and the [finally]
    of [run] then runs the cleanup, which disconnects it again. *)
Theorem run_reserve_check_failure_disconnects_twice :
  let w := Samples.world_of (Samples.document Samples.spot_reserve_grid)
             false (Returns tt) [15%Z] in
  (count is_connect (trace_of (@run Scalars.runtime w init)) = 1 /\
   count is_disconnect (trace_of (@run Scalars.runtime w init)) = 2 /\
   reply_of (@run Scalars.runtime w init) = Raised (SystemExit 1)).
Proof. vm_compute. repeat split; reflexivity. Qed.

Example run_reserve_check_failure_trace :
  let w := Samples.world_of (Samples.document Samples.spot_reserve_grid)
             false (Returns tt) [15%Z] in
  drop 9 (trace_of (@run Scalars.runtime w init)) =
    [ CheckReserve; Log ERROR "startup check failed"; Disconnect;
      Log INFO "cleanup"; CleanupOnExit; CoordinatorStop; MonitorStop; Disconnect ].
Proof. vm_compute. reflexivity. Qed.

Example calm_run :
  trace_of (@run Scalars.runtime Samples.calm init) =
    [ CreateAdapter "lighter" (lighter_exchange_config PERPETUAL (VBool false));
      Connect;
      Build "GridStrategyImpl"; Build "GridEngineImpl"; Build "GridState";
      Build "PositionTrackerImpl"; Build "GridCoordinator";
      CoordinatorStart; StatsTaskCreate;
      Log INFO "signal";
      StatsTaskCancel; StatsTaskAwait;
      Log INFO "cleanup"; CleanupOnExit; CoordinatorStop; Disconnect ].
Proof. vm_compute. reflexivity. Qed.

(** * Further properties of the runner *)

(** ** Case folding and the market type *)

Lemma upper_char_idempotent c : PyStr.upper_char (PyStr.upper_char c) = PyStr.upper_char c.
Proof. by destruct c as [[] [] [] [] [] [] [] []]. Qed.

Lemma lower_char_idempotent c : PyStr.lower_char (PyStr.lower_char c) = PyStr.lower_char c.
Proof. by destruct c as [[] [] [] [] [] [] [] []]. Qed.

Lemma upper_lower_char c : PyStr.upper_char (PyStr.lower_char c) = PyStr.upper_char c.
Proof. by destruct c as [[] [] [] [] [] [] [] []]. Qed.

Lemma lower_upper_char c : PyStr.lower_char (PyStr.upper_char c) = PyStr.lower_char c.
Proof. by destruct c as [[] [] [] [] [] [] [] []]. Qed.

Lemma upper_idempotent s : PyStr.upper (PyStr.upper s) = PyStr.upper s.
Proof. induction s as [|c s IH]; simpl; [done|]. by rewrite upper_char_idempotent, IH. Qed.

Lemma lower_idempotent s : PyStr.lower (PyStr.lower s) = PyStr.lower s.
Proof. induction s as [|c s IH]; simpl; [done|]. by rewrite lower_char_idempotent, IH. Qed.

Lemma upper_lower s : PyStr.upper (PyStr.lower s) = PyStr.upper s.
Proof. induction s as [|c s IH]; simpl; [done|]. by rewrite upper_lower_char, IH. Qed.

Lemma lower_upper s : PyStr.lower (PyStr.upper s) = PyStr.lower s.
Proof. induction s as [|c s IH]; simpl; [done|]. by rewrite lower_upper_char, IH. Qed.

Lemma is_ascii_upper s : PyStr.is_ascii (PyStr.upper s) = PyStr.is_ascii s.
Proof.
  induction s as [|c s IH]; simpl; [done|]. rewrite IH. f_equal.
  by destruct c as [[] [] [] [] [] [] [] []].
Qed.

Lemma is_ascii_lower s : PyStr.is_ascii (PyStr.lower s) = PyStr.is_ascii s.
Proof.
  induction s as [|c s IH]; simpl; [done|]. rewrite IH. f_equal.
  by destruct c as [[] [] [] [] [] [] [] []].
Qed.

(** The resolver of the ASCII mappings does not depend on the case. *)
Lemma detect_market_type_fold symbol exchange_name :
  @detect_market_type Scalars.runtime (PyStr.lower symbol) (PyStr.upper exchange_name)
    = @detect_market_type Scalars.runtime symbol exchange_name /\
  @detect_market_type Scalars.runtime (PyStr.upper symbol) (PyStr.lower exchange_name)
    = @detect_market_type Scalars.runtime symbol exchange_name.
Proof.
  unfold detect_market_type. cbn [py_upper py_lower Scalars.runtime].
  by rewrite upper_lower, lower_upper, upper_idempotent, lower_idempotent.
Qed.

(** X1: the market type does not depend on the case of the symbol or of
    the exchange name (on ASCII text): folding either argument to upper
    or to lower case leaves the result unchanged. This holds of the ASCII
    mappings on every text, and so of the mappings of any runtime on ASCII
    text. *)
Theorem detect_market_type_case_insensitive :
  (forall symbol exchange_name,
     @detect_market_type Scalars.runtime (PyStr.lower symbol) (PyStr.upper exchange_name)
       = @detect_market_type Scalars.runtime symbol exchange_name /\
     @detect_market_type Scalars.runtime (PyStr.upper symbol) (PyStr.lower exchange_name)
       = @detect_market_type Scalars.runtime symbol exchange_name) /\
  (forall `{Runtime} symbol exchange_name,
     PyStr.is_ascii symbol = true ->
     PyStr.is_ascii exchange_name = true ->
     detect_market_type (py_lower symbol) (py_upper exchange_name)
       = detect_market_type symbol exchange_name /\
     detect_market_type (py_upper symbol) (py_lower exchange_name)
       = detect_market_type symbol exchange_name).
Proof.
  split; [exact detect_market_type_fold|].
  intros R symbol exchange_name Hs He.
  rewrite (py_lower_ascii symbol Hs), (py_upper_ascii symbol Hs),
    (py_lower_ascii exchange_name He), (py_upper_ascii exchange_name He).
  rewrite (detect_market_type_ascii (PyStr.lower symbol) (PyStr.upper exchange_name)),
    (detect_market_type_ascii (PyStr.upper symbol) (PyStr.lower exchange_name)),
    (detect_market_type_ascii symbol exchange_name)
    by (done || by rewrite ?is_ascii_lower, ?is_ascii_upper).
  apply detect_market_type_fold.
Qed.

Lemma detect_market_type_case_insensitive_witness :
  @detect_market_type Scalars.runtime "btc:usdc" "HYPERLIQUID" = PERPETUAL.
Proof.
  pose proof (proj2 detect_market_type_case_insensitive Scalars.runtime
                "BTC:USDC" "hyperliquid" eq_refl eq_refl) as [E _].
  exact E.
Defined.

(** ** The short-on-spot check and the resolver *)

Section check_and_resolver.
Context `{Runtime}.

(** X2: the short-on-spot check of [run] against the resolver. On
    backpack every symbol the resolver calls SPOT is spot for the check;
    on hyperliquid every symbol the check calls spot resolves to SPOT;
    and on any other venue the check never fires. *)
Theorem is_spot_symbol_and_resolver symbol :
  (detect_market_type symbol "backpack" = SPOT ->
   is_spot_symbol "backpack" (VStr symbol) = Ok true) /\
  (is_spot_symbol "hyperliquid" (VStr symbol) = Ok true ->
   detect_market_type symbol "hyperliquid" = SPOT) /\
  (forall exchange_name,
     exchange_name <> "hyperliquid" -> exchange_name <> "backpack" ->
     is_spot_symbol exchange_name (VStr symbol) = Ok false).
Proof.
  split; [|split].
  - unfold detect_market_type, is_spot_symbol.
    rewrite (py_lower_ascii "backpack") by reflexivity.
    change (PyStr.lower "backpack") with "backpack". simpl.
    destruct (PyStr.contains "_PERP" _ || PyStr.contains "PERP" _); [done|].
    by destruct (PyStr.contains "_SPOT" _ || PyStr.contains "SPOT" _).
  - unfold detect_market_type, is_spot_symbol.
    rewrite (py_lower_ascii "hyperliquid") by reflexivity.
    change (PyStr.lower "hyperliquid") with "hyperliquid". simpl.
    intros [= ->]. by rewrite !orb_true_r.
  - intros exchange_name Hh Hb. unfold is_spot_symbol.
    destruct (String.eqb_spec exchange_name "hyperliquid"); [done|].
    by destruct (String.eqb_spec exchange_name "backpack").
Qed.

End check_and_resolver.

Lemma is_spot_symbol_and_resolver_witness :
  @detect_market_type Scalars.runtime "SOL_USDC_SPOT" "backpack" = SPOT /\
  @is_spot_symbol Scalars.runtime "backpack" (VStr "SOL_USDC_SPOT") = Ok true.
Proof.
  split; [reflexivity|].
  apply (proj1 (@is_spot_symbol_and_resolver Scalars.runtime "SOL_USDC_SPOT")).
  reflexivity.
Defined.

(** The other direction fails on backpack: a symbol with both markers is
    perpetual for the resolver and spot for the check. *)
Example is_spot_symbol_backpack_both_markers :
  @detect_market_type Scalars.runtime "SPOT_PERP" "backpack" = PERPETUAL /\
  @is_spot_symbol Scalars.runtime "backpack" (VStr "SPOT_PERP") = Ok true.
Proof. split; reflexivity. Qed.

(** ** The translator: what is copied, what is defaulted, what is refused *)

Lemma optional_keys_fresh :
  Forall (fun k => k ∉ ["price_offset_grids"; "follow_distance"; "follow_timeout";
                        "follow_grid_count"; "upper_price"; "lower_price";
                        "price_decimals"; "quantity_precision"; "fee_rate";
                        "rest_position_query_interval"; "order_health_check_interval";
                        "order_health_check_enabled"; "enable_notifications";
                        "max_position"; "order_amount"; "grid_interval"; "grid_type";
                        "symbol"; "exchange"])
    optional_fields.*1.
Proof. apply (bool_decide_unpack _). vm_compute. exact I. Qed.

Section translator_more.
Context `{Runtime}.

Lemma to_int_Ok v p :
  to_int v = Ok p -> exists z, py_int v = Ok z /\ p = PRaw (VInt z).
Proof. unfold to_int. intros E. inv_bind E as z Ez. injection E as <-. eauto. Qed.

(** A successful [translate], split at the point where the optional
    fields are copied. *)
Lemma translate_inv (grid_config : gmap string value) (cfg : GridConfig) :
  translate grid_config = Ok cfg ->
  exists ps exchange symbol fee quantity_precision price_decimals,
    copy_optional optional_fields grid_config ps = Ok (params cfg) /\
    (forall k, k ∈ optional_fields.*1 -> ps !! k = None) /\
    grid_config !! "exchange" = Some exchange /\
    ps !! "exchange" = Some (PRaw exchange) /\
    grid_config !! "symbol" = Some symbol /\
    ps !! "symbol" = Some (PRaw symbol) /\
    ps !! "enable_notifications"
      = Some (PRaw (default (VBool false) (grid_config !! "enable_notifications"))) /\
    ps !! "order_health_check_enabled"
      = Some (PRaw (default (VBool true) (grid_config !! "order_health_check_enabled"))) /\
    ps !! "order_health_check_interval"
      = Some (PRaw (default (VInt 600) (grid_config !! "order_health_check_interval"))) /\
    ps !! "rest_position_query_interval"
      = Some (PRaw (default (VInt 1) (grid_config !! "rest_position_query_interval"))) /\
    py_Decimal (py_str (default (VStr "0.0001") (grid_config !! "fee_rate"))) = Ok fee /\
    ps !! "fee_rate" = Some (PDecimal fee) /\
    py_int (default (VInt 3) (grid_config !! "quantity_precision")) = Ok quantity_precision /\
    ps !! "quantity_precision" = Some (PRaw (VInt quantity_precision)) /\
    py_int (default (VInt 2) (grid_config !! "price_decimals")) = Ok price_decimals /\
    ps !! "price_decimals" = Some (PRaw (VInt price_decimals)).
Proof.
  unfold translate. intros E.
  inv_bind E as gt Egt.
  inv_bind E as g Eg.
  inv_bind E as exchange Eexchange.
  inv_bind E as symbol Esymbol.
  inv_bind E as gi Egi.
  inv_bind E as grid_interval Egrid_interval.
  inv_bind E as oa Eoa.
  inv_bind E as order_amount Eorder_amount.
  inv_bind E as max_position Emp.
  inv_bind E as fee_rate Efee_rate.
  inv_bind E as quantity_precision Eqp.
  inv_bind E as price_decimals Epd.
  inv_bind E as ps Ebranch.
  inv_bind E as ps' Eopt.
  injection E as <-. cbn [params].
  apply to_decimal_Ok in Efee_rate as (fee & Hfee & ->).
  apply to_int_Ok in Eqp as (qp & Hqp & ->).
  apply to_int_Ok in Epd as (pd & Hpd & ->).
  unfold item, getitem in Eexchange, Esymbol.
  destruct (grid_config !! "exchange") as [ex|] eqn:Hex; [|discriminate].
  destruct (grid_config !! "symbol") as [sy|] eqn:Hsy; [|discriminate].
  injection Eexchange as ->. injection Esymbol as ->.
  exists ps, exchange, symbol, fee, qp, pd.
  split; [done|].
  assert (Hbranch : exists front : gmap string param,
            ps = front /\
            (forall k, k ∈ optional_fields.*1 -> front !! k = None) /\
            front !! "exchange" = Some (PRaw exchange) /\
            front !! "symbol" = Some (PRaw symbol) /\
            front !! "enable_notifications"
              = Some (PRaw (default (VBool false) (grid_config !! "enable_notifications"))) /\
            front !! "order_health_check_enabled"
              = Some (PRaw (default (VBool true)
                              (grid_config !! "order_health_check_enabled"))) /\
            front !! "order_health_check_interval"
              = Some (PRaw (default (VInt 600)
                              (grid_config !! "order_health_check_interval"))) /\
            front !! "rest_position_query_interval"
              = Some (PRaw (default (VInt 1)
                              (grid_config !! "rest_position_query_interval"))) /\
            front !! "fee_rate" = Some (PDecimal fee) /\
            front !! "quantity_precision" = Some (PRaw (VInt qp)) /\
            front !! "price_decimals" = Some (PRaw (VInt pd))).
  { destruct (is_follow g).
    - inv_bind Ebranch as n En. injection Ebranch as <-.
      eexists. split; [reflexivity|]. split.
      + intros k Hk.
        pose proof (proj1 (Forall_forall _ _) optional_keys_fresh k Hk) as Hfresh.
        repeat (rewrite lookup_insert_ne;
                [|intros <-; apply Hfresh; apply (bool_decide_unpack _);
                  vm_compute; exact I]).
        apply lookup_empty.
      + repeat match goal with |- _ /\ _ => split end;
          by rewrite ?lookup_insert_eq; rewrite ?lookup_insert_ne by done;
             rewrite ?lookup_insert_eq.
    - inv_bind Ebranch as pr Epr.
      inv_bind Ebranch as lo Elo.
      inv_bind Ebranch as lower_price Elower.
      inv_bind Ebranch as pr' Epr'.
      inv_bind Ebranch as hi Ehi.
      inv_bind Ebranch as upper_price Eupper.
      injection Ebranch as <-.
      eexists. split; [reflexivity|]. split.
      + intros k Hk.
        pose proof (proj1 (Forall_forall _ _) optional_keys_fresh k Hk) as Hfresh.
        repeat (rewrite lookup_insert_ne;
                [|intros <-; apply Hfresh; apply (bool_decide_unpack _);
                  vm_compute; exact I]).
        apply lookup_empty.
      + repeat match goal with |- _ /\ _ => split end;
          by rewrite ?lookup_insert_eq; rewrite ?lookup_insert_ne by done;
             rewrite ?lookup_insert_eq. }
  destruct Hbranch as (front & -> & Hnone & Hrest).
  split; [done|]. split; [done|]. split; [apply Hrest|]. split; [done|].
  destruct Hrest as (_ & ? & ? & ? & ? & ? & ? & ? & ?).
  repeat match goal with |- _ /\ _ => split end; done.
Qed.

(** What [copy_optional] leaves under a key of its table. *)
Lemma copy_optional_at fields (grid_config : gmap string value)
    (ps ps' : gmap string param) (k : string) (c : conv) :
  NoDup fields.*1 ->
  (k, c) ∈ fields ->
  copy_optional fields grid_config ps = Ok ps' ->
  match grid_config !! k with
  | None => ps' !! k = ps !! k
  | Some v => exists p, convert c v = Ok p /\ ps' !! k = Some p
  end.
Proof.
  destruct (grid_config !! k) as [v|] eqn:Hk.
  - revert ps. induction fields as [|[k' c'] rest IH]; intros ps Hnd Hin E.
    { by apply elem_of_nil in Hin. }
    simpl in Hnd. apply NoDup_cons in Hnd as [Hfresh Hnd].
    apply elem_of_cons in Hin as [[= <- <-]|Hin]; simpl in E.
    + rewrite Hk in E. inv_bind E as p Ep. exists p. split; [done|].
      rewrite (copy_optional_lookup rest grid_config _ _ k Hfresh E).
      apply lookup_insert_eq.
    + destruct (grid_config !! k') as [v'|]; [|by apply (IH ps)].
      inv_bind E as p' Ep'. by apply (IH _ Hnd Hin E).
  - revert ps. induction fields as [|[k' c'] rest IH]; intros ps Hnd Hin E.
    { by apply elem_of_nil in Hin. }
    simpl in Hnd. apply NoDup_cons in Hnd as [Hfresh Hnd].
    apply elem_of_cons in Hin as [[= <- <-]|Hin]; simpl in E.
    + rewrite Hk in E.
      apply (copy_optional_lookup rest grid_config _ _ k Hfresh E).
    + assert (k <> k') as Hne.
      { intros ->. apply Hfresh. apply list_elem_of_fmap. by exists (k', c). }
      destruct (grid_config !! k') as [v'|]; [|by apply (IH ps)].
      inv_bind E as p' Ep'. rewrite (IH _ Hnd Hin E).
      by rewrite lookup_insert_ne.
Qed.

Lemma optional_fields_NoDup : NoDup optional_fields.*1.
Proof. apply (bool_decide_unpack _). vm_compute. exact I. Qed.

(** X3: an optional field of the document is carried into the
    parameters exactly when the document has it: with the key absent the
    parameters do not have it either (the collaborator's default
    applies), with the key present they hold its value, converted as the
    table says (copied, or through Decimal, int or str). *)
Theorem optional_fields_copied_when_present config_data grid_config cfg k c :
  getitem config_data "grid_system" = Ok (VDict grid_config) ->
  create_grid_config config_data = Ok cfg ->
  (k, c) ∈ optional_fields ->
  match grid_config !! k with
  | None => params cfg !! k = None
  | Some v => exists p, convert c v = Ok p /\ params cfg !! k = Some p
  end.
Proof.
  intros Hgs E Hin. unfold create_grid_config in E. rewrite Hgs in E. simpl in E.
  apply translate_inv in E as (ps & _ & _ & _ & _ & _ & Hopt & Hnone & _).
  pose proof (copy_optional_at _ _ _ _ k c optional_fields_NoDup Hin Hopt) as Hat.
  destruct (grid_config !! k); [done|].
  rewrite Hat. apply Hnone. apply list_elem_of_fmap. by exists (k, c).
Qed.

(** X4: the parameters every grid carries. The exchange and the symbol
    are the document's, unchanged; notifications are off, the order
    health check is on, its interval is 600 and the position query
    interval is 1 unless the document says otherwise; the fee rate is the
    decimal of the document's value, of "0.0001" without one; the
    quantity precision and the price decimals are the integers of the
    document's values, of 3 and 2 without them. *)
Theorem create_grid_config_defaults config_data grid_config cfg :
  getitem config_data "grid_system" = Ok (VDict grid_config) ->
  create_grid_config config_data = Ok cfg ->
  (exists exchange symbol,
     grid_config !! "exchange" = Some exchange /\
     grid_config !! "symbol" = Some symbol /\
     params cfg !! "exchange" = Some (PRaw exchange) /\
     params cfg !! "symbol" = Some (PRaw symbol)) /\
  params cfg !! "enable_notifications"
    = Some (PRaw (default (VBool false) (grid_config !! "enable_notifications"))) /\
  params cfg !! "order_health_check_enabled"
    = Some (PRaw (default (VBool true) (grid_config !! "order_health_check_enabled"))) /\
  params cfg !! "order_health_check_interval"
    = Some (PRaw (default (VInt 600) (grid_config !! "order_health_check_interval"))) /\
  params cfg !! "rest_position_query_interval"
    = Some (PRaw (default (VInt 1) (grid_config !! "rest_position_query_interval"))) /\
  (exists fee,
     py_Decimal (py_str (default (VStr "0.0001") (grid_config !! "fee_rate"))) = Ok fee /\
     params cfg !! "fee_rate" = Some (PDecimal fee)) /\
  (exists quantity_precision price_decimals,
     py_int (default (VInt 3) (grid_config !! "quantity_precision"))
       = Ok quantity_precision /\
     py_int (default (VInt 2) (grid_config !! "price_decimals")) = Ok price_decimals /\
     params cfg !! "quantity_precision" = Some (PRaw (VInt quantity_precision)) /\
     params cfg !! "price_decimals" = Some (PRaw (VInt price_decimals))).
Proof.
  intros Hgs E. unfold create_grid_config in E. rewrite Hgs in E. simpl in E.
  apply translate_inv in E
    as (ps & exchange & symbol & fee & qp & pd & Hopt & _ & Hex & Hpex & Hsy & Hpsy
        & Hn & Hh & Hi & Hq & Hfee & Hpfee & Hqp & Hpqp & Hpd & Hppd).
  assert (Hkeep : forall k,
            k ∈ ["exchange"; "symbol"; "enable_notifications";
                 "order_health_check_enabled"; "order_health_check_interval";
                 "rest_position_query_interval"; "fee_rate"; "quantity_precision";
                 "price_decimals"] ->
            params cfg !! k = ps !! k).
  { intros k Hk. apply (copy_optional_lookup optional_fields grid_config _ _ k);
      [|done].
    intros Ho. revert Hk.
    pose proof (proj1 (Forall_forall _ _) optional_keys_fresh k Ho) as Hfresh.
    intros Hk. apply Hfresh.
    repeat (apply elem_of_cons in Hk as [->|Hk];
            [apply (bool_decide_unpack _); vm_compute; exact I|]).
    by apply elem_of_nil in Hk. }
  rewrite !Hkeep by (apply (bool_decide_unpack _); vm_compute; exact I).
  split; [by exists exchange, symbol|].
  do 4 (split; [done|]).
  split; [by exists fee|]. by exists qp, pd.
Qed.

Lemma bind_of_Ok {A B} (r : result A) (k : A -> result B) (a : A) :
  r = Ok a -> r ≫= k = k a.
Proof. by intros ->. Qed.

Lemma bind_of_Raise {A B} (r : result A) (k : A -> result B) (e : exn) :
  r = Raise e -> r ≫= k = Raise e.
Proof. by intros ->. Qed.

Lemma GridType_of_unknown v :
  (forall g, v <> VStr (GridType_value g)) -> GridType_of v = Raise ValueError.
Proof.
  intros Hv. destruct (GridType_of v) as [g|e] eqn:E.
  - apply GridType_of_Ok in E. by destruct (Hv g).
  - destruct v as [| | | |s| |]; try (simpl in E; by injection E as <-).
    unfold GridType_of in E.
    destruct (List.find _ GridType_members); [discriminate|]. by injection E as <-.
Qed.

(** X5: a document whose grid-type tag is not the value of a member of
    [GridType] is refused with ValueError, whatever its other fields
    hold: the tag is the first field the translator reads. *)
Theorem create_grid_config_unknown_grid_type config_data grid_config v :
  getitem config_data "grid_system" = Ok (VDict grid_config) ->
  grid_config !! "grid_type" = Some v ->
  (forall g, v <> VStr (GridType_value g)) ->
  create_grid_config config_data = Raise ValueError.
Proof.
  intros Hgs Hgt Hv. unfold create_grid_config.
  rewrite (bind_of_Ok _ _ _ Hgs). unfold translate.
  rewrite (bind_of_Ok (item grid_config "grid_type") _ v)
    by (unfold item, getitem; by rewrite Hgt).
  apply bind_of_Raise. by apply GridType_of_unknown.
Qed.

End translator_more.

Lemma optional_fields_copied_when_present_witness :
  match @create_grid_config Scalars.runtime
          (Samples.document
             (<["leverage" := VStr "5"]> (Samples.grid_system "lighter" "BTC" "long")))
  with
  | Ok cfg =>
      ("leverage", ToInt) ∈ optional_fields /\
      exists p, @convert Scalars.runtime ToInt (VStr "5") = Ok p /\
                params cfg !! "leverage" = Some p
  | Raise _ => False
  end.
Proof.
  assert (Hin : ("leverage", ToInt) ∈ optional_fields).
  { unfold optional_fields.
    repeat first [apply list_elem_of_here | apply list_elem_of_further]. }
  destruct (@create_grid_config Scalars.runtime _) as [cfg|e] eqn:E.
  - split; [exact Hin|].
    exact (@optional_fields_copied_when_present Scalars.runtime
             (Samples.document
                (<["leverage" := VStr "5"]> (Samples.grid_system "lighter" "BTC" "long")))
             (<["leverage" := VStr "5"]> (Samples.grid_system "lighter" "BTC" "long"))
             cfg "leverage" ToInt eq_refl E Hin).
  - vm_compute in E. discriminate E.
Defined.

Lemma create_grid_config_defaults_witness :
  match @create_grid_config Scalars.runtime
          (Samples.document (Samples.grid_system "lighter" "BTC" "long"))
  with
  | Ok cfg =>
      params cfg !! "order_health_check_enabled" = Some (PRaw (VBool true)) /\
      params cfg !! "order_health_check_interval" = Some (PRaw (VInt 600))
  | Raise _ => False
  end.
Proof.
  destruct (@create_grid_config Scalars.runtime _) as [cfg|e] eqn:E.
  - pose proof (@create_grid_config_defaults Scalars.runtime
                  (Samples.document (Samples.grid_system "lighter" "BTC" "long"))
                  (Samples.grid_system "lighter" "BTC" "long") cfg eq_refl E)
      as (_ & _ & Henabled & Hinterval & _).
    split; [exact Henabled|exact Hinterval].
  - vm_compute in E. discriminate E.
Defined.

Lemma create_grid_config_unknown_grid_type_witness :
  @create_grid_config Scalars.runtime
    (Samples.document (Samples.grid_system "backpack" "SOL_PERP" "neutral"))
  = Raise ValueError.
Proof.
  apply (@create_grid_config_unknown_grid_type Scalars.runtime _
           (Samples.grid_system "backpack" "SOL_PERP" "neutral") (VStr "neutral")).
  - reflexivity.
  - reflexivity.
  - by intros [].
Defined.

Example optional_fields_sample :
  (cfg ← @create_grid_config Scalars.runtime
          (Samples.document
             (<["leverage" := VStr "5"]> (Samples.grid_system "lighter" "BTC" "long")));
   Ok (params cfg !! "leverage", params cfg !! "margin_mode", params cfg !! "fee_rate"))
  = Ok (Some (PRaw (VInt 5)), None, Some (PDecimal (DFinite false 1 (-4)))).
Proof. vm_compute. reflexivity. Qed.

(** ** Credentials and the exchange configuration: failures and flags *)

(** When the [try] that reads the per-exchange file ends by an
    exception, no credential has been changed. *)
Lemma complete_from_file_failed files exchange_name c c' e :
  truthy (cred_api_key c) && truthy (cred_api_secret c) = false ->
  complete_from_file files exchange_name c = (c', Some e) ->
  c' = c /\
  (files (exchange_config_path exchange_name) = Unreadable e \/ e = AttributeError).
Proof.
  intros Hgate. unfold complete_from_file.
  destruct c as [k s w]. simpl in Hgate |- *.
  destruct (files _) as [|e0|doc]; [discriminate| |].
  { intros [= <- <-]. by split; [|left]. }
  destruct (get doc exchange_name (VDict ∅)) as [section|e0] eqn:Hsection; simpl.
  2: { destruct doc; try discriminate; simpl in Hsection; injection Hsection as <-;
       intros [= <- <-]; by split; [|right]. }
  destruct (get section "authentication" (VDict ∅)) as [auth|e0] eqn:Hauth; simpl.
  2: { destruct section; try discriminate; simpl in Hauth; injection Hauth as <-;
       intros [= <- <-]; by split; [|right]. }
  unfold or_else.
  destruct (String.eqb exchange_name "hyperliquid").
  { destruct auth; simpl; destruct (truthy k) eqn:Hk, (truthy s) eqn:Hs, (truthy w);
      simpl in *; try discriminate; intros [= <- <-]; by split; [|right]. }
  destruct (String.eqb exchange_name "lighter").
  { destruct (get doc "api_config" (VDict ∅)) as [api_config|e0] eqn:Hapi; simpl.
    2: { destruct doc; try discriminate; simpl in Hapi; injection Hapi as <-;
         intros [= <- <-]; by split; [|right]. }
    destruct (get api_config "auth" (VDict ∅)) as [auth'|e0] eqn:Hauth'; simpl.
    2: { destruct api_config; try discriminate; simpl in Hauth'; injection Hauth' as <-;
         intros [= <- <-]; by split; [|right]. }
    destruct auth'; simpl; destruct (truthy k) eqn:Hk, (truthy s) eqn:Hs, (truthy w);
      simpl in *; try discriminate; intros [= <- <-]; by split; [|right]. }
  destruct auth as [| | | | | |a]; simpl;
    destruct (truthy k) eqn:Hk, (truthy s) eqn:Hs, (truthy w) eqn:Hw;
    simpl in *; rewrite ?Hs; simpl; try discriminate;
    try (intros [= <- <-]; by split; [|right]).
  all: destruct (truthy (default (VStr "") (a !! "private_key"))); simpl; discriminate.
Qed.

Lemma get_Raise v k dflt e : get v k dflt = Raise e -> e = AttributeError.
Proof. destruct v; simpl; by intros [= <-]. Qed.

Section bootstrap_facts.
Context `{Runtime}.

(** X6: a per-exchange credentials file that cannot be read, or that
    does not hold mappings where the runner looks, never fails the
    startup: the exception is caught, and the credentials stay exactly as
    the environment gave them. Only an exception that is not an
    [Exception], raised while the file is read, leaves the function; and
    without a file the credentials are the environment's. *)
Theorem resolve_credentials_file_failure environ files exchange_name :
  (forall c e,
     resolve_credentials environ files exchange_name = Ok (c, Some e) ->
     c = env_credentials environ exchange_name /\ is_Exception e = true) /\
  (forall e,
     resolve_credentials environ files exchange_name = Raise e ->
     is_Exception e = false /\
     files (exchange_config_path exchange_name) = Unreadable e) /\
  (files (exchange_config_path exchange_name) = Absent ->
   resolve_credentials environ files exchange_name
     = Ok (env_credentials environ exchange_name, None)).
Proof.
  unfold resolve_credentials.
  set (env := env_credentials environ exchange_name).
  destruct (negb (truthy (cred_api_key env)) || negb (truthy (cred_api_secret env)))
    eqn:Hgate.
  - assert (Hgate' : truthy (cred_api_key env) && truthy (cred_api_secret env) = false)
      by (by destruct (truthy (cred_api_key env)), (truthy (cred_api_secret env))).
    destruct (complete_from_file files exchange_name env) as [c' [e'|]] eqn:E.
    + destruct (complete_from_file_failed _ _ _ _ _ Hgate' E) as [-> Hwhy].
      destruct (is_Exception e') eqn:He.
      * split; [by intros c e [= <- <-]|]. split; [done|].
        intros Habs. unfold complete_from_file in E. rewrite Habs in E. discriminate.
      * split; [done|]. split.
        -- intros e [= <-]. split; [done|]. by destruct Hwhy as [?| ->].
        -- intros Habs. unfold complete_from_file in E. rewrite Habs in E. discriminate.
    + split; [done|]. split; [done|].
      intros Habs. unfold complete_from_file in E. rewrite Habs in E.
      by injection E as <-.
  - by repeat split.
Qed.

End bootstrap_facts.

Lemma resolve_credentials_file_failure_witness :
  let files := fun _ : string => Unreadable YAMLError in
  @resolve_credentials Scalars.runtime (fun _ => None) files "backpack"
    = Ok (@env_credentials Scalars.runtime (fun _ => None) "backpack", Some YAMLError) /\
  @env_credentials Scalars.runtime (fun _ => None) "backpack"
    = @env_credentials Scalars.runtime (fun _ => None) "backpack" /\
  is_Exception YAMLError = true.
Proof.
  cbv zeta. split; [reflexivity|].
  apply (proj1 (@resolve_credentials_file_failure Scalars.runtime (fun _ => None)
                  (fun _ => Unreadable YAMLError) "backpack")).
  reflexivity.
Defined.

Section exchange_config_facts.
Context `{Runtime}.

(** X7: every exchange configuration the runner builds enables the
    websocket and the automatic reconnection and carries the market type
    it was built for; its api_key and api_secret are never None (each is
    the empty text or a truthy value); outside lighter the testnet flag is
    off, the identifier is the exchange name and the wallet address is
    passed on as resolved; building it fails only by an exception that is
    not an [Exception], raised while the lighter file is read. *)
Theorem make_exchange_config_flags files exchange_name market_type c :
  (forall cfg warned,
     make_exchange_config files exchange_name market_type c = Ok (cfg, warned) ->
     enable_websocket cfg = true /\
     enable_auto_reconnect cfg = true /\
     exchange_type cfg = market_type /\
     (api_key cfg = VStr "" \/ truthy (api_key cfg) = true) /\
     (api_secret cfg = VStr "" \/ truthy (api_secret cfg) = true) /\
     (exchange_name <> "lighter" ->
      testnet cfg = VBool false /\ exchange_id cfg = exchange_name /\
      wallet_address cfg = Some (cred_wallet_address c))) /\
  (forall e,
     make_exchange_config files exchange_name market_type c = Raise e ->
     is_Exception e = false /\ exchange_name = "lighter" /\
     files "config/exchanges/lighter_config.yaml" = Unreadable e).
Proof.
  unfold make_exchange_config.
  destruct (String.eqb_spec exchange_name "lighter") as [->|Hne].
  - destruct (files _) as [|e0|doc] eqn:Hfile.
    + split; [|done]. intros cfg warned [= <- <-]. simpl. by repeat split; auto.
    + destruct (is_Exception e0) eqn:He.
      * split; [|done]. intros cfg warned [= <- <-]. simpl. by repeat split; auto.
      * split; [done|]. by intros e [= <-].
    + destruct (get doc "api_config" (VDict ∅)) as [api_config|e0] eqn:Hapi; simpl.
      * destruct (get api_config "testnet" (VBool false)) as [t|e0] eqn:Ht; simpl.
        -- split; [|done]. intros cfg warned [= <- <-]. simpl. by repeat split; auto.
        -- apply get_Raise in Ht as ->. simpl.
           split; [|done]. intros cfg warned [= <- <-]. simpl.
           by repeat split; auto.
      * apply get_Raise in Hapi as ->. simpl.
        split; [|done]. intros cfg warned [= <- <-]. simpl.
        by repeat split; auto.
  - split; [|done]. intros cfg warned [= <- <-]. simpl.
    split; [done|]. split; [done|]. split; [done|].
    unfold py_or.
    split; [destruct (truthy (cred_api_key c)) eqn:Hk; auto|].
    split; [destruct (truthy (cred_api_secret c)) eqn:Hs; auto|].
    done.
Qed.

End exchange_config_facts.

Lemma make_exchange_config_flags_witness :
  let c := {| cred_api_key := VNone; cred_api_secret := VStr "s";
              cred_wallet_address := VNone |} in
  let cfg := {| exchange_id := "backpack"; name := "Backpack"; exchange_type := PERPETUAL;
                api_key := VStr ""; api_secret := VStr "s";
                wallet_address := Some VNone; testnet := VBool false;
                enable_websocket := true; enable_auto_reconnect := true |} in
  @make_exchange_config Scalars.runtime (fun _ => Absent) "backpack" PERPETUAL c
    = Ok (cfg, None) /\
  enable_websocket cfg = true.
Proof.
  cbv zeta. split; [reflexivity|].
  apply (proj1 (@make_exchange_config_flags Scalars.runtime (fun _ => Absent)
                  "backpack" PERPETUAL
                  {| cred_api_key := VNone; cred_api_secret := VStr "s";
                     cred_wallet_address := VNone |}) _ None).
  reflexivity.
Defined.

(** ** The statistics loop: what leaves it and in which order it works *)

Lemma cycle_body_escape c evs e :
  cycle_body c = (evs, Some e) ->
  is_Exception e = false /\
  (sleep_outcome c = Some e \/ statistics_outcome c = Some e \/
   report_outcome c = Some e).
Proof.
  unfold cycle_body, guarded.
  destruct (sleep_outcome c) as [e1|].
  { destruct (is_Exception e1) eqn:He; [discriminate|]. intros [= _ <-]. auto. }
  destruct (negb (coordinator_set c)); [discriminate|].
  destruct (statistics_outcome c) as [e2|].
  { destruct (is_Exception e2) eqn:He; [discriminate|]. intros [= _ <-]. auto. }
  destruct (report_outcome c) as [e3|]; [|discriminate].
  destruct (is_Exception e3) eqn:He; [discriminate|]. intros [= _ <-]. auto.
Qed.

(** X8: no [Exception] ever leaves the statistics task. An exception
    that ends the task is not an [Exception] (it is the cancellation, or
    an interrupt) and was raised by the sleep, by the read of the
    statistics or by the report of one of the cycles. *)
Theorem print_statistics_escape running cycles e :
  (print_statistics running cycles).2 = Propagated e ->
  is_Exception e = false /\
  exists c, c ∈ cycles /\
    (sleep_outcome c = Some e \/ statistics_outcome c = Some e \/
     report_outcome c = Some e).
Proof.
  revert running. induction cycles as [|c rest IH]; intros running.
  - by destruct running.
  - destruct running; [|done].
    simpl. destruct (cycle_body c) as [evs [e'|]] eqn:E.
    + simpl. intros [= <-]. apply cycle_body_escape in E as [He Hc].
      split; [done|]. exists c. split; [apply list_elem_of_here|done].
    + specialize (IH (running_next c)).
      destruct (print_statistics (running_next c) rest) as [evs' r]. simpl in *.
      intros Hr. destruct (IH Hr) as (He & c' & Hin & Hc').
      split; [done|]. exists c'. split; [by apply list_elem_of_further|done].
Qed.

Lemma print_statistics_escape_witness :
  let cancelled := {| sleep_outcome := Some CancelledError; coordinator_set := true;
                      statistics_outcome := None; report_outcome := None;
                      running_next := true |} in
  (print_statistics true [Samples.early_cycle; cancelled]).2 = Propagated CancelledError /\
  is_Exception CancelledError = false.
Proof.
  cbv zeta. split; [reflexivity|].
  exact (proj1 (print_statistics_escape true
                  [Samples.early_cycle;
                   {| sleep_outcome := Some CancelledError; coordinator_set := true;
                      statistics_outcome := None; report_outcome := None;
                      running_next := true |}] CancelledError eq_refl)).
Defined.

(** ** Invariants of the runner along a piece of code *)

Section keeps.
Context {I : runner -> Prop} {P : call -> Prop}.

Lemma keeps_weaken {A} (R R' : A -> Prop) (m : act A) :
  (forall a, R a -> R' a) -> keeps I P R m -> keeps I P R' m.
Proof.
  intros HR Hm st HI. destruct (Hm st HI) as (? & ? & Hr). repeat split; auto.
Qed.

Lemma keeps_ret {A} (R : A -> Prop) (a : A) : R a -> keeps I P R (mret a).
Proof.
  intros Ha st HI. split; [done|]. split; [constructor|]. by intros a' [= <-].
Qed.

Lemma keeps_raise {A} (R : A -> Prop) (e : exn) : keeps I P R (raise e).
Proof. intros st HI. split; [done|]. split; [constructor|]. done. Qed.

Lemma keeps_block {A} (R : A -> Prop) : keeps I P R block.
Proof. intros st HI. split; [done|]. split; [constructor|]. done. Qed.

Lemma keeps_read : keeps I P I read.
Proof.
  intros st HI. split; [done|]. split; [constructor|]. by intros a [= <-].
Qed.

Lemma keeps_modify f :
  (forall st, I st -> I (f st)) -> keeps I P (fun _ => True) (modify f).
Proof. intros Hf st HI. split; [by apply Hf|]. split; [constructor|]. done. Qed.

Lemma keeps_lift {A} (r : result A) : keeps I P (fun a => r = Ok a) (lift r).
Proof.
  intros st HI. destruct r as [a|e]; (split; [done|]); (split; [constructor|]).
  - by intros a' [= <-].
  - done.
Qed.

Lemma keeps_emit c : P c -> keeps I P (fun _ => True) (emit c).
Proof. intros Hc st HI. split; [done|]. split; [by repeat constructor|]. done. Qed.

Lemma keeps_bind {A B} (R1 : A -> Prop) (R2 : B -> Prop) (m : act A) (k : A -> act B) :
  keeps I P R1 m -> (forall a, R1 a -> keeps I P R2 (k a)) -> keeps I P R2 (m ≫= k).
Proof.
  intros Hm Hk st HI. destruct (Hm st HI) as (HI' & Ht & Hr).
  unfold mbind, act_bind, state_of, trace_of, reply_of in *.
  destruct (m st) as [[[a|e|] st'] t]; simpl in *; try done.
  destruct (Hk a (Hr a eq_refl) st' HI') as (HI'' & Ht' & Hr').
  unfold state_of, trace_of, reply_of in *.
  destruct (k a st') as [[r st''] t']; simpl in *.
  split; [done|]. split; [by apply Forall_app|]. done.
Qed.

Lemma keeps_perform {A} c (o : outcome A) :
  P c -> keeps I P (fun _ => True) (perform c o).
Proof.
  intros Hc. eapply keeps_bind; [by apply keeps_emit|]. intros _ _.
  destruct o; [by apply keeps_ret|apply keeps_raise|apply keeps_block].
Qed.

Lemma keeps_try_except {A} (R : A -> Prop) (m : act A) (handler : exn -> act A) :
  keeps I P R m -> (forall e, keeps I P R (handler e)) ->
  keeps I P R (try_except m handler).
Proof.
  intros Hm Hh st HI. destruct (Hm st HI) as (HI' & Ht & Hr).
  unfold try_except, state_of, trace_of, reply_of in *.
  destruct (m st) as [[[a|e|] st'] t]; simpl in *; try done.
  destruct (is_Exception e); [|done].
  destruct (Hh e st' HI') as (HI'' & Ht' & Hr').
  unfold state_of, trace_of, reply_of in *.
  destruct (handler e st') as [[r st''] t']; simpl in *.
  split; [done|]. split; [by apply Forall_app|]. done.
Qed.

Lemma keeps_swallow_cancelled (m : act unit) :
  keeps I P (fun _ => True) m -> keeps I P (fun _ => True) (swallow_cancelled m).
Proof.
  intros Hm st HI. destruct (Hm st HI) as (HI' & Ht & Hr).
  unfold swallow_cancelled, state_of, trace_of, reply_of in *.
  by destruct (m st) as [[[a|[]|] st'] t].
Qed.

Lemma keeps_try_finally {A} (R : A -> Prop) (R' : unit -> Prop)
    (m : act A) (fin : act unit) :
  keeps I P R m -> keeps I P R' fin -> keeps I P R (try_finally m fin).
Proof.
  intros Hm Hf st HI. destruct (Hm st HI) as (HI' & Ht & Hr).
  unfold try_finally, state_of, trace_of, reply_of in *.
  destruct (m st) as [[[a|e|] st'] t]; simpl in *; try done.
  all: destruct (Hf st' HI') as (HI'' & Ht' & _).
  all: unfold state_of, trace_of, reply_of in *.
  all: destruct (fin st') as [[[[]|e'|] st''] t']; simpl in *.
  all: split; [done|]; split; [by apply Forall_app|]; done.
Qed.

Lemma keeps_deliver signums :
  (forall st, I st -> I (set_shutdown_event st)) -> P (Log INFO "signal") ->
  keeps I P (fun _ => True) (deliver signums).
Proof.
  intros HI Hs. induction signums as [|n rest IH]; simpl.
  - by apply keeps_ret.
  - eapply keeps_bind; [|by intros _ _].
    eapply keeps_bind; [by apply keeps_emit|]. intros _ _.
    by apply keeps_modify.
Qed.

Lemma keeps_mapM {A B} (f : A -> act B) (l : list A) :
  (forall a, keeps I P (fun _ => True) (f a)) ->
  keeps I P (fun _ => True) (mapM f l).
Proof.
  intros Hf. induction l as [|a l IH]; simpl.
  - by apply keeps_ret.
  - eapply keeps_bind; [apply Hf|]. intros b _.
    eapply keeps_bind; [apply IH|]. intros bs _. by apply keeps_ret.
Qed.

End keeps.

(** One step through a piece of the runner whose values do not matter. *)
Ltac keeps_step :=
  first
    [ apply keeps_raise | apply keeps_block
    | apply keeps_ret; exact I
    | apply keeps_modify
    | apply keeps_perform | apply keeps_emit
    | apply keeps_deliver
    | apply keeps_swallow_cancelled
    | apply keeps_mapM; intros ?
    | apply keeps_try_except; [|intros ?]
    | eapply keeps_weaken; [|apply keeps_lift]; [intros ? ?; exact I]
    | eapply keeps_weaken; [|apply keeps_read]; [intros ? ?; exact I]
    | eapply (keeps_bind (fun _ => True)); [|intros ? _]
    | match goal with
      | |- keeps _ _ _ (if ?b then _ else _) => destruct b
      | |- keeps _ _ _ (match ?x with _ => _ end) => destruct x
      end ].

(** ** The cleanup sequence *)

(** X9: the cleanup-on-exit hook is fault-isolated. When it raises an
    [Exception] and the later steps succeed, the cleanup logs the
    failure, still stops the coordinator, stops the reserve monitor if
    there is one, disconnects the exchange if there is one, and
    returns. *)
Theorem cleanup_hook_isolated w st e :
  is_Some (coordinator st) ->
  cleanup_on_exit_outcome w = Raises e ->
  is_Exception e = true ->
  coordinator_stop_outcome w = Returns tt ->
  monitor_stop_outcome w = Returns tt ->
  disconnect_outcome w = Returns tt ->
  cleanup w st =
    (Done tt, set_running false st,
     [Log INFO "cleanup"; CleanupOnExit; Log ERROR "cleanup_on_exit failed";
      CoordinatorStop]
     ++ (if reserve_monitor st then [MonitorStop] else [])
     ++ (match exchange_adapter st with Some _ => [Disconnect] | None => [] end)).
Proof.
  intros [c Hc] Hhook He Hstop Hmon Hdis.
  unfold cleanup, perform, try_except, emit, modify, read, raise,
    mbind, act_bind, mret, act_ret.
  rewrite Hhook, Hstop, Hmon, Hdis.
  destruct st as [running event co [a|] [|]]; simpl in *; subst co;
    simpl; rewrite He; reflexivity.
Qed.

Lemma cleanup_hook_isolated_witness :
  let w := {| config_file := Raise OSError; environ := fun _ => None;
              files := fun _ => Absent; create_adapter_outcome := Returns tt;
              connect_outcome := Returns tt; build_outcome := fun _ => Returns tt;
              check_reserve_outcome := Returns true;
              early_disconnect_outcome := Returns tt;
              coordinator_start_outcome := Returns tt;
              monitor_start_outcome := Returns tt;
              signals_early := []; signals_waiting := []; signals_late := [];
              stats_await_outcome := Returns tt;
              cleanup_on_exit_outcome := Raises (CollaboratorError "cleanup_on_exit");
              coordinator_stop_outcome := Returns tt;
              monitor_stop_outcome := Returns tt;
              disconnect_outcome := Returns tt |} in
  is_Exception (CollaboratorError "cleanup_on_exit") = true /\
  trace_of (cleanup w Samples.started) =
    [Log INFO "cleanup"; CleanupOnExit; Log ERROR "cleanup_on_exit failed";
     CoordinatorStop; MonitorStop; Disconnect].
Proof.
  cbv zeta. split; [reflexivity|].
  rewrite (cleanup_hook_isolated _ Samples.started (CollaboratorError "cleanup_on_exit"));
    try reflexivity.
  by eexists.
Defined.

(** What a cleanup does to the runner and to its collaborators. *)
Lemma cleanup_keeps w :
  keeps (fun _ => True) teardown_call (fun _ => True) (cleanup w).
Proof.
  unfold cleanup.
  eapply (keeps_bind (fun _ => True)); [by apply keeps_emit|]. intros _ _.
  eapply (keeps_bind (fun _ => True)); [by apply keeps_modify|]. intros _ _.
  apply keeps_try_except; [|intros e; by apply keeps_emit].
  eapply (keeps_bind (fun _ => True)); [apply keeps_read|]. intros st _.
  eapply (keeps_bind (fun _ => True)).
  { destruct (bool_decide _); [|by apply keeps_ret].
    eapply (keeps_bind (fun _ => True)); [|intros _ _; by apply keeps_perform].
    apply keeps_try_except; [by apply keeps_perform|intros e; by apply keeps_emit]. }
  intros _ _. eapply (keeps_bind (fun _ => True)).
  { destruct (reserve_monitor st); [by apply keeps_perform|by apply keeps_ret]. }
  intros _ _. destruct (bool_decide _); [by apply keeps_perform|by apply keeps_ret].
Qed.

(** The state a piece of the runner ends in, when the piece is a
    [try ... except Exception] whose handler leaves the state alone. *)
Lemma cleanup_state w st : state_of (cleanup w st) = set_running false st.
Proof.
  assert (forall {A} c (o : outcome A) st0, state_of (perform c o st0) = st0) as Hp.
  { intros A c o st0. by destruct o. }
  unfold cleanup, try_except, emit, modify, read, state_of, mbind, act_bind,
    mret, act_ret in *.
  cbn [fst snd].
  destruct (bool_decide _), (reserve_monitor _), (bool_decide _);
    repeat match goal with
           | |- context [perform ?c ?o ?s] =>
               let E := fresh in
               pose proof (Hp _ c o s) as E;
               destruct (perform c o s) as [[[[]|?|] ?] ?]; cbn [fst snd] in *; subst
           | |- context [is_Exception ?e] => destruct (is_Exception e)
           end;
    reflexivity.
Qed.

Lemma reply_bind_Done {A B} (m : act A) (k : A -> act B) st a st1 t1 :
  m st = (Done a, st1, t1) -> reply_of ((m ≫= k) st) = reply_of (k a st1).
Proof.
  intros E. unfold mbind, act_bind, reply_of. rewrite E.
  by destruct (k a st1) as [[r st2] t2].
Qed.

(** What is caught and logged is every [Exception]. *)
Lemma try_except_log_raised (m : act unit) c st e :
  reply_of (try_except m (fun _ => emit c) st) = Raised e -> is_Exception e = false.
Proof.
  unfold try_except, reply_of. destruct (m st) as [[[a|e1|] st1] t1]; simpl; try done.
  destruct (is_Exception e1) eqn:He; simpl; [done|]. by intros [= <-].
Qed.

(** An exception that leaves the cleanup is not an [Exception]. *)
Lemma cleanup_raised w st e :
  reply_of (cleanup w st) = Raised e -> is_Exception e = false.
Proof.
  unfold cleanup.
  rewrite (reply_bind_Done _ _ _ tt st [Log INFO "cleanup"]) by reflexivity.
  rewrite (reply_bind_Done _ _ _ tt (set_running false st) []) by reflexivity.
  apply try_except_log_raised.
Qed.

(** What a cleanup does to the runner and how it ends. *)
Lemma cleanup_summary w st :
  state_of (cleanup w st) = set_running false st /\
  Forall teardown_call (trace_of (cleanup w st)) /\
  (reply_of (cleanup w st) = Blocked ->
   cleanup_on_exit_outcome w = Hangs \/ coordinator_stop_outcome w = Hangs \/
   monitor_stop_outcome w = Hangs \/ disconnect_outcome w = Hangs) /\
  (forall e, reply_of (cleanup w st) = Raised e -> is_Exception e = false).
Proof.
  split; [apply cleanup_state|].
  split; [by destruct (cleanup_keeps w st) as (_ & Ht & _)|].
  split; [apply cleanup_blocked|apply cleanup_raised].
Qed.

(** X10: the cleanup contains the failures of its steps. It clears the
    running flag and leaves the rest of the runner as it is; it makes
    only teardown calls; it stays blocked only in one of its awaited
    calls (the exit hook, the stops, the disconnect) that never returns;
    and an exception that leaves it is not an [Exception]. *)
Theorem cleanup_contains_exceptions w st :
  state_of (cleanup w st) = set_running false st /\
  Forall teardown_call (trace_of (cleanup w st)) /\
  (reply_of (cleanup w st) = Blocked ->
   cleanup_on_exit_outcome w = Hangs \/ coordinator_stop_outcome w = Hangs \/
   monitor_stop_outcome w = Hangs \/ disconnect_outcome w = Hangs) /\
  (forall e, reply_of (cleanup w st) = Raised e -> is_Exception e = false).
Proof. exact (cleanup_summary w st). Qed.

(** ** The two phases of a run *)

Section phases.
Context `{Runtime}.

Lemma startup_stops_nothing w :
  emits_only not_stopping_call
    (try_except (startup w) (fun e => emit (Log ERROR "system error");; raise e)).
Proof.
  unfold startup, load_config, create_exchange_adapter, wait_shutdown_event.
  emits; reflexivity.
Qed.

(** X11: a run has two phases. Its trace is the trace of the startup
    (and of the wait) followed by the trace of the cleanup: before the
    cleanup opens, the coordinator and the reserve monitor are never
    stopped and the cleanup hook is never called; once it has opened,
    nothing is built, connected or started any more. *)
Theorem run_phases w st :
  exists t1 t2,
    trace_of (run w st) = t1 ++ t2 /\
    Forall not_stopping_call t1 /\
    Forall teardown_call t2.
Proof.
  pose proof (startup_stops_nothing w st) as Hs.
  unfold run, try_finally, trace_of in *.
  destruct (try_except _ _ st) as [[r st'] t]. simpl in Hs.
  pose proof (cleanup_summary w st') as (_ & Hc & _).
  unfold trace_of in Hc.
  destruct r as [[]|e|].
  3: { exists t, []. rewrite app_nil_r. by repeat split. }
  all: destruct (cleanup w st') as [[[[]|e'|] st''] t']; simpl in *.
  all: by exists t, t'.
Qed.

End phases.

(** ** Runs that end before the exchange is connected *)

(** Stepping through a bind whose first part is known. *)
Lemma act_bind_Done {A B} (m : act A) (k : A -> act B) st a st1 t1 :
  m st = (Done a, st1, t1) ->
  (m ≫= k) st = (reply_of (k a st1), state_of (k a st1), t1 ++ trace_of (k a st1)).
Proof.
  intros E. unfold mbind, act_bind, reply_of, state_of, trace_of. rewrite E.
  by destruct (k a st1) as [[r st2] t2].
Qed.

Lemma act_bind_Raised {A B} (m : act A) (k : A -> act B) st e st1 t1 :
  m st = (Raised e, st1, t1) -> (m ≫= k) st = (Raised e, st1, t1).
Proof. intros E. unfold mbind, act_bind. by rewrite E. Qed.

Lemma lift_Ok {A} (r : result A) (a : A) st : r = Ok a -> lift r st = (Done a, st, []).
Proof. by intros ->. Qed.

Lemma lift_Raise {A} (r : result A) (e : exn) st :
  r = Raise e -> lift r st = (Raised e, st, []).
Proof. by intros ->. Qed.

Lemma Forall_signal_logs (P : call -> Prop) n :
  P (Log INFO "signal") -> Forall P (replicate n (Log INFO "signal")).
Proof. intros HP. induction n; simpl; by constructor. Qed.

(** The runner after the signals of the startup. *)
Lemma nothing_built_signalled (signums : list Z) :
  nothing_built (match signums with [] => init | _ => set_shutdown_event init end).
Proof. by destruct signums. Qed.

(** The cleanup of a runner that has built nothing only opens. *)
Lemma cleanup_nothing_built w st :
  nothing_built st ->
  cleanup w st = (Done tt, set_running false st, [Log INFO "cleanup"]).
Proof.
  intros (Hc & Ha & Hm). destruct st as [running event c a m]. simpl in *. by subst.
Qed.

Lemma emit_then_raise {A} c e st :
  (emit c ≫= fun _ => @raise A e) st = (Raised e, st, [c]).
Proof. reflexivity. Qed.

Section early_exits.
Context `{Runtime}.

(** The attributes the runner reads back from a translated
    configuration. *)
Lemma create_grid_config_attributes config_data grid_config cfg :
  getitem config_data "grid_system" = Ok (VDict grid_config) ->
  create_grid_config config_data = Ok cfg ->
  exists exchange symbol g,
    grid_config !! "exchange" = Some exchange /\
    grid_config !! "symbol" = Some symbol /\
    grid_config !! "grid_type" = Some (VStr (GridType_value g)) /\
    attribute cfg "exchange" = Ok exchange /\
    attribute cfg "symbol" = Ok symbol /\
    grid_type_of cfg = Ok g.
Proof.
  intros Hgs E. pose proof E as E'.
  unfold create_grid_config in E, E'. rewrite Hgs in E, E'.
  rewrite (bind_of_Ok _ _ (VDict grid_config)) in E, E' by done.
  apply translate_inv in E
    as (ps & exchange & symbol & _ & _ & _ & Hopt & _ & Hex & Hpex & Hsy & Hpsy & _).
  apply translate_Ok in E' as (g & mp & ps2 & Hg & _ & Hpg & _ & Hkeep & _).
  exists exchange, symbol, g. split; [done|]. split; [done|]. split; [done|].
  unfold attribute, grid_type_of.
  rewrite (copy_optional_lookup optional_fields grid_config ps (params cfg) "exchange")
    by (done || apply (bool_decide_unpack _); vm_compute; exact I).
  rewrite (copy_optional_lookup optional_fields grid_config ps (params cfg) "symbol")
    by (done || apply (bool_decide_unpack _); vm_compute; exact I).
  rewrite Hpex, Hpsy.
  rewrite Hkeep by (apply (bool_decide_unpack _); vm_compute; exact I).
  by rewrite Hpg.
Qed.

Lemma load_config_Ok w config_data st :
  config_file w = Ok config_data -> load_config w st = (Done config_data, st, []).
Proof. intros E. unfold load_config, try_except. by rewrite (lift_Ok _ _ _ E). Qed.

Lemma load_config_Raise w e st :
  config_file w = Raise e ->
  load_config w st =
    (Raised e, st, if is_Exception e then [Log ERROR "load config failed"] else []).
Proof.
  intros E. unfold load_config, try_except. rewrite (lift_Raise _ _ _ E).
  by destruct (is_Exception e).
Qed.

Lemma lift_bind_Ok {A B} (r : result A) (k : A -> act B) (a : A) st :
  r = Ok a -> (lift r ≫= k) st = k a st.
Proof.
  intros ->. unfold lift, mbind, act_bind, mret, act_ret.
  by destruct (k a st) as [[r st'] t].
Qed.

Lemma deliver_bind {B} signums (k : unit -> act B) st :
  let st1 := match signums with [] => st | _ => set_shutdown_event st end in
  (deliver signums ≫= k) st =
    (reply_of (k tt st1), state_of (k tt st1),
     replicate (length signums) (Log INFO "signal") ++ trace_of (k tt st1)).
Proof. intros st1. by rewrite (act_bind_Done _ _ _ _ _ _ (deliver_spec signums st)). Qed.

(** A startup that fails before anything is built: the failure is
    logged when it is an [Exception], the cleanup only opens, and the
    failure leaves [run]. *)
Lemma run_of_failed_startup w e st1 t1 :
  startup w init = (Raised e, st1, t1) ->
  nothing_built st1 ->
  run w init =
    (Raised e, set_running false st1,
     (t1 ++ if is_Exception e then [Log ERROR "system error"] else [])
     ++ [Log INFO "cleanup"]).
Proof.
  intros E Hnb. unfold run, try_finally, try_except. rewrite E.
  destruct (is_Exception e); rewrite ?emit_then_raise; cbn -[cleanup];
    rewrite (cleanup_nothing_built w st1 Hnb); by rewrite ?app_nil_r.
Qed.

Lemma startup_load_failure w e :
  config_file w = Raise e ->
  startup w init =
    (Raised e,
     match signals_early w with [] => init | _ => set_shutdown_event init end,
     replicate (length (signals_early w)) (Log INFO "signal")
     ++ if is_Exception e then [Log ERROR "load config failed"] else []).
Proof.
  intros E. unfold startup. rewrite deliver_bind.
  by rewrite (act_bind_Raised _ _ _ _ _ _ (load_config_Raise w e _ E)).
Qed.

Lemma startup_translate_failure w config_data e :
  config_file w = Ok config_data ->
  create_grid_config config_data = Raise e ->
  startup w init =
    (Raised e,
     match signals_early w with [] => init | _ => set_shutdown_event init end,
     replicate (length (signals_early w)) (Log INFO "signal") ++ []).
Proof.
  intros E E'. unfold startup. rewrite deliver_bind.
  rewrite (act_bind_Done _ _ _ _ _ _ (load_config_Ok w _ _ E)).
  by rewrite (act_bind_Raised _ _ _ _ _ _ (lift_Raise _ _ _ E')).
Qed.

(** X12: a configuration that cannot be loaded or translated is fatal
    before any connection: the run ends with that very exception, the
    runner has made no call on a collaborator (its trace holds log lines
    only), nothing has been built, and the process exits with status 1
    when the exception is an [Exception]. *)
Theorem run_configuration_error w e :
  (config_file w = Raise e \/
   exists config_data,
     config_file w = Ok config_data /\ create_grid_config config_data = Raise e) ->
  reply_of (run w init) = Raised e /\
  Forall is_log (trace_of (run w init)) /\
  nothing_built (state_of (run w init)) /\
  (is_Exception e = true -> exit_status (reply_of (main true w init)) = Some 1%Z).
Proof.
  intros Hfail.
  assert (exists st1 t1,
            startup w init = (Raised e, st1, t1) /\ nothing_built st1 /\ Forall is_log t1)
    as (st1 & t1 & E & Hnb & Hlog).
  { destruct Hfail as [E|(config_data & E & E')].
    - eexists _, _. split; [by apply startup_load_failure|].
      split; [apply nothing_built_signalled|].
      apply Forall_app. split; [by apply Forall_signal_logs|].
      destruct (is_Exception e); by repeat constructor.
    - eexists _, _. split; [by eapply startup_translate_failure|].
      split; [apply nothing_built_signalled|].
      apply Forall_app. split; [by apply Forall_signal_logs|]. constructor. }
  unfold main. rewrite (run_of_failed_startup w e st1 t1 E Hnb).
  unfold reply_of, trace_of, state_of. simpl.
  split; [done|]. split.
  { apply Forall_app. split; [|by repeat constructor].
    apply Forall_app. split; [done|]. destruct (is_Exception e); by repeat constructor. }
  split; [by destruct st1, Hnb as (? & ? & ?)|].
  by destruct e.
Qed.

(** X13: a short grid on a symbol that carries the spot marker of its
    venue is refused before any connection: when the document translates
    and its grid type is "short", "martingale_short" or "follow_short",
    the run ends with [SystemExit 1] and the process with status 1, and
    the runner has made no call on a collaborator. *)
Theorem run_short_on_tagged_spot w config_data grid_config cfg exchange symbol tag :
  config_file w = Ok config_data ->
  getitem config_data "grid_system" = Ok (VDict grid_config) ->
  create_grid_config config_data = Ok cfg ->
  grid_config !! "exchange" = Some (VStr exchange) ->
  grid_config !! "symbol" = Some (VStr symbol) ->
  grid_config !! "grid_type" = Some (VStr tag) ->
  PyStr.mem tag short_grid_values = true ->
  is_spot_symbol (py_lower exchange) (VStr symbol) = Ok true ->
  reply_of (run w init) = Raised (SystemExit 1) /\
  Forall is_log (trace_of (run w init)) /\
  exit_status (reply_of (main true w init)) = Some 1%Z.
Proof.
  intros Hcfg Hgs Htr Hex Hsy Htag Hshort Hspot.
  destruct (create_grid_config_attributes _ _ _ Hgs Htr)
    as (exchange' & symbol' & g & Hex' & Hsy' & Hg & Hae & Has & Hag).
  rewrite Hex in Hex'. injection Hex' as <-.
  rewrite Hsy in Hsy'. injection Hsy' as <-.
  rewrite Htag in Hg. injection Hg as ->.
  assert (startup w init =
            (Raised (SystemExit 1),
             match signals_early w with [] => init | _ => set_shutdown_event init end,
             replicate (length (signals_early w)) (Log INFO "signal")
             ++ [Log ERROR "short grid on spot market"])) as E.
  { unfold startup. rewrite deliver_bind.
    rewrite (act_bind_Done _ _ _ _ _ _ (load_config_Ok w _ _ Hcfg)).
    rewrite (lift_bind_Ok _ _ _ _ Htr).
    rewrite (lift_bind_Ok _ _ _ _ Has).
    rewrite (lift_bind_Ok _ _ (exchange) _)
      by (by rewrite (bind_of_Ok _ _ _ Hae)).
    rewrite (lift_bind_Ok _ _ _ _ Hspot).
    rewrite (lift_bind_Ok _ _ _ _ Hag).
    rewrite Hshort. reflexivity. }
  unfold main.
  rewrite (run_of_failed_startup w _ _ _ E (nothing_built_signalled _)).
  unfold reply_of, trace_of. simpl.
  split; [done|]. split; [|done].
  rewrite app_nil_r.
  apply Forall_app. split; [|by repeat constructor].
  apply Forall_app. split; [by apply Forall_signal_logs|by repeat constructor].
Qed.

End early_exits.

Lemma run_configuration_error_witness :
  let w := Samples.world_of VNone true (Returns tt) [] in
  create_grid_config (H := Scalars.runtime) VNone = Raise TypeError /\
  reply_of (@run Scalars.runtime w init) = Raised TypeError /\
  trace_of (@run Scalars.runtime w init)
    = [Log ERROR "system error"; Log INFO "cleanup"].
Proof.
  cbv zeta. split; [reflexivity|].
  split; [|reflexivity].
  apply (@run_configuration_error Scalars.runtime
           (Samples.world_of VNone true (Returns tt) []) TypeError).
  right. by exists VNone.
Defined.

Lemma run_short_on_tagged_spot_witness :
  let w := Samples.world_of
             (Samples.document
                (Samples.grid_system "Hyperliquid" "BTC/USDC:SPOT" "martingale_short"))
             true (Returns tt) [] in
  reply_of (@run Scalars.runtime w init) = Raised (SystemExit 1).
Proof.
  cbv zeta.
  destruct (@create_grid_config Scalars.runtime
              (Samples.document
                 (Samples.grid_system "Hyperliquid" "BTC/USDC:SPOT" "martingale_short")))
    as [cfg|e] eqn:E.
  - exact (proj1 (@run_short_on_tagged_spot Scalars.runtime
             (Samples.world_of
                (Samples.document
                   (Samples.grid_system "Hyperliquid" "BTC/USDC:SPOT" "martingale_short"))
                true (Returns tt) [])
             (Samples.document
                (Samples.grid_system "Hyperliquid" "BTC/USDC:SPOT" "martingale_short"))
             (Samples.grid_system "Hyperliquid" "BTC/USDC:SPOT" "martingale_short")
             cfg "Hyperliquid" "BTC/USDC:SPOT" "martingale_short"
             eq_refl eq_refl E eq_refl eq_refl eq_refl eq_refl eq_refl)).
  - vm_compute in E. discriminate E.
Defined.

(** ** Runs that fail to connect, and runs on a perpetual market *)

Lemma keeps_perform_fails {I : runner -> Prop} {P : call -> Prop} c
    (o : outcome unit) :
  o <> Returns tt -> P c -> keeps I P (fun _ : unit => False) (perform c o).
Proof.
  intros Ho Hc. eapply (keeps_bind (fun _ => True)); [by apply keeps_emit|].
  intros _ _. destruct o as [[]| |]; [done|apply keeps_raise|apply keeps_block].
Qed.

(** The cleanup of a runner that has built nothing. *)
Lemma keeps_cleanup_nothing_built (P : call -> Prop) w :
  P (Log INFO "cleanup") -> keeps nothing_built P (fun _ => True) (cleanup w).
Proof.
  intros HP st Hnb. rewrite (cleanup_nothing_built w st Hnb).
  unfold state_of, trace_of, reply_of. simpl.
  split; [by destruct st, Hnb as (? & ? & ?)|]. split; [by repeat constructor|done].
Qed.

(** The cleanup of a runner without a reserve monitor. *)
Lemma keeps_cleanup_no_monitor w :
  keeps (fun st => reserve_monitor st = false) not_reserve_call (fun _ => True)
    (cleanup w).
Proof.
  unfold cleanup.
  eapply (keeps_bind (fun _ => True)); [by apply keeps_emit|]. intros _ _.
  eapply (keeps_bind (fun _ => True)); [by apply keeps_modify|]. intros _ _.
  apply keeps_try_except; [|intros e; by apply keeps_emit].
  eapply keeps_bind; [apply keeps_read|]. intros st Hm. simpl in Hm.
  eapply (keeps_bind (fun _ => True)).
  { destruct (bool_decide _); [|by apply keeps_ret].
    eapply (keeps_bind (fun _ => True)); [|intros _ _; by apply keeps_perform].
    apply keeps_try_except; [by apply keeps_perform|intros e; by apply keeps_emit]. }
  intros _ _. rewrite Hm.
  eapply (keeps_bind (fun _ => True)); [by apply keeps_ret|]. intros _ _.
  destruct (bool_decide _); [by apply keeps_perform|by apply keeps_ret].
Qed.

Lemma decide_returns (o : outcome unit) : o = Returns tt \/ o <> Returns tt.
Proof. destruct o as [[]| |]; [by left|by right|by right]. Qed.

Section connection.
Context `{Runtime}.

Lemma create_exchange_adapter_fails w config_data :
  create_adapter_outcome w <> Returns tt \/ connect_outcome w <> Returns tt ->
  keeps nothing_built connection_call (fun _ => False)
    (create_exchange_adapter w config_data).
Proof.
  intros Hfail. unfold create_exchange_adapter.
  eapply (keeps_bind (fun _ => True)).
  { eapply keeps_weaken; [|apply keeps_lift]. done. }
  intros [[exchange_name cfg] warned] _.
  eapply (keeps_bind (fun _ => True)).
  { apply keeps_mapM. intros _. by apply keeps_emit. }
  intros _ _.
  destruct (decide_returns (create_adapter_outcome w)) as [Hc|Hc].
  2: { eapply (keeps_bind (fun _ => False)); [by apply keeps_perform_fails|].
       by intros _ []. }
  eapply (keeps_bind (fun _ => True)); [by apply keeps_perform|]. intros _ _.
  destruct Hfail as [Hfail|Hfail]; [done|].
  eapply (keeps_bind (fun _ => False)); [by apply keeps_perform_fails|]. by intros _ [].
Qed.

(** X14: when the adapter factory or the connection fails (it raises,
    or it never returns), the startup stops there: the runner builds no
    component, starts nothing and
    disconnects nothing (its calls are log lines, the factory call and
    the connect call), it keeps no adapter, and [run] does not return
    normally. *)
Theorem run_connection_failure w :
  create_adapter_outcome w <> Returns tt \/ connect_outcome w <> Returns tt ->
  Forall connection_call (trace_of (run w init)) /\
  nothing_built (state_of (run w init)) /\
  forall a, reply_of (run w init) <> Done a.
Proof.
  intros Hfail.
  assert (keeps nothing_built connection_call (fun _ : unit => False) (run w)) as Hk.
  { unfold run.
    eapply keeps_try_finally; [|by apply keeps_cleanup_nothing_built].
    apply keeps_try_except;
      [|intros e; eapply (keeps_bind (fun _ => True));
        [by apply keeps_emit|intros _ _; apply keeps_raise]].
    unfold startup.
    eapply (keeps_bind (fun _ => True)); [by apply keeps_deliver|]. intros _ _.
    eapply (keeps_bind (fun _ => True)).
    { unfold load_config. repeat keeps_step; exact I. }
    intros config_data _.
    do 5 (eapply (keeps_bind (fun _ => True));
          [eapply keeps_weaken; [|apply keeps_lift]; done|intros ? _]).
    eapply (keeps_bind (fun _ => True)).
    { destruct (_ && _); repeat keeps_step; exact I. }
    intros _ _.
    eapply (keeps_bind (fun _ => False));
      [by apply create_exchange_adapter_fails|by intros ? []]. }
  destruct (Hk init) as (Hnb & Ht & Hr); [done|].
  split; [done|]. split; [done|]. intros a Ha. by apply (Hr a).
Qed.

End connection.

Lemma run_connection_failure_witness :
  let w := {| config_file :=
                Ok (Samples.document (Samples.grid_system "lighter" "BTC" "long"));
              environ := fun _ => None; files := fun _ => Absent;
              create_adapter_outcome := Returns tt;
              connect_outcome := Raises (CollaboratorError "connect");
              build_outcome := fun _ => Returns tt;
              check_reserve_outcome := Returns true;
              early_disconnect_outcome := Returns tt;
              coordinator_start_outcome := Returns tt;
              monitor_start_outcome := Returns tt;
              signals_early := []; signals_waiting := []; signals_late := [];
              stats_await_outcome := Returns tt;
              cleanup_on_exit_outcome := Returns tt;
              coordinator_stop_outcome := Returns tt;
              monitor_stop_outcome := Returns tt;
              disconnect_outcome := Returns tt |} in
  connect_outcome w <> Returns tt /\
  Forall connection_call (trace_of (@run Scalars.runtime w init)).
Proof.
  cbv zeta. split; [discriminate|].
  apply (@run_connection_failure Scalars.runtime). right. discriminate.
Defined.

Example run_connection_failure_trace :
  let w := {| config_file :=
                Ok (Samples.document (Samples.grid_system "lighter" "BTC" "long"));
              environ := fun _ => None; files := fun _ => Absent;
              create_adapter_outcome := Returns tt;
              connect_outcome := Raises (CollaboratorError "connect");
              build_outcome := fun _ => Returns tt;
              check_reserve_outcome := Returns true;
              early_disconnect_outcome := Returns tt;
              coordinator_start_outcome := Returns tt;
              monitor_start_outcome := Returns tt;
              signals_early := []; signals_waiting := []; signals_late := [];
              stats_await_outcome := Returns tt;
              cleanup_on_exit_outcome := Returns tt;
              coordinator_stop_outcome := Returns tt;
              monitor_stop_outcome := Returns tt;
              disconnect_outcome := Returns tt |} in
  @run Scalars.runtime w init =
    (Raised (CollaboratorError "connect"), init,
     [ CreateAdapter "lighter" (lighter_exchange_config PERPETUAL (VBool false));
       Connect; Log ERROR "system error"; Log INFO "cleanup" ]).
Proof. vm_compute. reflexivity. Qed.

Lemma as_str_Ok v s : as_str v = Ok s -> v = VStr s.
Proof. destruct v; simpl; try discriminate. by intros [= ->]. Qed.

Section market_type_facts.
Context `{Runtime}.

Lemma make_exchange_config_type files exchange_name market_type c cfg warned :
  make_exchange_config files exchange_name market_type c = Ok (cfg, warned) ->
  exchange_type cfg = market_type.
Proof.
  unfold make_exchange_config.
  destruct (String.eqb exchange_name "lighter"); [|by intros [= <- _]].
  destruct (files _) as [|e|doc].
  - by intros [= <- _].
  - destruct (is_Exception e); [|discriminate]. by intros [= <- _].
  - destruct (get doc "api_config" (VDict ∅)) as [api_config|e]; simpl.
    + destruct (get api_config "testnet" (VBool false)) as [t|e]; simpl.
      * by intros [= <- _].
      * destruct (is_Exception e); [|discriminate]. by intros [= <- _].
    + destruct (is_Exception e); [|discriminate]. by intros [= <- _].
Qed.

(** The market type of the configuration is the resolver's, on the
    symbol and the lower-cased exchange name of the document. *)
Lemma prepare_exchange_config_type environ files config_data exchange_name cfg warned :
  prepare_exchange_config environ files config_data = Ok (exchange_name, cfg, warned) ->
  exists grid_config exchange symbol,
    getitem config_data "grid_system" = Ok grid_config /\
    getitem grid_config "exchange" = Ok (VStr exchange) /\
    getitem grid_config "symbol" = Ok (VStr symbol) /\
    exchange_name = py_lower exchange /\
    exchange_type cfg = detect_market_type symbol (py_lower exchange).
Proof.
  unfold prepare_exchange_config. intros E.
  inv_bind E as grid_config Egc.
  inv_bind E as exchange Eex.
  inv_bind E as exchange' Eex'. apply as_str_Ok in Eex' as ->.
  inv_bind E as symbol Esym.
  inv_bind E as symbol' Esym'. apply as_str_Ok in Esym' as ->.
  inv_bind E as cw Ecw. destruct cw as [c warned1].
  inv_bind E as xw Exw. destruct xw as [exchange_config warned2].
  injection E as <- <- _.
  exists grid_config, exchange', symbol'. repeat split; try done.
  by rewrite (make_exchange_config_type _ _ _ _ _ _ Exw).
Qed.

End market_type_facts.

(** With the ASCII mappings the lower-cased exchange name resolves as
    the name itself does. *)
Lemma detect_market_type_lower symbol exchange :
  @detect_market_type Scalars.runtime symbol (PyStr.lower exchange)
    = @detect_market_type Scalars.runtime symbol exchange.
Proof.
  unfold detect_market_type. cbn [py_lower py_upper Scalars.runtime].
  by rewrite lower_idempotent.
Qed.

Section perpetual.
Context `{Runtime}.

Lemma create_exchange_adapter_perpetual w config_data :
  (forall grid_config exchange symbol,
     getitem config_data "grid_system" = Ok grid_config ->
     getitem grid_config "exchange" = Ok (VStr exchange) ->
     getitem grid_config "symbol" = Ok (VStr symbol) ->
     detect_market_type symbol (py_lower exchange) = PERPETUAL) ->
  keeps no_monitor not_reserve_call (fun adapter => exchange_type adapter = PERPETUAL)
    (create_exchange_adapter w config_data).
Proof.
  intros Hperp. unfold create_exchange_adapter.
  eapply keeps_bind; [apply keeps_lift|].
  intros [[exchange_name cfg] warned] E.
  apply prepare_exchange_config_type in E
    as (grid_config & exchange & symbol & Hgc & Hex & Hsy & _ & Htype).
  eapply (keeps_bind (fun _ => True)).
  { apply keeps_mapM. intros _. by apply keeps_emit. }
  intros _ _.
  eapply (keeps_bind (fun _ => True)); [by apply keeps_perform|]. intros _ _.
  eapply (keeps_bind (fun _ => True)); [by apply keeps_perform|]. intros _ _.
  apply keeps_ret. rewrite Htype. by eapply Hperp.
Qed.

(** X15: on a perpetual market the reserve management is never
    touched. When the resolver gives PERPETUAL for the symbol and the
    exchange name of the configuration (lower-cased, as the runner hands
    it to the resolver), the run builds no reserve manager and
    no reserve monitor, makes no reserve check and never starts or stops
    a monitor, whatever the document says under "spot_reserve". *)
Theorem run_perpetual_no_reserve w :
  (forall config_data grid_config exchange symbol,
     config_file w = Ok config_data ->
     getitem config_data "grid_system" = Ok grid_config ->
     getitem grid_config "exchange" = Ok (VStr exchange) ->
     getitem grid_config "symbol" = Ok (VStr symbol) ->
     detect_market_type symbol (py_lower exchange) = PERPETUAL) ->
  Forall not_reserve_call (trace_of (run w init)) /\
  reserve_monitor (state_of (run w init)) = false.
Proof.
  intros Hperp.
  assert (keeps no_monitor not_reserve_call (fun _ : unit => True) (run w)) as Hk.
  { unfold run.
    eapply keeps_try_finally; [|apply keeps_cleanup_no_monitor].
    apply keeps_try_except;
      [|intros e; eapply (keeps_bind (fun _ => True));
        [by apply keeps_emit|intros _ _; apply keeps_raise]].
    unfold startup.
    eapply (keeps_bind (fun _ => True)); [by apply keeps_deliver|]. intros _ _.
    eapply (keeps_bind (fun config_data => config_file w = Ok config_data)).
    { unfold load_config. apply keeps_try_except; [apply keeps_lift|].
      intros e. eapply (keeps_bind (fun _ => True)); [by apply keeps_emit|].
      intros _ _. apply keeps_raise. }
    intros config_data Hcfg.
    do 5 (eapply (keeps_bind (fun _ => True));
          [eapply keeps_weaken; [|apply keeps_lift]; done|intros ? _]).
    eapply (keeps_bind (fun _ => True)).
    { destruct (_ && _); repeat keeps_step; exact I. }
    intros _ _.
    eapply keeps_bind.
    { apply create_exchange_adapter_perpetual. intros gc ex sy. by apply Hperp. }
    intros adapter Htype. simpl in Htype. rewrite Htype. simpl.
    eapply (keeps_bind (fun _ => True)); [by apply keeps_modify|]. intros _ _.
    do 4 (eapply (keeps_bind (fun _ => True)); [by apply keeps_perform|intros _ _]).
    eapply (keeps_bind (fun reserve => reserve = false)); [by apply keeps_ret|].
    intros reserve ->.
    eapply (keeps_bind (fun _ => True)); [by apply keeps_perform|]. intros _ _.
    eapply (keeps_bind (fun _ => True)); [by apply keeps_modify|]. intros _ _.
    eapply (keeps_bind (fun _ => True)); [by apply keeps_ret|]. intros _ _.
    eapply (keeps_bind (fun _ => True)); [by apply keeps_perform|]. intros _ _.
    eapply (keeps_bind (fun _ => True)); [by apply keeps_ret|]. intros _ _.
    eapply (keeps_bind (fun _ => True)); [by apply keeps_modify|]. intros _ _.
    eapply (keeps_bind (fun _ => True)); [by apply keeps_emit|]. intros _ _.
    eapply (keeps_bind (fun _ => True)); [by apply keeps_deliver|]. intros _ _.
    eapply (keeps_bind (fun _ => True)).
    { unfold wait_shutdown_event. repeat keeps_step; exact I. }
    intros _ _.
    eapply (keeps_bind (fun _ => True)); [by apply keeps_deliver|]. intros _ _.
    eapply (keeps_bind (fun _ => True)); [by apply keeps_emit|]. intros _ _.
    apply keeps_swallow_cancelled. by apply keeps_perform. }
  destruct (Hk init) as (Hm & Ht & _); [done|]. by split.
Qed.

End perpetual.

Lemma run_perpetual_no_reserve_witness :
  Forall not_reserve_call (trace_of (@run Scalars.runtime Samples.calm init)) /\
  reserve_monitor (state_of (@run Scalars.runtime Samples.calm init)) = false.
Proof.
  apply (@run_perpetual_no_reserve Scalars.runtime Samples.calm).
  intros config_data grid_config exchange symbol Hcfg Hgs Hex Hsy.
  injection Hcfg as <-.
  vm_compute in Hgs. injection Hgs as <-.
  vm_compute in Hex. injection Hex as <-.
  reflexivity.
Defined.

(** ** A run without a signal *)

Section unsignalled.
Context `{Runtime}.

(** Without a signal the event stays as it is, and a run whose event is
    not set does not return. *)
Lemma run_unsignalled w :
  signals_early w = [] ->
  signals_waiting w = [] ->
  keeps not_signalled any_call (fun _ : unit => False) (run w).
Proof.
  intros Hearly Hwaiting.
  { unfold run.
    eapply keeps_try_finally with (R' := fun _ => True).
    2: { intros st Hst. split; [|split; [|done]].
         - destruct (cleanup_summary w st) as (-> & _). by destruct st.
         - apply Forall_forall. by intros c _. }
    apply keeps_try_except;
      [|intros e; eapply (keeps_bind (fun _ => True));
        [by apply keeps_emit|intros _ _; apply keeps_raise]].
    unfold startup. rewrite Hearly, Hwaiting. simpl deliver.
    eapply (keeps_bind (fun _ => True)); [by apply keeps_ret|]. intros _ _.
    eapply (keeps_bind (fun _ => True)).
    { unfold load_config. repeat keeps_step; exact I. }
    intros config_data _.
    do 5 (eapply (keeps_bind (fun _ => True));
          [eapply keeps_weaken; [|apply keeps_lift]; done|intros ? _]).
    eapply (keeps_bind (fun _ => True)).
    { destruct (_ && _); repeat keeps_step; exact I. }
    intros _ _.
    eapply (keeps_bind (fun _ => True)).
    { unfold create_exchange_adapter.
      eapply (keeps_bind (fun _ => True));
        [eapply keeps_weaken; [|apply keeps_lift]; done|].
      intros [[exchange_name cfg] warned] _.
      repeat keeps_step; exact I. }
    intros adapter _.
    eapply (keeps_bind (fun _ => True)); [by apply keeps_modify|]. intros _ _.
    do 4 (eapply (keeps_bind (fun _ => True)); [by apply keeps_perform|intros _ _]).
    eapply (keeps_bind (fun _ => True)).
    { destruct (ExchangeType_eqb _ _); [|by apply keeps_ret].
      eapply (keeps_bind (fun _ => True));
        [eapply keeps_weaken; [|apply keeps_lift]; done|].
      intros [|] _; [|by apply keeps_ret].
      do 2 (eapply (keeps_bind (fun _ => True)); [by apply keeps_perform|intros _ _]).
      eapply (keeps_bind (fun _ => True)); [by apply keeps_modify|]. intros _ _.
      by apply keeps_ret. }
    intros reserve _.
    eapply (keeps_bind (fun _ => True)); [by apply keeps_perform|]. intros _ _.
    eapply (keeps_bind (fun _ => True)); [by apply keeps_modify|]. intros _ _.
    eapply (keeps_bind (fun _ => True)).
    { destruct reserve; [|by apply keeps_ret].
      eapply (keeps_bind (fun _ => True)); [by apply keeps_perform|].
      intros [|] _; [by apply keeps_ret|].
      eapply (keeps_bind (fun _ => True)); [by apply keeps_emit|]. intros _ _.
      eapply (keeps_bind (fun _ => True)); [by apply keeps_perform|]. intros _ _.
      apply keeps_raise. }
    intros _ _.
    eapply (keeps_bind (fun _ => True)); [by apply keeps_perform|]. intros _ _.
    eapply (keeps_bind (fun _ => True)).
    { destruct reserve; [by apply keeps_perform|by apply keeps_ret]. }
    intros _ _.
    eapply (keeps_bind (fun _ => True)); [by apply keeps_modify|]. intros _ _.
    eapply (keeps_bind (fun _ => True)); [by apply keeps_emit|]. intros _ _.
    eapply (keeps_bind (fun _ => True)); [by apply keeps_ret|]. intros _ _.
    eapply (keeps_bind (fun _ => False)); [|by intros _ []].
    unfold wait_shutdown_event.
    eapply keeps_bind; [apply keeps_read|].
    intros st Hst. unfold not_signalled in Hst. rewrite Hst. apply keeps_block. }
Qed.

(** X16: the runner does not stop on its own. When no signal is
    delivered during the startup or while it waits, [run] never returns
    normally: it ends by a failure or stays blocked (on the shutdown
    event, or in a call that never returns). *)
Theorem run_returns_only_on_signal w :
  signals_early w = [] ->
  signals_waiting w = [] ->
  forall a, reply_of (run w init) <> Done a.
Proof.
  intros Hearly Hwaiting.
  destruct (run_unsignalled w Hearly Hwaiting init) as (_ & _ & Hr); [done|].
  intros a Ha. by apply (Hr a).
Qed.

End unsignalled.

Lemma run_returns_only_on_signal_witness :
  let w := Samples.world_of
             (Samples.document (Samples.grid_system "lighter" "BTC" "long"))
             true (Returns tt) [] in
  signals_waiting w = [] /\
  reply_of (@run Scalars.runtime w init) <> Done tt.
Proof.
  cbv zeta. split; [reflexivity|].
  by apply (@run_returns_only_on_signal Scalars.runtime).
Defined.

(** ** A clean run *)

Lemma act_step {A B} (m : act A) (k : A -> act B) st a st1 t1 r st2 t2 :
  m st = (Done a, st1, t1) ->
  k a st1 = (r, st2, t2) ->
  (m ≫= k) st = (r, st2, t1 ++ t2).
Proof. intros E1 E2. unfold mbind, act_bind. by rewrite E1, E2. Qed.

Lemma mapM_emit {A} (c : call) (l : list A) st :
  exists us, mapM (fun _ : A => emit c) l st = (Done us, st, replicate (length l) c).
Proof.
  induction l as [|a l [us IH]]; simpl.
  - by exists [].
  - exists (tt :: us).
    rewrite (act_step (emit c) _ st tt st [c] (Done (tt :: us)) st
               (replicate (length l) c)); [done|done|].
    rewrite (act_step _ _ st us st (replicate (length l) c) (Done (tt :: us)) st []);
      [by rewrite app_nil_r|exact IH|done].
Qed.

Lemma create_exchange_adapter_Ok `{Runtime} w config_data exchange_name cfg warned st :
  prepare_exchange_config (environ w) (files w) config_data
    = Ok (exchange_name, cfg, warned) ->
  create_adapter_outcome w = Returns tt ->
  connect_outcome w = Returns tt ->
  create_exchange_adapter w config_data st =
    (Done cfg, st,
     replicate (length warned) (Log WARNING "exchange config file")
     ++ [CreateAdapter exchange_name cfg; Connect]).
Proof.
  intros E Hc Hn. unfold create_exchange_adapter.
  rewrite (lift_bind_Ok _ _ _ _ E). rewrite Hc, Hn.
  destruct (mapM_emit (Log WARNING "exchange config file") warned st) as [us Hus].
  by rewrite (act_step _ _ _ _ _ _ _ _ _ Hus eq_refl).
Qed.

Lemma perform_Ok {A} c (a : A) st : perform c (Returns a) st = (Done a, st, [c]).
Proof. reflexivity. Qed.

Section clean_run.
Context `{Runtime}.

(** The startup of a run on a perpetual market in which every
    collaborator succeeds and a signal arrives. *)
Lemma startup_clean w config_data grid_config cfg exchange symbol tag
    exchange_name xcfg warned spot signum more :
  config_file w = Ok config_data ->
  getitem config_data "grid_system" = Ok (VDict grid_config) ->
  create_grid_config config_data = Ok cfg ->
  grid_config !! "exchange" = Some (VStr exchange) ->
  grid_config !! "symbol" = Some (VStr symbol) ->
  grid_config !! "grid_type" = Some (VStr tag) ->
  is_spot_symbol (py_lower exchange) (VStr symbol) = Ok spot ->
  spot && PyStr.mem tag short_grid_values = false ->
  prepare_exchange_config (environ w) (files w) config_data
    = Ok (exchange_name, xcfg, warned) ->
  exchange_type xcfg = PERPETUAL ->
  collaborators_succeed w ->
  signals_waiting w = signum :: more ->
  startup w init =
    (Done tt,
     {| _running := true; _shutdown_event := true; coordinator := Some cfg;
        exchange_adapter := Some xcfg; reserve_monitor := false |},
     replicate (length (signals_early w)) (Log INFO "signal")
     ++ (replicate (length warned) (Log WARNING "exchange config file")
         ++ [CreateAdapter exchange_name xcfg; Connect])
     ++ [Build "GridStrategyImpl"; Build "GridEngineImpl"; Build "GridState";
         Build "PositionTrackerImpl"; Build "GridCoordinator"; CoordinatorStart;
         StatsTaskCreate]
     ++ replicate (length (signals_waiting w)) (Log INFO "signal")
     ++ replicate (length (signals_late w)) (Log INFO "signal")
     ++ [StatsTaskCancel; StatsTaskAwait]).
Proof.
  intros Hcfg Hgs Htr Hex Hsy Htag Hspot Hcheck Hprep Htype
    (Hcreate & Hconnect & Hbuild & Hstart & Hawait & _) Hwaiting.
  destruct (create_grid_config_attributes _ _ _ Hgs Htr)
    as (exchange' & symbol' & g & Hex' & Hsy' & Hg & Hae & Has & Hag).
  rewrite Hex in Hex'. injection Hex' as <-.
  rewrite Hsy in Hsy'. injection Hsy' as <-.
  rewrite Htag in Hg. injection Hg as ->.
  unfold startup.
  eapply act_step; [apply deliver_spec|].
  eapply (act_step _ _ _ _ _ []); [by apply load_config_Ok|].
  rewrite (lift_bind_Ok _ _ _ _ Htr).
  rewrite (lift_bind_Ok _ _ _ _ Has).
  rewrite (lift_bind_Ok _ _ (exchange) _) by (by rewrite (bind_of_Ok _ _ _ Hae)).
  rewrite (lift_bind_Ok _ _ _ _ Hspot).
  rewrite (lift_bind_Ok _ _ _ _ Hag).
  rewrite Hcheck.
  eapply (act_step _ _ _ _ _ []); [reflexivity|].
  eapply act_step; [by apply create_exchange_adapter_Ok|].
  eapply (act_step _ _ _ _ _ []); [reflexivity|].
  rewrite !Hbuild, Hstart, Hawait, Htype.
  cbn [ExchangeType_eqb].
  eapply (act_step _ _ _ _ _ [_]); [apply perform_Ok|].
  eapply (act_step _ _ _ _ _ [_]); [apply perform_Ok|].
  eapply (act_step _ _ _ _ _ [_]); [apply perform_Ok|].
  eapply (act_step _ _ _ _ _ [_]); [apply perform_Ok|].
  eapply (act_step _ _ _ _ _ []); [reflexivity|].
  eapply (act_step _ _ _ _ _ [_]); [apply perform_Ok|].
  eapply (act_step _ _ _ _ _ []); [reflexivity|].
  eapply (act_step _ _ _ _ _ []); [reflexivity|].
  eapply (act_step _ _ _ _ _ [_]); [apply perform_Ok|].
  eapply (act_step _ _ _ _ _ []); [reflexivity|].
  eapply (act_step _ _ _ _ _ []); [reflexivity|].
  eapply (act_step _ _ _ _ _ [_]); [reflexivity|].
  eapply act_step; [apply deliver_spec|].
  rewrite Hwaiting.
  eapply (act_step _ _ _ _ _ []); [reflexivity|].
  eapply act_step; [apply deliver_spec|].
  eapply (act_step _ _ _ _ _ [_]); [reflexivity|].
  by destruct (signals_late w), (signals_early w).
Qed.

(** X17: a clean run. On a perpetual market, when the configuration
    translates and passes the short-on-spot check, every collaborator
    succeeds and a signal arrives while the runner waits, [run] returns
    normally after exactly these calls, in this order: the adapter is
    created and connected, the four components and the coordinator are
    built, the coordinator is started, the statistics task is created;
    after the signal the task is cancelled and awaited; the cleanup calls
    the exit hook, stops the coordinator and disconnects the exchange.
    The exchange is connected once and disconnected once, the running
    flag ends cleared, and the process exits with status 0. *)
Theorem run_clean_shutdown w config_data grid_config cfg exchange symbol tag
    exchange_name xcfg warned spot signum more :
  config_file w = Ok config_data ->
  getitem config_data "grid_system" = Ok (VDict grid_config) ->
  create_grid_config config_data = Ok cfg ->
  grid_config !! "exchange" = Some (VStr exchange) ->
  grid_config !! "symbol" = Some (VStr symbol) ->
  grid_config !! "grid_type" = Some (VStr tag) ->
  is_spot_symbol (py_lower exchange) (VStr symbol) = Ok spot ->
  spot && PyStr.mem tag short_grid_values = false ->
  prepare_exchange_config (environ w) (files w) config_data
    = Ok (exchange_name, xcfg, warned) ->
  exchange_type xcfg = PERPETUAL ->
  collaborators_succeed w ->
  signals_waiting w = signum :: more ->
  run w init =
    (Done tt,
     {| _running := false; _shutdown_event := true; coordinator := Some cfg;
        exchange_adapter := Some xcfg; reserve_monitor := false |},
     (replicate (length (signals_early w)) (Log INFO "signal")
      ++ (replicate (length warned) (Log WARNING "exchange config file")
          ++ [CreateAdapter exchange_name xcfg; Connect])
      ++ [Build "GridStrategyImpl"; Build "GridEngineImpl"; Build "GridState";
          Build "PositionTrackerImpl"; Build "GridCoordinator"; CoordinatorStart;
          StatsTaskCreate]
      ++ replicate (length (signals_waiting w)) (Log INFO "signal")
      ++ replicate (length (signals_late w)) (Log INFO "signal")
      ++ [StatsTaskCancel; StatsTaskAwait])
     ++ [Log INFO "cleanup"; CleanupOnExit; CoordinatorStop; Disconnect]) /\
  count is_connect (trace_of (run w init)) = 1 /\
  count is_disconnect (trace_of (run w init)) = 1 /\
  exit_status (reply_of (main true w init)) = Some 0%Z.
Proof.
  intros Hcfg Hgs Htr Hex Hsy Htag Hspot Hcheck Hprep Htype Hok Hwaiting.
  pose proof (startup_clean _ _ _ _ _ _ _ _ _ _ _ _ _ Hcfg Hgs Htr Hex Hsy Htag
                Hspot Hcheck Hprep Htype Hok Hwaiting) as E.
  destruct Hok as (_ & _ & _ & _ & _ & Hhook & Hstop & Hdis).
  match goal with |- ?G /\ _ => assert G as Erun end; [|split; [exact Erun|]].
  { unfold run, try_finally, try_except. rewrite E.
    unfold cleanup, perform, try_except, emit, modify, read, raise,
      mbind, act_bind, mret, act_ret.
    rewrite Hhook, Hstop, Hdis. reflexivity. }
  assert (forall p n c, p c = false -> count p (replicate n c) = 0) as Hrep.
  { intros p n c Hp. apply count_none. apply Forall_forall.
    intros c' Hc'. apply elem_of_replicate in Hc' as [-> _]. done. }
  unfold main. rewrite Erun. unfold trace_of, reply_of. cbn [snd fst exit_status].
  rewrite !count_app, !Hrep by done.
  repeat split.
Qed.

End clean_run.

Lemma run_clean_shutdown_witness :
  reply_of (@run Scalars.runtime Samples.calm init) = Done tt /\
  count is_disconnect (trace_of (@run Scalars.runtime Samples.calm init)) = 1.
Proof.
  destruct (@create_grid_config Scalars.runtime
              (Samples.document (Samples.grid_system "lighter" "BTC" "long")))
    as [cfg|e] eqn:E.
  - pose proof (@run_clean_shutdown Scalars.runtime Samples.calm
                  (Samples.document (Samples.grid_system "lighter" "BTC" "long"))
                  (Samples.grid_system "lighter" "BTC" "long") cfg
                  "lighter" "BTC" "long" "lighter"
                  (lighter_exchange_config PERPETUAL (VBool false)) [] false 15%Z []
                  eq_refl eq_refl E eq_refl eq_refl eq_refl eq_refl eq_refl eq_refl
                  eq_refl) as W.
    destruct W as (Erun & _ & Hdis & _).
    + repeat split.
    + reflexivity.
    + split; [by rewrite Erun|exact Hdis].
  - vm_compute in E. discriminate E.
Defined.


(** ** A clean run on a spot market with the reserve management *)

Section spot_run.
Context `{Runtime}.

(** What [getattr(grid_config, 'spot_reserve', None)] gives for a
    translated document: the document's value, None without one. *)
Lemma create_grid_config_spot_reserve config_data grid_config cfg :
  getitem config_data "grid_system" = Ok (VDict grid_config) ->
  create_grid_config config_data = Ok cfg ->
  spot_reserve_of cfg = default VNone (grid_config !! "spot_reserve").
Proof.
  intros Hgs E. unfold create_grid_config in E. rewrite Hgs in E.
  rewrite (bind_of_Ok _ _ (VDict grid_config)) in E by done.
  apply translate_inv in E as (ps & _ & _ & _ & _ & _ & Hcopy & Hfresh & _).
  assert (("spot_reserve", Copy) ∈ optional_fields) as Hin.
  { unfold optional_fields.
    repeat first [apply list_elem_of_here | apply list_elem_of_further]. }
  pose proof (copy_optional_at _ _ _ _ _ _ optional_fields_NoDup Hin Hcopy) as Hat.
  unfold spot_reserve_of.
  destruct (grid_config !! "spot_reserve") as [v|].
  - destruct Hat as (p & Hp & ->). cbn in Hp. by injection Hp as <-.
  - rewrite Hat, Hfresh; [done|].
    apply (bool_decide_unpack _); vm_compute; exact I.
Qed.

(** The startup of a run on a spot market with the reserve management
    enabled, in which every collaborator succeeds and a signal arrives. *)
Lemma startup_spot_reserve w config_data grid_config cfg exchange symbol tag
    exchange_name xcfg warned spot spot_reserve_config signum more :
  config_file w = Ok config_data ->
  getitem config_data "grid_system" = Ok (VDict grid_config) ->
  create_grid_config config_data = Ok cfg ->
  grid_config !! "exchange" = Some (VStr exchange) ->
  grid_config !! "symbol" = Some (VStr symbol) ->
  grid_config !! "grid_type" = Some (VStr tag) ->
  is_spot_symbol (py_lower exchange) (VStr symbol) = Ok spot ->
  spot && PyStr.mem tag short_grid_values = false ->
  prepare_exchange_config (environ w) (files w) config_data
    = Ok (exchange_name, xcfg, warned) ->
  exchange_type xcfg = SPOT ->
  grid_config !! "spot_reserve" = Some spot_reserve_config ->
  reserve_enabled spot_reserve_config = Ok true ->
  collaborators_succeed w ->
  check_reserve_outcome w = Returns true ->
  monitor_start_outcome w = Returns tt ->
  signals_waiting w = signum :: more ->
  startup w init =
    (Done tt,
     {| _running := true; _shutdown_event := true; coordinator := Some cfg;
        exchange_adapter := Some xcfg; reserve_monitor := true |},
     replicate (length (signals_early w)) (Log INFO "signal")
     ++ (replicate (length warned) (Log WARNING "exchange config file")
         ++ [CreateAdapter exchange_name xcfg; Connect])
     ++ [Build "GridStrategyImpl"; Build "GridEngineImpl"; Build "GridState";
         Build "PositionTrackerImpl"; Build "SpotReserveManager";
         Build "ReserveMonitor"; Build "GridCoordinator"; CheckReserve;
         CoordinatorStart; MonitorStart; StatsTaskCreate]
     ++ replicate (length (signals_waiting w)) (Log INFO "signal")
     ++ replicate (length (signals_late w)) (Log INFO "signal")
     ++ [StatsTaskCancel; StatsTaskAwait]).
Proof.
  intros Hcfg Hgs Htr Hex Hsy Htag Hspot Hcheck Hprep Htype Hres Hen
    (Hcreate & Hconnect & Hbuild & Hstart & Hawait & _) Hreserve Hmon Hwaiting.
  destruct (create_grid_config_attributes _ _ _ Hgs Htr)
    as (exchange' & symbol' & g & Hex' & Hsy' & Hg & Hae & Has & Hag).
  rewrite Hex in Hex'. injection Hex' as <-.
  rewrite Hsy in Hsy'. injection Hsy' as <-.
  rewrite Htag in Hg. injection Hg as ->.
  pose proof (create_grid_config_spot_reserve _ _ _ Hgs Htr) as Hsr.
  rewrite Hres in Hsr. cbn [default] in Hsr.
  unfold startup.
  eapply act_step; [apply deliver_spec|].
  eapply (act_step _ _ _ _ _ []); [by apply load_config_Ok|].
  rewrite (lift_bind_Ok _ _ _ _ Htr).
  rewrite (lift_bind_Ok _ _ _ _ Has).
  rewrite (lift_bind_Ok _ _ (exchange) _) by (by rewrite (bind_of_Ok _ _ _ Hae)).
  rewrite (lift_bind_Ok _ _ _ _ Hspot).
  rewrite (lift_bind_Ok _ _ _ _ Hag).
  rewrite Hcheck.
  eapply (act_step _ _ _ _ _ []); [reflexivity|].
  eapply act_step; [by apply create_exchange_adapter_Ok|].
  eapply (act_step _ _ _ _ _ []); [reflexivity|].
  rewrite !Hbuild, Hstart, Hawait, Htype, Hsr, Hreserve, Hmon.
  cbn [ExchangeType_eqb].
  eapply (act_step _ _ _ _ _ [_]); [apply perform_Ok|].
  eapply (act_step _ _ _ _ _ [_]); [apply perform_Ok|].
  eapply (act_step _ _ _ _ _ [_]); [apply perform_Ok|].
  eapply (act_step _ _ _ _ _ [_]); [apply perform_Ok|].
  eapply (act_step _ _ _ _ _ [_; _]);
    [by rewrite (lift_bind_Ok _ _ _ _ Hen)|].
  eapply (act_step _ _ _ _ _ [_]); [apply perform_Ok|].
  eapply (act_step _ _ _ _ _ []); [reflexivity|].
  eapply (act_step _ _ _ _ _ [_]); [reflexivity|].
  eapply (act_step _ _ _ _ _ [_]); [apply perform_Ok|].
  eapply (act_step _ _ _ _ _ [_]); [apply perform_Ok|].
  eapply (act_step _ _ _ _ _ []); [reflexivity|].
  eapply (act_step _ _ _ _ _ [_]); [reflexivity|].
  eapply act_step; [apply deliver_spec|].
  rewrite Hwaiting.
  eapply (act_step _ _ _ _ _ []); [reflexivity|].
  eapply act_step; [apply deliver_spec|].
  eapply (act_step _ _ _ _ _ [_]); [reflexivity|].
  by destruct (signals_late w), (signals_early w).
Qed.

(** X18: a clean run on a spot market with the reserve management. When
    the adapter's market is SPOT and the document enables "spot_reserve",
    the configuration translates and passes the short-on-spot check,
    every collaborator succeeds, the reserve check answers yes and a
    signal arrives while the runner waits, [run] returns normally after
    exactly these calls, in this order: the adapter is created and
    connected; the four components, the reserve manager, the reserve
    monitor and the coordinator are built; the reserve is checked; the
    coordinator is started and then the monitor; the statistics task is
    created, and after the signal cancelled and awaited; the cleanup calls
    the exit hook, stops the coordinator, then the monitor, and
    disconnects the exchange. The monitor is kept on the runner, and the
    exchange is disconnected once. *)
Theorem run_spot_reserve_shutdown w config_data grid_config cfg exchange symbol tag
    exchange_name xcfg warned spot spot_reserve_config signum more :
  config_file w = Ok config_data ->
  getitem config_data "grid_system" = Ok (VDict grid_config) ->
  create_grid_config config_data = Ok cfg ->
  grid_config !! "exchange" = Some (VStr exchange) ->
  grid_config !! "symbol" = Some (VStr symbol) ->
  grid_config !! "grid_type" = Some (VStr tag) ->
  is_spot_symbol (py_lower exchange) (VStr symbol) = Ok spot ->
  spot && PyStr.mem tag short_grid_values = false ->
  prepare_exchange_config (environ w) (files w) config_data
    = Ok (exchange_name, xcfg, warned) ->
  exchange_type xcfg = SPOT ->
  grid_config !! "spot_reserve" = Some spot_reserve_config ->
  reserve_enabled spot_reserve_config = Ok true ->
  collaborators_succeed w ->
  check_reserve_outcome w = Returns true ->
  monitor_start_outcome w = Returns tt ->
  monitor_stop_outcome w = Returns tt ->
  signals_waiting w = signum :: more ->
  run w init =
    (Done tt,
     {| _running := false; _shutdown_event := true; coordinator := Some cfg;
        exchange_adapter := Some xcfg; reserve_monitor := true |},
     (replicate (length (signals_early w)) (Log INFO "signal")
      ++ (replicate (length warned) (Log WARNING "exchange config file")
          ++ [CreateAdapter exchange_name xcfg; Connect])
      ++ [Build "GridStrategyImpl"; Build "GridEngineImpl"; Build "GridState";
          Build "PositionTrackerImpl"; Build "SpotReserveManager";
          Build "ReserveMonitor"; Build "GridCoordinator"; CheckReserve;
          CoordinatorStart; MonitorStart; StatsTaskCreate]
      ++ replicate (length (signals_waiting w)) (Log INFO "signal")
      ++ replicate (length (signals_late w)) (Log INFO "signal")
      ++ [StatsTaskCancel; StatsTaskAwait])
     ++ [Log INFO "cleanup"; CleanupOnExit; CoordinatorStop; MonitorStop;
         Disconnect]) /\
  count is_disconnect (trace_of (run w init)) = 1.
Proof.
  intros Hcfg Hgs Htr Hex Hsy Htag Hspot Hcheck Hprep Htype Hres Hen Hok
    Hreserve Hmon Hmstop Hwaiting.
  pose proof (startup_spot_reserve _ _ _ _ _ _ _ _ _ _ _ _ _ _ Hcfg Hgs Htr Hex Hsy
                Htag Hspot Hcheck Hprep Htype Hres Hen Hok Hreserve Hmon Hwaiting) as E.
  destruct Hok as (_ & _ & _ & _ & _ & Hhook & Hstop & Hdis).
  match goal with |- ?G /\ _ => assert G as Erun end; [|split; [exact Erun|]].
  { unfold run, try_finally, try_except. rewrite E.
    unfold cleanup, perform, try_except, emit, modify, read, raise,
      mbind, act_bind, mret, act_ret.
    rewrite Hhook, Hstop, Hmstop, Hdis. reflexivity. }
  assert (forall p n c, p c = false -> count p (replicate n c) = 0) as Hrep.
  { intros p n c Hp. apply count_none. apply Forall_forall.
    intros c' Hc'. apply elem_of_replicate in Hc' as [-> _]. done. }
  rewrite Erun. unfold trace_of. cbn [snd].
  rewrite !count_app, !Hrep by done.
  reflexivity.
Qed.

End spot_run.

Lemma run_spot_reserve_shutdown_witness :
  let w := Samples.world_of (Samples.document Samples.spot_reserve_grid)
             true (Returns tt) [15%Z] in
  reply_of (@run Scalars.runtime w init) = Done tt /\
  count is_disconnect (trace_of (@run Scalars.runtime w init)) = 1.
Proof.
  intros w.
  destruct (@create_grid_config Scalars.runtime
              (Samples.document Samples.spot_reserve_grid)) as [cfg|e] eqn:E.
  - pose proof (@run_spot_reserve_shutdown Scalars.runtime w
                  (Samples.document Samples.spot_reserve_grid)
                  Samples.spot_reserve_grid cfg
                  "hyperliquid" "BTC/USDC:SPOT" "long" "hyperliquid"
                  {| exchange_id := "hyperliquid"; name := "Hyperliquid";
                     exchange_type := SPOT; api_key := VStr ""; api_secret := VStr "";
                     wallet_address := Some VNone; testnet := VBool false;
                     enable_websocket := true; enable_auto_reconnect := true |}
                  [] true (VDict (<["enabled" := VBool true]> ∅)) 15%Z []
                  eq_refl eq_refl E eq_refl eq_refl eq_refl eq_refl eq_refl eq_refl
                  eq_refl eq_refl eq_refl) as W.
    destruct W as (Erun & Hdis).
    + repeat split.
    + reflexivity.
    + reflexivity.
    + reflexivity.
    + reflexivity.
    + split; [by rewrite Erun|exact Hdis].
  - vm_compute in E. discriminate E.
Defined.

(** ** A failing start on a spot market with the reserve management *)

Section start_failure.
Context `{Runtime}.

(** X19: when [coordinator.start()] raises an [Exception] on a spot
    market with the reserve management enabled (everything before it
    having succeeded), the runner never starts the reserve monitor and
    never creates the statistics task; it logs the error, and the cleanup
    calls the exit hook, stops the coordinator, stops the reserve monitor
    (which was built but never started) and disconnects the exchange;
    [run] ends with that very exception and the process with status 1. *)
Theorem run_start_failure w config_data grid_config cfg exchange symbol tag
    exchange_name xcfg warned spot spot_reserve_config e :
  config_file w = Ok config_data ->
  getitem config_data "grid_system" = Ok (VDict grid_config) ->
  create_grid_config config_data = Ok cfg ->
  grid_config !! "exchange" = Some (VStr exchange) ->
  grid_config !! "symbol" = Some (VStr symbol) ->
  grid_config !! "grid_type" = Some (VStr tag) ->
  is_spot_symbol (py_lower exchange) (VStr symbol) = Ok spot ->
  spot && PyStr.mem tag short_grid_values = false ->
  prepare_exchange_config (environ w) (files w) config_data
    = Ok (exchange_name, xcfg, warned) ->
  exchange_type xcfg = SPOT ->
  grid_config !! "spot_reserve" = Some spot_reserve_config ->
  reserve_enabled spot_reserve_config = Ok true ->
  create_adapter_outcome w = Returns tt ->
  connect_outcome w = Returns tt ->
  (forall class, build_outcome w class = Returns tt) ->
  check_reserve_outcome w = Returns true ->
  coordinator_start_outcome w = Raises e ->
  is_Exception e = true ->
  cleanup_on_exit_outcome w = Returns tt ->
  coordinator_stop_outcome w = Returns tt ->
  monitor_stop_outcome w = Returns tt ->
  disconnect_outcome w = Returns tt ->
  reply_of (run w init) = Raised e /\
  trace_of (run w init) =
    (replicate (length (signals_early w)) (Log INFO "signal")
     ++ (replicate (length warned) (Log WARNING "exchange config file")
         ++ [CreateAdapter exchange_name xcfg; Connect])
     ++ [Build "GridStrategyImpl"; Build "GridEngineImpl"; Build "GridState";
         Build "PositionTrackerImpl"; Build "SpotReserveManager";
         Build "ReserveMonitor"; Build "GridCoordinator"; CheckReserve;
         CoordinatorStart; Log ERROR "system error"])
    ++ [Log INFO "cleanup"; CleanupOnExit; CoordinatorStop; MonitorStop; Disconnect] /\
  exit_status (reply_of (main true w init)) = Some 1%Z.
Proof.
  intros Hcfg Hgs Htr Hex Hsy Htag Hspot Hcheck Hprep Htype Hres Hen
    Hcreate Hconnect Hbuild Hreserve Hstart He Hhook Hstop Hmstop Hdis.
  destruct (create_grid_config_attributes _ _ _ Hgs Htr)
    as (exchange' & symbol' & g & Hex' & Hsy' & Hg & Hae & Has & Hag).
  rewrite Hex in Hex'. injection Hex' as <-.
  rewrite Hsy in Hsy'. injection Hsy' as <-.
  rewrite Htag in Hg. injection Hg as ->.
  pose proof (create_grid_config_spot_reserve _ _ _ Hgs Htr) as Hsr.
  rewrite Hres in Hsr. cbn [default] in Hsr.
  assert (exists st1,
    startup w init =
      (Raised e, st1,
       replicate (length (signals_early w)) (Log INFO "signal")
       ++ (replicate (length warned) (Log WARNING "exchange config file")
           ++ [CreateAdapter exchange_name xcfg; Connect])
       ++ [Build "GridStrategyImpl"; Build "GridEngineImpl"; Build "GridState";
           Build "PositionTrackerImpl"; Build "SpotReserveManager";
           Build "ReserveMonitor"; Build "GridCoordinator"; CheckReserve;
           CoordinatorStart]) /\
    coordinator st1 = Some cfg /\ exchange_adapter st1 = Some xcfg /\
    reserve_monitor st1 = true) as (st1 & E & Hco & Had & Hmo).
  { eexists. split.
    - unfold startup.
      eapply act_step; [apply deliver_spec|].
      eapply (act_step _ _ _ _ _ []); [by apply load_config_Ok|].
      rewrite (lift_bind_Ok _ _ _ _ Htr).
      rewrite (lift_bind_Ok _ _ _ _ Has).
      rewrite (lift_bind_Ok _ _ (exchange) _) by (by rewrite (bind_of_Ok _ _ _ Hae)).
      rewrite (lift_bind_Ok _ _ _ _ Hspot).
      rewrite (lift_bind_Ok _ _ _ _ Hag).
      rewrite Hcheck.
      eapply (act_step _ _ _ _ _ []); [reflexivity|].
      eapply act_step; [by apply create_exchange_adapter_Ok|].
      eapply (act_step _ _ _ _ _ []); [reflexivity|].
      rewrite !Hbuild, Hstart, Htype, Hsr, Hreserve.
      cbn [ExchangeType_eqb].
      eapply (act_step _ _ _ _ _ [_]); [apply perform_Ok|].
      eapply (act_step _ _ _ _ _ [_]); [apply perform_Ok|].
      eapply (act_step _ _ _ _ _ [_]); [apply perform_Ok|].
      eapply (act_step _ _ _ _ _ [_]); [apply perform_Ok|].
      eapply (act_step _ _ _ _ _ [_; _]);
        [by rewrite (lift_bind_Ok _ _ _ _ Hen)|].
      eapply (act_step _ _ _ _ _ [_]); [apply perform_Ok|].
      eapply (act_step _ _ _ _ _ []); [reflexivity|].
      eapply (act_step _ _ _ _ _ [_]); [reflexivity|].
      reflexivity.
    - by destruct (signals_early w). }
  assert (run w init =
    (Raised e, set_running false st1,
     (replicate (length (signals_early w)) (Log INFO "signal")
      ++ (replicate (length warned) (Log WARNING "exchange config file")
          ++ [CreateAdapter exchange_name xcfg; Connect])
      ++ [Build "GridStrategyImpl"; Build "GridEngineImpl"; Build "GridState";
          Build "PositionTrackerImpl"; Build "SpotReserveManager";
          Build "ReserveMonitor"; Build "GridCoordinator"; CheckReserve;
          CoordinatorStart; Log ERROR "system error"])
     ++ [Log INFO "cleanup"; CleanupOnExit; CoordinatorStop; MonitorStop;
         Disconnect])) as Erun.
  { unfold run, try_finally, try_except. rewrite E, He, emit_then_raise.
    unfold cleanup, perform, try_except, emit, modify, read, raise,
      mbind, act_bind, mret, act_ret.
    cbn [set_running coordinator exchange_adapter reserve_monitor].
    rewrite Hco, Had, Hmo, Hhook, Hstop, Hmstop, Hdis.
    cbn. by rewrite <- !app_assoc. }
  unfold main. rewrite Erun. unfold reply_of, trace_of. cbn [fst snd].
  split; [done|]. split; [done|].
  destruct e; done.
Qed.

End start_failure.

Lemma run_start_failure_witness :
  let w :=
    {| config_file := Ok (Samples.document Samples.spot_reserve_grid);
       environ := fun _ => None;
       files := fun _ => Absent;
       create_adapter_outcome := Returns tt;
       connect_outcome := Returns tt;
       build_outcome := fun _ => Returns tt;
       check_reserve_outcome := Returns true;
       early_disconnect_outcome := Returns tt;
       coordinator_start_outcome := Raises (CollaboratorError "coordinator");
       monitor_start_outcome := Returns tt;
       signals_early := [];
       signals_waiting := [15%Z];
       signals_late := [];
       stats_await_outcome := Raises CancelledError;
       cleanup_on_exit_outcome := Returns tt;
       coordinator_stop_outcome := Returns tt;
       monitor_stop_outcome := Returns tt;
       disconnect_outcome := Returns tt |} in
  reply_of (@run Scalars.runtime w init) = Raised (CollaboratorError "coordinator") /\
  exit_status (reply_of (@main Scalars.runtime true w init)) = Some 1%Z.
Proof.
  intros w.
  destruct (@create_grid_config Scalars.runtime
              (Samples.document Samples.spot_reserve_grid)) as [cfg|e] eqn:E.
  - pose proof (@run_start_failure Scalars.runtime w
                  (Samples.document Samples.spot_reserve_grid)
                  Samples.spot_reserve_grid cfg
                  "hyperliquid" "BTC/USDC:SPOT" "long" "hyperliquid"
                  {| exchange_id := "hyperliquid"; name := "Hyperliquid";
                     exchange_type := SPOT; api_key := VStr ""; api_secret := VStr "";
                     wallet_address := Some VNone; testnet := VBool false;
                     enable_websocket := true; enable_auto_reconnect := true |}
                  [] true (VDict (<["enabled" := VBool true]> ∅)) (CollaboratorError "coordinator")
                  eq_refl eq_refl E eq_refl eq_refl eq_refl eq_refl eq_refl eq_refl
                  eq_refl eq_refl eq_refl eq_refl eq_refl (fun _ => eq_refl) eq_refl
                  eq_refl eq_refl eq_refl eq_refl eq_refl eq_refl) as (Hr & _ & Hx).
    by split.
  - vm_compute in E. discriminate E.
Defined.

(** ** Signals and the cleanup of a run *)

Section signal_claims.
Context `{Runtime}.

(** C8: the signal handler is idempotent. A delivery sets the shutdown
    event and logs; a delivery to a runner whose event is already set
    leaves the runner as it is, so any number of deliveries leave it as
    the first one does. The wait returns at once when the event is set
    and stays blocked when it is not. A run executes at most one cleanup
    sequence, and exactly one when it comes to an end; when a signal is
    delivered during the startup or while the runner waits, however many
    times, and no call on a collaborator hangs, the run leaves the wait,
    comes to an end and has executed exactly one cleanup sequence; and a
    run that returns normally has had a signal delivered. *)
Theorem handle_signal_idempotent :
  (forall signum st,
     _shutdown_event (state_of (handle_signal signum st)) = true /\
     trace_of (handle_signal signum st) = [Log INFO "signal"]) /\
  (forall signum st,
     _shutdown_event st = true ->
     state_of (handle_signal signum st) = st) /\
  (forall signum signums st,
     state_of (deliver (signum :: signums) st) = state_of (handle_signal signum st)) /\
  (forall st,
     wait_shutdown_event st =
       (if _shutdown_event st then Done tt else Blocked, st, [])) /\
  (forall w st,
     count is_cleanup_start (trace_of (run w st)) <= 1 /\
     (reply_of (run w st) <> Blocked ->
      count is_cleanup_start (trace_of (run w st)) = 1)) /\
  (forall w st,
     never_hangs w ->
     signals_early w ++ signals_waiting w <> [] ->
     reply_of (run w st) <> Blocked /\
     count is_cleanup_start (trace_of (run w st)) = 1) /\
  (forall w a,
     reply_of (run w init) = Done a ->
     signals_early w ++ signals_waiting w <> []).
Proof.
  split; [done|]. split; [|split; [|split; [|split; [|split]]]].
  - intros signum [running event c a m]; simpl. by intros ->.
  - intros signum signums st. by rewrite deliver_spec.
  - intros st. unfold wait_shutdown_event, mbind, act_bind, read.
    by destruct (_shutdown_event st).
  - apply run_cleanup_once.
  - intros w st Hw Hsig.
    destruct (run_ends w Hw Hsig st) as [Hb _]; [done|].
    split; [done|]. by apply run_cleanup_once.
  - intros w a Ha Hnil. apply app_eq_nil in Hnil as [Hearly Hwaiting].
    destruct (run_unsignalled w Hearly Hwaiting init) as (_ & _ & Hr); [done|].
    by apply (Hr a).
Qed.

End signal_claims.

(** Two signals while the runner waits: the run leaves the wait and
    executes one cleanup. *)
Lemma handle_signal_idempotent_witness :
  let w := Samples.world_of
             (Samples.document (Samples.grid_system "lighter" "BTC" "long"))
             true (Returns tt) [15; 2]%Z in
  never_hangs w /\
  signals_early w ++ signals_waiting w <> [] /\
  reply_of (@run Scalars.runtime w init) <> Blocked /\
  count is_cleanup_start (trace_of (@run Scalars.runtime w init)) = 1.
Proof.
  cbv zeta.
  assert (never_hangs
            (Samples.world_of
               (Samples.document (Samples.grid_system "lighter" "BTC" "long"))
               true (Returns tt) [15; 2]%Z)) as Hw
    by (repeat split; intros; discriminate).
  split; [exact Hw|]. split; [discriminate|].
  pose proof (@handle_signal_idempotent Scalars.runtime)
    as (_ & _ & _ & _ & _ & Hrun & _).
  apply (Hrun _ init Hw). discriminate.
Defined.
